(** * mcp-playwright: the streamable-HTTP gateway of [src/index.ts]

    A shallow embedding of [normalizeHttpPath], of the request callback of
    [startStreamableHttpServer], of the transport closure callback and of
    the shutdown sequence installed by [registerShutdown], followed by the
    properties the specification states about them. *)

From Stdlib Require Import ZArith NArith String Ascii List Bool Lia.
From stdpp Require Import base option list gmap.
Import ListNotations.
Local Open Scope N_scope.

(** ** JavaScript strings

    A JavaScript string is a sequence of UTF-16 code units.  Every string
    built-in used by the gateway ([trim], [startsWith], [endsWith], [slice],
    [split], [===]) works code unit by code unit. *)

Abbreviation codeUnit := N.
Abbreviation jsString := (list N).

(** A literal of the source text (all literals of [index.ts] are ASCII). *)
Definition js (s : string) : jsString :=
  List.map N_of_ascii (list_ascii_of_string s).

Definition slash : codeUnit := 47.

(** ECMAScript [WhiteSpace] and [LineTerminator] code points, the ones
    [String.prototype.trim] strips. *)
Definition isWhiteSpace (c : codeUnit) : bool :=
  (c =? 9) || (c =? 10) || (c =? 11) || (c =? 12) || (c =? 13) || (c =? 32)
  || (c =? 160) || (c =? 5760)
  || ((8192 <=? c) && (c <=? 8202))
  || (c =? 8232) || (c =? 8233) || (c =? 8239) || (c =? 8287)
  || (c =? 12288) || (c =? 65279).

Fixpoint trimStart (s : jsString) : jsString :=
  match s with
  | c :: s' => if isWhiteSpace c then trimStart s' else s
  | [] => []
  end.

Definition trimEnd (s : jsString) : jsString := rev (trimStart (rev s)).

Definition trim (s : jsString) : jsString := trimEnd (trimStart s).

Fixpoint startsWith (p s : jsString) : bool :=
  match p, s with
  | [], _ => true
  | a :: p', b :: s' => (a =? b) && startsWith p' s'
  | _ :: _, [] => false
  end.

Definition endsWith (p s : jsString) : bool := startsWith (rev p) (rev s).

(** [s.slice(0, -1)] *)
Definition sliceInit (s : jsString) : jsString := take (length s - 1)%nat s.

(** [s.slice(n)] *)
Definition sliceFrom (n : nat) (s : jsString) : jsString := drop n s.

Definition jsEqb (a b : jsString) : bool := bool_decide (a = b).

(** [s.split("/")]: never empty, one more part than separators. *)
Fixpoint split (sep : codeUnit) (s : jsString) : list jsString :=
  match s with
  | [] => [[]]
  | c :: s' =>
      if c =? sep then [] :: split sep s'
      else match split sep s' with
           | part :: parts => (c :: part) :: parts
           | [] => [[c]]
           end
  end.

(** ** Node built-ins of the download branch *)

Fixpoint dropSlashes (s : jsString) : jsString :=
  match s with
  | c :: s' => if c =? slash then dropSlashes s' else s
  | [] => []
  end.

Fixpoint upToSlash (s : jsString) : jsString :=
  match s with
  | c :: s' => if c =? slash then [] else c :: upToSlash s'
  | [] => []
  end.

(** [path.basename(p)] of the POSIX flavour: trailing slashes are dropped,
    then what follows the last slash is kept. *)
Definition basename (p : jsString) : jsString :=
  rev (upToSlash (dropSlashes (rev p))).

(** A header value that [http] accepts: no code unit outside the tab,
    0x20 to 0x7e and 0x80 to 0xff. *)
Definition validHeaderValue (v : jsString) : bool :=
  forallb (λ c, (c =? 9) || ((32 <=? c) && (c <=? 126)) || ((128 <=? c) && (c <=? 255))) v.

(** ** Results of code that may throw *)

Inductive Except (A : Type) : Type :=
| Return (a : A)
| Throw (message : jsString).
Arguments Return {A} a.
Arguments Throw {A} message.

(** ** [normalizeHttpPath] *)

Definition normalizeHttpPath (value : jsString) : Except jsString :=
  let trimmed := trim value in
  if jsEqb trimmed [] then Throw (js "HTTP path cannot be empty")
  else
    let withLeadingSlash :=
      if startsWith (js "/") trimmed then trimmed else js "/" ++ trimmed in
    Return (if endsWith (js "/") withLeadingSlash
               && negb (jsEqb withLeadingSlash (js "/"))
            then sliceInit withLeadingSlash
            else withLeadingSlash).

(** The returned expression of [normalizeHttpPath], as a function of
    [withLeadingSlash]. *)
Definition stripOneSlash (w : jsString) : jsString :=
  if endsWith (js "/") w && negb (jsEqb w (js "/")) then sliceInit w else w.

(** ** Data model of the gateway *)

(** Object identities.  The n-th handshake runs [createMcpServer()] and
    [new StreamableHTTPServerTransport(...)] once each: server [n] and
    transport [n] are the pair created together, and the closures
    [onsessioninitialized] and [onclose] of transport [n] capture server [n]. *)
Abbreviation ServerRef := nat.
Abbreviation TransportRef := nat.

(** An entry of [sessions]: [{ transport, server }]. *)
Record Session := mkSession { transport : TransportRef; server : ServerRef }.

Record FileResource := mkFileResource {
  owner : ServerRef;
  filePath : jsString;
  mimeType : option jsString;
  name : jsString;
  expiresAt : Z
}.

(** The mutable state reachable from the request callback.
    [sessions] is the plain object used as a map from session id to
    entry: the model holds its own properties, and [lookupSession] adds
    the properties it inherits from [Object.prototype];
    [sessionByServer] is the [Map<Server, string>];
    [transportSessionId] holds the [sessionId] field of every transport
    object ([undefined] when absent);
    [resources] is the table kept by the resource manager;
    [closeCalls] lists, oldest first, the servers whose [close()] was called;
    [drainErrors] lists the session ids logged by the drain loop. *)
Record State := mkState {
  sessions : gmap jsString Session;
  sessionByServer : gmap nat jsString;
  transportSessionId : gmap nat jsString;
  resources : gmap jsString FileResource;
  closeCalls : list ServerRef;
  drainErrors : list jsString;
  nextInstance : nat;
  isShuttingDown : bool;
  exited : bool
}.

Definition initialState : State :=
  mkState ∅ ∅ ∅ ∅ [] [] 0%nat false false.

Definition setSessions (f : gmap jsString Session → gmap jsString Session) (st : State) : State :=
  mkState (f (sessions st)) (sessionByServer st) (transportSessionId st) (resources st)
          (closeCalls st) (drainErrors st) (nextInstance st) (isShuttingDown st) (exited st).

Definition setSessionByServer (f : gmap nat jsString → gmap nat jsString) (st : State) : State :=
  mkState (sessions st) (f (sessionByServer st)) (transportSessionId st) (resources st)
          (closeCalls st) (drainErrors st) (nextInstance st) (isShuttingDown st) (exited st).

Definition setTransportSessionId (f : gmap nat jsString → gmap nat jsString) (st : State) : State :=
  mkState (sessions st) (sessionByServer st) (f (transportSessionId st)) (resources st)
          (closeCalls st) (drainErrors st) (nextInstance st) (isShuttingDown st) (exited st).

Definition setResources (f : gmap jsString FileResource → gmap jsString FileResource) (st : State) : State :=
  mkState (sessions st) (sessionByServer st) (transportSessionId st) (f (resources st))
          (closeCalls st) (drainErrors st) (nextInstance st) (isShuttingDown st) (exited st).

(** [server.close()] on server [n]: the call is recorded; what the SDK
    does inside it is not part of the model. *)
Definition serverClose (n : ServerRef) (st : State) : State :=
  mkState (sessions st) (sessionByServer st) (transportSessionId st) (resources st)
          (closeCalls st ++ [n]) (drainErrors st) (nextInstance st) (isShuttingDown st) (exited st).

Definition logDrainError (sessionId : jsString) (st : State) : State :=
  mkState (sessions st) (sessionByServer st) (transportSessionId st) (resources st)
          (closeCalls st) (drainErrors st ++ [sessionId]) (nextInstance st) (isShuttingDown st) (exited st).

(** [createMcpServer()] followed by [new StreamableHTTPServerTransport]. *)
Definition allocateInstance (st : State) : State :=
  mkState (sessions st) (sessionByServer st) (transportSessionId st) (resources st)
          (closeCalls st) (drainErrors st) (S (nextInstance st)) (isShuttingDown st) (exited st).

Definition setShuttingDown (st : State) : State :=
  mkState (sessions st) (sessionByServer st) (transportSessionId st) (resources st)
          (closeCalls st) (drainErrors st) (nextInstance st) true (exited st).

(** [process.exit(0)] *)
Definition processExit (st : State) : State :=
  mkState (sessions st) (sessionByServer st) (transportSessionId st) (resources st)
          (closeCalls st) (drainErrors st) (nextInstance st) (isShuttingDown st) true.

(** ** Resource manager *)

Record ResourceManagerConfig := mkResourceManagerConfig {
  enabled : bool;
  ttlSeconds : Z
}.

(** Modelled from the spec: the register operation of resourceManager.ts,
    which is not among the sources.  Section 4.2, register(owner, filePath,
    mimeType, name): the record is stored with expiry = now + ttl; a
    disabled store does nothing.  The fresh id is supplied by the caller of
    the model. *)
Definition registerResource (rm : ResourceManagerConfig) (o : ServerRef)
    (id fp : jsString) (mime : option jsString) (nm : jsString) (now : Z)
    (st : State) : State :=
  if enabled rm
  then setResources (insert id (mkFileResource o fp mime nm (now + ttlSeconds rm))) st
  else st.

(** Modelled from the spec: [getFileResourceById] of resourceManager.ts,
    which is not among the sources.  Section 4.2, get(owner, id): absent if
    the id is unknown, if the owner differs, or if now >= expiry; the
    physical purge of an expired record is not observable and is left out. *)
Definition getFileResourceById (rm : ResourceManagerConfig) (st : State)
    (o : ServerRef) (id : jsString) (now : Z) : option FileResource :=
  if enabled rm then
    match resources st !! id with
    | Some r =>
        if bool_decide (owner r = o) && (now <? expiresAt r)%Z then Some r else None
    | None => None
    end
  else None.

(** Modelled from the spec: [clearResourcesForServer] of resourceManager.ts,
    which is not among the sources.  Section 4.2, clearForOwner(owner):
    removes all records owned by that server instance. *)
Definition clearResourcesForServer (o : ServerRef) (st : State) : State :=
  setResources (filter (λ kv : jsString * FileResource, owner kv.2 ≠ o)) st.

(** ** Requests, the environment and responses *)

(** [req.url ? new URL(req.url, "http://localhost") : null] *)
Inductive UrlParse :=
| UrlAbsent
| UrlInvalid
| UrlPath (pathname : jsString).

(** Outcome of [for await (const chunk of req)] and of the decoding. *)
Inductive BodyRead :=
| BodyFailed
| BodyText (rawBody : jsString).

Record Request := mkRequest {
  req_url : UrlParse;
  req_method : option jsString;
  req_sessionHeader : option jsString;
  req_body : BodyRead
}.

(** What one call of [transport.handleRequest] does, as far as the gateway
    can observe: it may mint a session id and call [onsessioninitialized],
    it may call [onclose], and it may reject, with the response headers
    already sent or not.  The id is the one [randomUUID()] returned; the
    model does not use its shape. *)
Record Forward := mkForward {
  fw_initialized : option jsString;
  fw_closed : bool;
  fw_thrown : option bool
}.

(** The outcomes chosen outside the gateway during one request. *)
Record Env := mkEnv {
  now : Z;
  forward : Forward;
  connectFails : bool;
  statSize : option N
}.

Inductive Body :=
| Text (content : jsString)
| JsonRpcError (code : Z) (message : jsString)
| FileStream (resource : FileResource) (size : N).

(** The SDK functions the callback relies on. *)
Class Sdk := {
  Json : Type;
  JSON_parse : jsString → option Json;
  truthy : Json → bool;
  isInitializeRequest : Json → bool
}.

(** What the client receives: a response written by the gateway, a
    response written by the transport the request was forwarded to, or a
    response that the transport began and an exception cut short. *)
Inductive Response {sdk : Sdk} :=
| Reply (status : Z) (contentType : option jsString) (body : Body)
| Forwarded (t : TransportRef) (parsedBody : option Json)
| Interrupted (t : TransportRef).

Record Config := mkConfig {
  normalizedPath : jsString;
  resourceTtlSeconds : Z
}.

(** [configureResourceManager({ enabled: true, ttlSeconds, ... })] *)
Definition resourceManagerOf (cfg : Config) : ResourceManagerConfig :=
  mkResourceManagerConfig true (resourceTtlSeconds cfg).

(** ** The gateway: [startStreamableHttpServer] *)

Section Gateway.
Context {sdk : Sdk}.
Variable cfg : Config.

(** [sendJsonError(status, message)] *)
Definition sendJsonError (status : Z) (message : jsString) : Response :=
  Reply status (Some (js "application/json")) (JsonRpcError (-32000) message).

(** The [catch] of the callback when [res.headersSent] is false. *)
Definition internalServerError : Response :=
  Reply 500 (Some (js "application/json"))
        (JsonRpcError (-32603) (js "Internal server error")).

(** The [catch] of the callback after [transport.handleRequest] on
    transport [t] rejected: nothing is written over a response that has
    begun. *)
Definition caught (headersSent : bool) (t : TransportRef) : Response :=
  if headersSent then Interrupted t else internalServerError.

(** A string used as a condition: [undefined] and the empty string are falsy. *)
Definition truthyString (o : option jsString) : option jsString :=
  match o with
  | Some (c :: s) => Some (c :: s)
  | _ => None
  end.

(** The names of the properties that a plain object inherits from
    [Object.prototype].  The value of each is truthy (a function, and
    [Object.prototype] itself for [__proto__]) and has neither a
    [transport] nor a [server] property. *)
Definition objectPrototypeNames : list jsString :=
  [js "constructor"; js "__proto__"; js "hasOwnProperty"; js "isPrototypeOf";
   js "propertyIsEnumerable"; js "toLocaleString"; js "toString"; js "valueOf";
   js "__defineGetter__"; js "__defineSetter__"; js "__lookupGetter__";
   js "__lookupSetter__"].

(** The value of [sessions[key]]: an entry of the registry, a value
    inherited from [Object.prototype], or [undefined]. *)
Inductive Property :=
| Own (session : Session)
| Inherited
| Undefined.

(** [sessions[key]] *)
Definition lookupSession (st : State) (key : jsString) : Property :=
  match sessions st !! key with
  | Some session => Own session
  | None => if bool_decide (key ∈ objectPrototypeNames) then Inherited else Undefined
  end.

(** [getSession()] *)
Definition getSession (st : State) (req : Request) : Property :=
  match truthyString (req_sessionHeader req) with
  | Some sessionId => lookupSession st sessionId
  | None => Undefined
  end.

(** The transport assigns its [sessionId], then calls
    [onsessioninitialized(sessionId)].  The assignment
    [sessions[sessionId] = ...] makes an own property for every id but
    [__proto__], which [randomUUID()] does not return. *)
Definition onsessioninitialized (n : nat) (sessionId : jsString) (st : State) : State :=
  setSessionByServer (insert n sessionId)
    (setSessions (insert sessionId (mkSession n n))
       (setTransportSessionId (insert n sessionId) st)).

(** [transport.onclose] of the pair [n]. *)
Definition onclose (n : nat) (st : State) : State :=
  let st1 :=
    match truthyString (transportSessionId st !! n) with
    | Some sessionId =>
        match sessions st !! sessionId with
        | Some _ => setSessions (delete sessionId) st
        | None => st
        end
    | None => st
    end in
  setSessionByServer (delete n) (clearResourcesForServer n (serverClose n st1)).

(** The callbacks run by one [transport.handleRequest] on transport [n].
    A transport mints its id once, while it has none. *)
Definition transportHandleRequest (n : TransportRef) (fw : Forward) (st : State) : State :=
  let st1 :=
    match fw_initialized fw, transportSessionId st !! n with
    | Some sessionId, None => onsessioninitialized n sessionId st
    | _, _ => st
    end in
  if fw_closed fw then onclose n st1 else st1.

Definition downloadPrefix : jsString := normalizedPath cfg ++ js "/resources/".

(** [url.pathname.slice(downloadPrefix.length).split("/")] *)
Definition downloadParts (pathname : jsString) : list jsString :=
  split slash (sliceFrom (length downloadPrefix) pathname).

(** The path part of the URI made by [buildResourceUri]. *)
Definition downloadPath (sessionId id filename : jsString) : jsString :=
  downloadPrefix ++ sessionId ++ js "/" ++ id ++ js "/" ++ filename.

(** The headers of the 200 answer: [writeHead] throws on a value that is
    not a valid header value, inside the [try] that also holds [stat]. *)
Definition validDownloadHeaders (fileResource : FileResource) : bool :=
  validHeaderValue (default (js "application/octet-stream") (mimeType fileResource))
  && validHeaderValue (js "inline; filename=" ++ [34] ++ basename (name fileResource)
                         ++ [34]).

(** The [try] of the download branch, once the resource is found. *)
Definition sendFile (fileResource : FileResource) (env : Env) : Response :=
  match statSize env with
  | Some size =>
      if validDownloadHeaders fileResource
      then Reply 200
             (Some (default (js "application/octet-stream") (mimeType fileResource)))
             (FileStream fileResource size)
      else Reply 500 None (Text (js "Failed to serve file"))
  | None => Reply 500 None (Text (js "Failed to serve file"))
  end.

(** The branch [if (url?.pathname.startsWith(downloadPrefix))].  For a
    name inherited from [Object.prototype], [session.server] is
    [undefined], which owns no resource: the lookup of the resource
    manager finds nothing. *)
Definition serveDownload (st : State) (pathname : jsString) (env : Env) : Response :=
  let parts := downloadParts pathname in
  if (length parts <? 2)%nat then Reply 400 None (Text (js "Invalid download path"))
  else
    let sessionId := nth 0 parts [] in
    let resourceId := nth 1 parts [] in
    match lookupSession st sessionId with
    | Undefined => Reply 404 None (Text (js "Not Found"))
    | Inherited => Reply 404 None (Text (js "Not Found"))
    | Own session =>
        match getFileResourceById (resourceManagerOf cfg) st (server session)
                resourceId (now env) with
        | None => Reply 404 None (Text (js "Not Found"))
        | Some fileResource => sendFile fileResource env
        end
    end.

(** [!parsedBody || !isInitializeRequest(parsedBody)] *)
Definition notInitialize (parsedBody : option Json) : bool :=
  match parsedBody with
  | None => true
  | Some j => negb (truthy j) || negb (isInitializeRequest j)
  end.

(** [if (rawBody) { parsedBody = JSON.parse(rawBody) }]: [None] when
    [JSON.parse] throws, [Some None] when [parsedBody] stays [undefined]. *)
Definition parseBody (rawBody : jsString) : option (option Json) :=
  if jsEqb rawBody [] then Some None
  else match JSON_parse rawBody with
       | Some j => Some (Some j)
       | None => None
       end.

(** The branch [if (method === "POST")].  When [getSession()] returns an
    inherited value, [existingSession.transport] is [undefined] and the
    call of [handleRequest] on it throws before anything is written. *)
Definition handlePost (st : State) (req : Request) (env : Env) : State * Response :=
  match req_body req with
  | BodyFailed => (st, internalServerError)
  | BodyText rawBody =>
      match parseBody rawBody with
      | None => (st, sendJsonError 400 (js "Invalid JSON body"))
      | Some parsedBody =>
          match getSession st req with
          | Own existingSession =>
              let t := transport existingSession in
              let st1 := transportHandleRequest t (forward env) st in
              match fw_thrown (forward env) with
              | Some headersSent => (st1, caught headersSent t)
              | None => (st1, Forwarded t parsedBody)
              end
          | Inherited => (st, internalServerError)
          | Undefined =>
              if notInitialize parsedBody
              then (st, sendJsonError 400 (js "Bad Request: No valid session ID provided"))
              else
                let n := nextInstance st in
                let st1 := allocateInstance st in
                let st2 :=
                  match truthyString (transportSessionId st1 !! n) with
                  | Some sessionId =>
                      setSessionByServer (insert n sessionId)
                        (setSessions (insert sessionId (mkSession n n)) st1)
                  | None => st1
                  end in
                if connectFails env then (st2, internalServerError)
                else
                  let st3 := transportHandleRequest n (forward env) st2 in
                  match fw_thrown (forward env) with
                  | Some headersSent => (st3, caught headersSent n)
                  | None => (st3, Forwarded n parsedBody)
                  end
          end
      end
  end.

(** The branch [if (method === "GET" || method === "DELETE")]; an inherited
    value makes [session.transport.handleRequest] throw as in the POST
    branch. *)
Definition handleGetDelete (method : jsString) (st : State) (req : Request) (env : Env)
  : State * Response :=
  match getSession st req with
  | Undefined => (st, Reply 400 None (Text (js "Invalid or missing session ID")))
  | Inherited => (st, internalServerError)
  | Own session =>
      let t := transport session in
      let st1 := transportHandleRequest t (forward env) st in
      match fw_thrown (forward env) with
      | Some headersSent => (st1, caught headersSent t)
      | None =>
          let st2 :=
            if jsEqb method (js "DELETE") then
              match truthyString (transportSessionId st1 !! t) with
              | Some sessionId =>
                  setSessionByServer (delete (server session))
                    (setSessions (delete sessionId)
                       (clearResourcesForServer (server session) st1))
              | None => st1
              end
            else st1 in
          (st2, Forwarded t None)
      end
  end.

(** [req.method ?? "GET"] *)
Definition methodOf (req : Request) : jsString := default (js "GET") (req_method req).

(** The callback given to [createServer]. *)
Definition requestListener (st : State) (req : Request) (env : Env) : State * Response :=
  match req_url req with
  | UrlInvalid => (st, internalServerError)
  | url =>
      let pathname := match url with UrlPath p => Some p | _ => None end in
      let method := methodOf req in
      if from_option (startsWith downloadPrefix) false pathname
      then (st, serveDownload st (default [] pathname) env)
      else if negb (from_option (λ p, jsEqb p (normalizedPath cfg)) false pathname)
      then (st, Reply 404 None (Text (js "Not Found")))
      else if jsEqb method (js "POST") then handlePost st req env
      else if jsEqb method (js "GET") || jsEqb method (js "DELETE")
      then handleGetDelete method st req env
      else (st, Reply 405 None (Text (js "Method Not Allowed")))
  end.

(** The client protocol errors of section 7 of the specification, as
    conditions on the request and the registry: a malformed JSON body, a
    missing or unknown session, a bad method, a bad path. *)
Inductive ClientError :=
| MalformedJson
| UnknownSession
| BadMethod
| BadPath.

(** The session header is absent, is empty, or names no entry of the
    registry. *)
Definition namesNoSession (st : State) (req : Request) : Prop :=
  match truthyString (req_sessionHeader req) with
  | Some sessionId => sessions st !! sessionId = None
  | None => True
  end.

(** The path is that of a download with fewer than two segments, or with
    a first segment that names no entry of the registry. *)
Definition badDownload (st : State) (pathname : jsString) : Prop :=
  startsWith downloadPrefix pathname = true
  ∧ ((length (downloadParts pathname) < 2)%nat
     ∨ sessions st !! nth 0 (downloadParts pathname) [] = None).

Definition clientProtocolError (st : State) (req : Request) (e : ClientError) : Prop :=
  match e with
  | MalformedJson =>
      req_url req = UrlPath (normalizedPath cfg) ∧ methodOf req = js "POST"
      ∧ ∃ rawBody, req_body req = BodyText rawBody ∧ parseBody rawBody = None
  | UnknownSession =>
      req_url req = UrlPath (normalizedPath cfg) ∧ namesNoSession st req
      ∧ (methodOf req = js "GET" ∨ methodOf req = js "DELETE"
         ∨ (methodOf req = js "POST"
            ∧ ∃ rawBody parsedBody,
                req_body req = BodyText rawBody ∧ parseBody rawBody = Some parsedBody
                ∧ notInitialize parsedBody = true))
  | BadMethod =>
      req_url req = UrlPath (normalizedPath cfg)
      ∧ methodOf req ≠ js "POST" ∧ methodOf req ≠ js "GET" ∧ methodOf req ≠ js "DELETE"
  | BadPath =>
      req_url req = UrlAbsent ∨ req_url req = UrlInvalid
      ∨ ∃ p, req_url req = UrlPath p ∧ p ≠ normalizedPath cfg
             ∧ (startsWith downloadPrefix p = false ∨ badDownload st p)
  end.

(** The two inputs on which the callback ends in its [catch] without
    having looked at the error: a request target that [new URL] rejects,
    and a session header that is the name of a property inherited from
    [Object.prototype]. *)
Definition targetParses (req : Request) : Prop := req_url req ≠ UrlInvalid.

Definition noInheritedName (req : Request) : Prop :=
  ∀ sessionId, req_sessionHeader req = Some sessionId →
    sessionId ∉ objectPrototypeNames.

(** ** Shutdown *)

(** The body of the loop of [close]: [session.server.close()] is awaited
    inside a [try], a rejection is logged, and the entry is deleted. *)
Definition drainOne (closeFails : ServerRef → bool) (sessionId : jsString)
    (session : Session) (st : State) : State :=
  setSessions (delete sessionId)
    (if closeFails (server session)
     then logDrainError sessionId (serverClose (server session) st)
     else serverClose (server session) st).

(** The loop of [close].  [session.server] is read inside the [try]: for
    a key that names no entry the [TypeError] is logged like a failed
    [close()], and the loop goes on. *)
Fixpoint drain (closeFails : ServerRef → bool) (sessionIds : list jsString) (st : State)
  : State :=
  match sessionIds with
  | [] => st
  | sessionId :: rest =>
      match sessions st !! sessionId with
      | None =>
          drain closeFails rest (setSessions (delete sessionId) (logDrainError sessionId st))
      | Some session => drain closeFails rest (drainOne closeFails sessionId session st)
      end
  end.

(** [close]: the drain over [Object.keys(sessions)], then the HTTP
    server's own [close].  The keys are taken in the order of
    [map_to_list], not in insertion order. *)
Definition close (closeFails : ServerRef → bool) (httpCloseFails : bool) (st : State)
  : State * option jsString :=
  (drain closeFails (map_to_list (sessions st)).*1 st,
   if httpCloseFails then Some (js "Error") else None).

(** The handler [shutdown] installed by [registerShutdown(close)] for
    SIGINT and SIGTERM. *)
Definition shutdown (closeFails : ServerRef → bool) (httpCloseFails : bool) (st : State)
  : State :=
  if isShuttingDown st then st
  else processExit (close closeFails httpCloseFails (setShuttingDown st)).1.

(** ** Runs *)

Inductive Event :=
| EvRequest (req : Request) (env : Env)
| EvTransportClosed (n : TransportRef)
| EvRegisterResource (o : ServerRef) (id fp : jsString) (mime : option jsString)
    (nm : jsString) (t : Z)
| EvSignal (closeFails : ServerRef → bool) (httpCloseFails : bool).

(** A transport can signal closure once its [onclose] has been assigned. *)
Definition step (st : State) (ev : Event) : State :=
  if exited st then st
  else
    match ev with
    | EvRequest req env => (requestListener st req env).1
    | EvTransportClosed n => if (n <? nextInstance st)%nat then onclose n st else st
    | EvRegisterResource o id fp mime nm t =>
        registerResource (resourceManagerOf cfg) o id fp mime nm t st
    | EvSignal closeFails httpCloseFails => shutdown closeFails httpCloseFails st
    end.

Definition run (st : State) (evs : list Event) : State := fold_left step evs st.

Definition reachable (st : State) : Prop := ∃ evs, st = run initialState evs.

(** The id an event mints, if any. *)
Definition minted (ev : Event) : option jsString :=
  match ev with
  | EvRequest _ env => fw_initialized (forward env)
  | _ => None
  end.

(** Every entry of [sessions] is filed under the id of its own transport
    and holds a pair created together; only transports that exist have
    an id. *)
Definition wellFormed (st : State) : Prop :=
  (∀ sessionId s, sessions st !! sessionId = Some s →
     transport s = server s
     ∧ transportSessionId st !! transport s = Some sessionId)
  ∧ (∀ n sessionId, transportSessionId st !! n = Some sessionId →
       (n < nextInstance st)%nat).

End Gateway.

(** [startStreamableHttpServer({ port, path, resourceTtlSeconds, ... })] up
    to the point where the server listens. *)
Definition startStreamableHttpServer (path : jsString) (ttl : Z) : Except (Config * State) :=
  match normalizeHttpPath path with
  | Return p => Return (mkConfig p ttl, initialState)
  | Throw m => Throw m
  end.

(** ** A concrete platform for running the model

    Three request bodies are recognised; every other text is rejected the
    way [JSON.parse] rejects a malformed one. *)
Inductive SampleJson := SampleNull | SampleInitialize | SampleToolCall.

Definition quoted (s : string) : jsString := [34] ++ js s ++ [34].

Definition initializeBody : jsString :=
  js "{" ++ quoted "method" ++ js ":" ++ quoted "initialize" ++ js "}".

Definition toolCallBody : jsString :=
  js "{" ++ quoted "method" ++ js ":" ++ quoted "tools/call" ++ js "}".

Definition sampleSdk : Sdk :=
  {| Json := SampleJson;
     JSON_parse := λ s,
       if jsEqb s (js "null") then Some SampleNull
       else if jsEqb s initializeBody then Some SampleInitialize
       else if jsEqb s toolCallBody then Some SampleToolCall
       else None;
     truthy := λ j, match j with SampleNull => false | _ => true end;
     isInitializeRequest := λ j, match j with SampleInitialize => true | _ => false end |}.

Definition sampleConfig : Config := mkConfig (js "/mcp") 180.

Definition quiet : Forward := mkForward None false None.

Definition sampleEnv (t : Z) (fw : Forward) : Env := mkEnv t fw false (Some 10).

Definition post (sid : option jsString) (body : jsString) : Request :=
  mkRequest (UrlPath (js "/mcp")) (Some (js "POST")) sid (BodyText body).

Definition get (sid : option jsString) : Request :=
  mkRequest (UrlPath (js "/mcp")) (Some (js "GET")) sid (BodyText []).

Definition delete_ (sid : option jsString) : Request :=
  mkRequest (UrlPath (js "/mcp")) (Some (js "DELETE")) sid (BodyText []).

(** A handshake on which the transport mints [sid]. *)
Definition handshake (sid : jsString) : Event :=
  EvRequest (post None initializeBody) (sampleEnv 0 (mkForward (Some sid) false None)).

(** One live session ["A"] (pair 0); then two, ["A"] and ["B"] (pair 1). *)
Definition oneSession : State :=
  run (sdk := sampleSdk) sampleConfig initialState [handshake (js "A")].

Definition twoSessions : State :=
  run (sdk := sampleSdk) sampleConfig initialState [handshake (js "A"); handshake (js "B")].

(** The tool of session ["A"] registers a screenshot at time 100. *)
Definition registerShot : Event :=
  EvRegisterResource 0%nat (js "r1") (js "/data/shot.png") (Some (js "image/png"))
    (js "shot.png") 100.

Definition twoSessionsOneShot : State :=
  run (sdk := sampleSdk) sampleConfig initialState
    [handshake (js "A"); handshake (js "B"); registerShot].

(** The configuration with a TTL of one time unit. *)
Definition shortLived : Config := mkConfig (js "/mcp") 1.

(** The transport answers and runs its closure callback. *)
Definition closing : Forward := mkForward None true None.

(** A request for a download path, with any method. *)
Definition download (method : string) (sessionId id filename : jsString) : Request :=
  mkRequest (UrlPath (downloadPath sampleConfig sessionId id filename))
    (Some (js method)) None (BodyText []).

(** ** Numbers and their decimal text

    The numbers met on the command line are the results of
    [Number.parseInt(value, 10)]: [NaN], an infinity, or an integer-valued
    double.  A finite one is held as its integer value; the negative zero
    is not told apart from zero. *)

Inductive Number :=
| NaN
| Infinite (negative : bool)
| Finite (z : Z).

(** The double nearest to a natural number (ties to even), [None] when it
    is beyond the largest double.  Integers up to 2^53 are doubles. *)
Definition roundToDouble (m : N) : option N :=
  if m <=? 2 ^ 53 then Some m
  else
    let e := N.log2 m - 52 in
    let q := m / 2 ^ e in
    let rest := m mod 2 ^ e in
    let half := 2 ^ (e - 1) in
    let q' := if (half <? rest) || ((rest =? half) && N.odd q) then q + 1 else q in
    if 2 ^ 1024 <=? q' * 2 ^ e then None else Some (q' * 2 ^ e).

Definition isDigit (c : codeUnit) : bool := (48 <=? c) && (c <=? 57).

(** The longest prefix made of decimal digits. *)
Fixpoint takeDigits (s : jsString) : jsString :=
  match s with
  | c :: s' => if isDigit c then c :: takeDigits s' else []
  | [] => []
  end.

(** The integer written by a run of decimal digits. *)
Definition digitsValue (digits : jsString) : N :=
  fold_left (λ acc c, 10 * acc + (c - 48)) digits 0.

(** [Number.parseInt(value, 10)]: leading white space is skipped, one sign
    is read, then digits up to the first other code unit. *)
Definition parseInt10 (value : jsString) : Number :=
  let s := trimStart value in
  let negative := match s with c :: _ => c =? 45 | [] => false end in
  let unsigned :=
    match s with
    | c :: s' => if (c =? 45) || (c =? 43) then s' else s
    | [] => []
    end in
  let digits := takeDigits unsigned in
  if jsEqb digits [] then NaN
  else match roundToDouble (digitsValue digits) with
       | None => Infinite negative
       | Some m => Finite (if negative then - Z.of_N m else Z.of_N m)
       end.

(** The decimal digits of a natural number, most significant first. *)
Fixpoint digitsOf (fuel : nat) (n : N) (acc : jsString) : jsString :=
  match fuel with
  | O => acc
  | S fuel' =>
      let acc' := (48 + n mod 10) :: acc in
      if n / 10 =? 0 then acc' else digitsOf fuel' (n / 10) acc'
  end.

(** The text of an integer in a template literal such as [`:${port}`]
    (integers of magnitude below 10^21 are written in full). *)
Definition numberToString (z : Z) : jsString :=
  let n := Z.abs_N z in
  let digits := digitsOf (S (N.to_nat (N.log2 n))) n [] in
  if (z <? 0)%Z then 45 :: digits else digits.

(** ** [encodeURIComponent] *)

Definition isUnreserved (c : codeUnit) : bool :=
  ((65 <=? c) && (c <=? 90)) || ((97 <=? c) && (c <=? 122)) || isDigit c
  || (c =? 45) || (c =? 95) || (c =? 46) || (c =? 33) || (c =? 126)
  || (c =? 42) || (c =? 39) || (c =? 40) || (c =? 41).

Definition hexDigit (n : N) : codeUnit := if n <? 10 then 48 + n else 55 + n.

Definition percentEncode (octet : N) : jsString :=
  [37; hexDigit (octet / 16); hexDigit (octet mod 16)].

Definition utf8 (cp : N) : list N :=
  if cp <? 128 then [cp]
  else if cp <? 2048 then [192 + cp / 64; 128 + cp mod 64]
  else if cp <? 65536 then [224 + cp / 4096; 128 + (cp / 64) mod 64; 128 + cp mod 64]
  else [240 + cp / 262144; 128 + (cp / 4096) mod 64; 128 + (cp / 64) mod 64;
        128 + cp mod 64].

Definition isLeadSurrogate (c : codeUnit) : bool := (55296 <=? c) && (c <=? 56319).
Definition isTrailSurrogate (c : codeUnit) : bool := (56320 <=? c) && (c <=? 57343).

(** Unreserved code units are kept; every other code point is written as
    the percent-escaped octets of its UTF-8 form; an unpaired surrogate
    throws a [URIError]. *)
Fixpoint encodeURIComponent (s : jsString) : Except jsString :=
  match s with
  | [] => Return []
  | c :: rest =>
      if isUnreserved c then
        match encodeURIComponent rest with
        | Return out => Return (c :: out)
        | Throw m => Throw m
        end
      else if isLeadSurrogate c then
        match rest with
        | d :: rest' =>
            if isTrailSurrogate d then
              match encodeURIComponent rest' with
              | Return out =>
                  Return (concat (List.map percentEncode
                                    (utf8 (65536 + (c - 55296) * 1024 + (d - 56320))))
                          ++ out)
              | Throw m => Throw m
              end
            else Throw (js "URI malformed")
        | [] => Throw (js "URI malformed")
        end
      else if isTrailSurrogate c then Throw (js "URI malformed")
      else
        match encodeURIComponent rest with
        | Return out => Return (concat (List.map percentEncode (utf8 c)) ++ out)
        | Throw m => Throw m
        end
  end.

(** ** Resource URIs *)

(** The parameters of [startStreamableHttpServer] that only the URI
    builder uses. *)
Record UriConfig := mkUriConfig {
  port : Z;
  hostName : jsString;
  insecure : bool
}.

(** [`${scheme}://${hostName}${portPart}`] *)
Definition uriOrigin (ucfg : UriConfig) : jsString :=
  (if insecure ucfg then js "http" else js "https")
  ++ js "://" ++ hostName ucfg ++ js ":" ++ numberToString (port ucfg).

(** [getSessionId]: [(server) => sessionByServer.get(server)] *)
Definition getSessionId (st : State) (o : ServerRef) : option jsString :=
  sessionByServer st !! o.

(** [buildResourceUri({ server, id, filename })]: [Return None] stands for
    [undefined]. *)
Definition buildResourceUri (cfg : Config) (ucfg : UriConfig) (st : State)
    (o : ServerRef) (id filename : jsString) : Except (option jsString) :=
  match truthyString (sessionByServer st !! o) with
  | None => Return None
  | Some sessionId =>
      match encodeURIComponent filename with
      | Throw m => Throw m
      | Return sanitizedFile =>
          Return (Some (uriOrigin ucfg ++ normalizedPath cfg ++ js "/resources/"
                          ++ sessionId ++ js "/" ++ id ++ js "/" ++ sanitizedFile))
      end
  end.

(** Every entry of [sessions] with a non-empty id has its server bound to
    that id in [sessionByServer]. *)
Definition serversBound (st : State) : Prop :=
  ∀ sessionId s, sessions st !! sessionId = Some s → sessionId ≠ [] →
    sessionByServer st !! server s = Some sessionId.

(** ** Command line *)

Record CliOptions := mkCliOptions {
  cli_http : bool;
  cli_port : Z;
  cli_path : jsString;
  cli_resourceTtlSeconds : Z;
  cli_hostName : jsString;
  cli_insecure : bool
}.

#[global] Instance Except_bind : MBind Except :=
  λ A B f x, match x with Return a => f a | Throw m => Throw m end.

Definition DEFAULT_PORT : Z := 8000.
Definition DEFAULT_PATH : jsString := js "/mcp".
Definition DEFAULT_RESOURCE_TTL_SECONDS : Z := 180.

(** [parsePort] of [parseCliOptions] *)
Definition parsePort (value : jsString) : Except Z :=
  match parseInt10 value with
  | Finite p =>
      if (p <? 0)%Z || (65535 <? p)%Z then Throw (js "Invalid port value: " ++ value)
      else Return p
  | _ => Throw (js "Invalid port value: " ++ value)
  end.

(** [parseTtl] of [parseCliOptions] *)
Definition parseTtl (value : jsString) : Except Z :=
  match parseInt10 value with
  | Finite seconds =>
      if (seconds <=? 0)%Z then Throw (js "Invalid resource TTL: " ++ value)
      else Return seconds
  | _ => Throw (js "Invalid resource TTL: " ++ value)
  end.

(** [parseHost] of [parseCliOptions] *)
Definition parseHost (value : jsString) : Except jsString :=
  let trimmed := trim value in
  if jsEqb trimmed [] then Throw (js "Host name cannot be empty") else Return trimmed.

(** [arg.split("=")[1] ?? ""] *)
Definition afterEquals (arg : jsString) : jsString := nth 1 (split 61 arg) [].

Definition setHttp (o : CliOptions) : CliOptions :=
  mkCliOptions true (cli_port o) (cli_path o) (cli_resourceTtlSeconds o)
    (cli_hostName o) (cli_insecure o).
Definition setPort (p : Z) (o : CliOptions) : CliOptions :=
  mkCliOptions (cli_http o) p (cli_path o) (cli_resourceTtlSeconds o)
    (cli_hostName o) (cli_insecure o).
Definition setPath (p : jsString) (o : CliOptions) : CliOptions :=
  mkCliOptions (cli_http o) (cli_port o) p (cli_resourceTtlSeconds o)
    (cli_hostName o) (cli_insecure o).
Definition setTtl (t : Z) (o : CliOptions) : CliOptions :=
  mkCliOptions (cli_http o) (cli_port o) (cli_path o) t (cli_hostName o) (cli_insecure o).
Definition setHostName (h : jsString) (o : CliOptions) : CliOptions :=
  mkCliOptions (cli_http o) (cli_port o) (cli_path o) (cli_resourceTtlSeconds o)
    h (cli_insecure o).
Definition setInsecure (o : CliOptions) : CliOptions :=
  mkCliOptions (cli_http o) (cli_port o) (cli_path o) (cli_resourceTtlSeconds o)
    (cli_hostName o) true.

(** [args[i + 1]] checked by [if (!value)]. *)
Definition nextValue (flag : string) (rest : list jsString)
  : Except (jsString * list jsString) :=
  match rest with
  | value :: rest' =>
      if jsEqb value [] then Throw (js "Missing value for " ++ js flag)
      else Return (value, rest')
  | [] => Throw (js "Missing value for " ++ js flag)
  end.

(** One round of the loop of [parseCliOptions] on [arg = args[i]]: the
    options after it and what is left of the array. *)
Definition parseArg (options : CliOptions) (arg : jsString) (rest : list jsString)
  : Except (CliOptions * list jsString) :=
  if jsEqb arg (js "--http") then Return (setHttp options, rest)
  else if jsEqb arg (js "--port") then
    next ← nextValue "--port" rest;
    p ← parsePort next.1; Return (setPort p options, next.2)
  else if startsWith (js "--port=") arg then
    p ← parsePort (afterEquals arg); Return (setPort p options, rest)
  else if jsEqb arg (js "--path") then
    next ← nextValue "--path" rest;
    p ← normalizeHttpPath next.1; Return (setPath p options, next.2)
  else if startsWith (js "--path=") arg then
    p ← normalizeHttpPath (afterEquals arg); Return (setPath p options, rest)
  else if jsEqb arg (js "--resource-ttl") then
    next ← nextValue "--resource-ttl" rest;
    t ← parseTtl next.1; Return (setTtl t options, next.2)
  else if startsWith (js "--resource-ttl=") arg then
    t ← parseTtl (afterEquals arg); Return (setTtl t options, rest)
  else if jsEqb arg (js "--host-name") then
    next ← nextValue "--host-name" rest;
    h ← parseHost next.1; Return (setHostName h options, next.2)
  else if startsWith (js "--host-name=") arg then
    h ← parseHost (afterEquals arg); Return (setHostName h options, rest)
  else if jsEqb arg (js "--insecure") then Return (setInsecure options, rest)
  else Return (options, rest).

(** The loop of [parseCliOptions], from index [i] on: [args] is what is
    left of the array. *)
Fixpoint parseArgs (options : CliOptions) (args : list jsString) : Except CliOptions :=
  match args with
  | [] => Return options
  | arg :: rest =>
      if jsEqb arg (js "--http") then parseArgs (setHttp options) rest
      else if jsEqb arg (js "--port") then
        match rest with
        | value :: rest' =>
            if jsEqb value [] then Throw (js "Missing value for --port")
            else p ← parsePort value; parseArgs (setPort p options) rest'
        | [] => Throw (js "Missing value for --port")
        end
      else if startsWith (js "--port=") arg then
        p ← parsePort (afterEquals arg); parseArgs (setPort p options) rest
      else if jsEqb arg (js "--path") then
        match rest with
        | value :: rest' =>
            if jsEqb value [] then Throw (js "Missing value for --path")
            else p ← normalizeHttpPath value; parseArgs (setPath p options) rest'
        | [] => Throw (js "Missing value for --path")
        end
      else if startsWith (js "--path=") arg then
        p ← normalizeHttpPath (afterEquals arg); parseArgs (setPath p options) rest
      else if jsEqb arg (js "--resource-ttl") then
        match rest with
        | value :: rest' =>
            if jsEqb value [] then Throw (js "Missing value for --resource-ttl")
            else t ← parseTtl value; parseArgs (setTtl t options) rest'
        | [] => Throw (js "Missing value for --resource-ttl")
        end
      else if startsWith (js "--resource-ttl=") arg then
        t ← parseTtl (afterEquals arg); parseArgs (setTtl t options) rest
      else if jsEqb arg (js "--host-name") then
        match rest with
        | value :: rest' =>
            if jsEqb value [] then Throw (js "Missing value for --host-name")
            else h ← parseHost value; parseArgs (setHostName h options) rest'
        | [] => Throw (js "Missing value for --host-name")
        end
      else if startsWith (js "--host-name=") arg then
        h ← parseHost (afterEquals arg); parseArgs (setHostName h options) rest
      else if jsEqb arg (js "--insecure") then parseArgs (setInsecure options) rest
      else parseArgs options rest
  end.

(** [parseCliOptions(args)]; [defaultHostName] is [os.hostname()]. *)
Definition defaultOptions (defaultHostName : jsString) : CliOptions :=
  mkCliOptions false DEFAULT_PORT DEFAULT_PATH DEFAULT_RESOURCE_TTL_SECONDS
    defaultHostName false.

Definition parseCliOptions (defaultHostName : jsString) (args : list jsString)
  : Except CliOptions :=
  parseArgs (defaultOptions defaultHostName) args.

(** What [parseCliOptions] checks of the options it returns;
    [defaultHostName] is let through as it is. *)
Definition validOptions (defaultHostName : jsString) (o : CliOptions) : Prop :=
  (0 ≤ cli_port o ≤ 65535)%Z
  ∧ (0 < cli_resourceTtlSeconds o)%Z
  ∧ startsWith (js "/") (cli_path o) = true
  ∧ (cli_hostName o = defaultHostName
     ∨ (cli_hostName o ≠ [] ∧ trim (cli_hostName o) = cli_hostName o)).

(** An argument that one of the branches of the loop acts on. *)
Definition recognised (arg : jsString) : bool :=
  jsEqb arg (js "--http") || jsEqb arg (js "--port") || startsWith (js "--port=") arg
  || jsEqb arg (js "--path") || startsWith (js "--path=") arg
  || jsEqb arg (js "--resource-ttl") || startsWith (js "--resource-ttl=") arg
  || jsEqb arg (js "--host-name") || startsWith (js "--host-name=") arg
  || jsEqb arg (js "--insecure").

(** What [runServer] starts. *)
Inductive Running :=
| HttpServer (cfg : Config) (ucfg : UriConfig) (st : State)
| StdioServer.

(** [runServer()] on [process.argv.slice(2)]. *)
Definition runServer (defaultHostName : jsString) (argv : list jsString) : Except Running :=
  options ← parseCliOptions defaultHostName argv;
  if cli_http options then
    started ← startStreamableHttpServer (cli_path options) (cli_resourceTtlSeconds options);
    Return (HttpServer started.1
              (mkUriConfig (cli_port options) (cli_hostName options) (cli_insecure options))
              started.2)
  else Return StdioServer.


(** ** Sample inputs for the command line and the URI builder *)

Definition sampleUriConfig : UriConfig := mkUriConfig 8000 (js "localhost") false.

(** The transport mints [sid] for a handshake. *)
Definition minting (sid : jsString) : Forward := mkForward (Some sid) false None.

(** The transport throws before the response has begun. *)
Definition throwing : Forward := mkForward None false (Some false).

Definition sampleOptions : CliOptions := defaultOptions (js "host").
(** * Properties *)

(** ** Strings *)

Lemma slash_not_white : isWhiteSpace slash = false.
Proof. reflexivity. Qed.

Lemma startsWith_slash (s : jsString) :
  startsWith (js "/") s = true ↔ ∃ s', s = slash :: s'.
Proof.
  change (js "/") with [slash]. destruct s as [|c s]; cbn [startsWith].
  - split; [discriminate | intros [s' Hs]; discriminate].
  - rewrite andb_true_r, N.eqb_eq. split.
    + intros <-. by exists s.
    + intros [s' Hs]. by injection Hs.
Qed.

Lemma endsWith_snoc (d c : codeUnit) (x : jsString) :
  endsWith [d] (x ++ [c]) = (d =? c).
Proof. unfold endsWith. rewrite rev_unit. cbn [rev app startsWith]. apply andb_true_r. Qed.

Lemma endsWith_nil (d : codeUnit) : endsWith [d] [] = false.
Proof. reflexivity. Qed.

Lemma endsWith_two_snoc (x : jsString) :
  endsWith (js "//") (x ++ [slash; slash]) = true.
Proof.
  unfold endsWith. change (x ++ [slash; slash]) with (x ++ [slash] ++ [slash]).
  rewrite app_assoc, !rev_unit. reflexivity.
Qed.

Lemma sliceInit_snoc (x : jsString) (c : codeUnit) : sliceInit (x ++ [c]) = x.
Proof.
  unfold sliceInit. rewrite length_app. simpl.
  replace (length x + 1 - 1)%nat with (length x) by lia.
  apply take_app_length.
Qed.

Lemma snoc_cases (s : jsString) : s = [] ∨ ∃ x c, s = x ++ [c].
Proof.
  destruct s as [|a s] using rev_ind; [by left | right; eauto].
Qed.

Lemma trimStart_nonwhite (c : codeUnit) (s : jsString) :
  isWhiteSpace c = false → trimStart (c :: s) = c :: s.
Proof. intros Hc. simpl. by rewrite Hc. Qed.

Lemma trimEnd_snoc (s : jsString) (c : codeUnit) :
  trimEnd (s ++ [c]) = if isWhiteSpace c then trimEnd s else s ++ [c].
Proof.
  unfold trimEnd. rewrite rev_unit. simpl.
  destruct (isWhiteSpace c); [done|].
  simpl. by rewrite rev_involutive.
Qed.

Lemma trimEnd_length (s : jsString) : (length (trimEnd s) ≤ length s)%nat.
Proof.
  induction s as [|c s IH] using rev_ind; [done|].
  rewrite trimEnd_snoc, length_app. simpl.
  destruct (isWhiteSpace c); [lia | rewrite length_app; simpl; lia].
Qed.

Lemma trimEnd_cons_nonwhite (c : codeUnit) (s : jsString) :
  isWhiteSpace c = false → ∃ s', trimEnd (c :: s) = c :: s'.
Proof.
  intros Hc. induction s as [|d s IH] using rev_ind.
  - exists []. change [c] with ([] ++ [c]). rewrite trimEnd_snoc. by rewrite Hc.
  - change (c :: s ++ [d]) with ((c :: s) ++ [d]). rewrite trimEnd_snoc.
    destruct (isWhiteSpace d); [done | eauto].
Qed.

Lemma split_nonempty (sep : codeUnit) (s : jsString) : split sep s ≠ [].
Proof.
  destruct s as [|c s]; [done|]. cbn [split].
  destruct (c =? sep); [done|]. by destruct (split sep s).
Qed.

(** The text up to the first separator is the first part. *)
Lemma split_app (sep : codeUnit) (a b : jsString) :
  sep ∉ a → split sep (a ++ sep :: b) = a :: split sep b.
Proof.
  induction a as [|c a IH]; intros Hsep.
  - cbn [app split]. by rewrite N.eqb_refl.
  - apply not_elem_of_cons in Hsep as [Hc Ha].
    cbn [app split]. apply not_eq_sym, N.eqb_neq in Hc. rewrite Hc.
    by rewrite IH.
Qed.

Lemma split_no_separator (sep : codeUnit) (s : jsString) :
  sep ∉ s → split sep s = [s].
Proof.
  induction s as [|c s IH]; [done|]. intros Hs.
  apply not_elem_of_cons in Hs as [Hc Hs]. cbn [split].
  apply not_eq_sym, N.eqb_neq in Hc. by rewrite Hc, IH.
Qed.

(** A text has no separator, or it is cut at its first one. *)
Lemma split_first (sep : codeUnit) (s : jsString) :
  sep ∉ s ∨ ∃ a b, s = a ++ sep :: b ∧ sep ∉ a.
Proof.
  induction s as [|c s IH]; [left; apply not_elem_of_nil|].
  destruct (N.eq_dec c sep) as [-> | Hc].
  - right. exists [], s. split; [done | apply not_elem_of_nil].
  - destruct IH as [Hs | (a & b & -> & Ha)].
    + left. apply not_elem_of_cons. split; [by apply not_eq_sym | done].
    + right. exists (c :: a), b. split; [done|].
      apply not_elem_of_cons. split; [by apply not_eq_sym | done].
Qed.

(** ** [normalizeHttpPath] *)

Lemma jsEqb_true (a b : jsString) : jsEqb a b = true ↔ a = b.
Proof. unfold jsEqb. apply bool_decide_eq_true. Qed.

Lemma jsEqb_false (a b : jsString) : jsEqb a b = false ↔ a ≠ b.
Proof. unfold jsEqb. apply bool_decide_eq_false. Qed.

Lemma jsEqb_refl (a : jsString) : jsEqb a a = true.
Proof. by apply jsEqb_true. Qed.

Lemma normalizeHttpPath_blank (v : jsString) :
  trim v = [] → normalizeHttpPath v = Throw (js "HTTP path cannot be empty").
Proof. intros Ht. unfold normalizeHttpPath. by rewrite Ht. Qed.

Lemma normalizeHttpPath_unfold (v : jsString) :
  trim v ≠ [] →
  ∃ w w', w = slash :: w'
    ∧ (w = trim v ∨ (w = slash :: trim v ∧ startsWith (js "/") (trim v) = false))
    ∧ normalizeHttpPath v = Return (stripOneSlash w).
Proof.
  intros Ht. unfold normalizeHttpPath.
  apply jsEqb_false in Ht as ->.
  destruct (startsWith (js "/") (trim v)) eqn:Hs.
  - apply startsWith_slash in Hs as [w' Hw]. exists (trim v), w'. auto.
  - exists (slash :: trim v), (trim v). auto.
Qed.

Lemma stripOneSlash_leading (w' : jsString) :
  startsWith (js "/") (stripOneSlash (slash :: w')) = true.
Proof.
  apply startsWith_slash. unfold stripOneSlash.
  destruct (snoc_cases w') as [-> | (x & c & ->)]; [by exists []|].
  change (slash :: x ++ [c]) with ((slash :: x) ++ [c]).
  destruct (_ && _); [rewrite sliceInit_snoc|]; eauto.
Qed.

Lemma stripOneSlash_length (w : jsString) : (length (stripOneSlash w) ≤ length w)%nat.
Proof.
  unfold stripOneSlash, sliceInit. destruct (_ && _); [|done].
  rewrite length_take. lia.
Qed.

(** A string that starts with a slash is a fixed point exactly when it is
    the root or ends in a code unit that is neither a slash nor white. *)
Lemma normalizeHttpPath_fixed (r' : jsString) :
  normalizeHttpPath (slash :: r') = Return (slash :: r')
  ↔ r' = [] ∨ ∃ x c, slash :: r' = x ++ [c] ∧ c ≠ slash ∧ isWhiteSpace c = false.
Proof.
  destruct (snoc_cases r') as [-> | (x & c & ->)].
  { split; [by left | reflexivity]. }
  assert (Hne : ∀ y : jsString, y ++ [c] ≠ []) by (intros [|??]; discriminate).
  assert (Hr : slash :: x ++ [c] = (slash :: x) ++ [c]) by reflexivity.
  assert (Hroot : (slash :: x) ++ [c] ≠ js "/").
  { intros Heq. apply (f_equal length) in Heq. rewrite length_app in Heq.
    simpl in Heq. lia. }
  destruct (isWhiteSpace c) eqn:Hc.
  - split.
    + intros Hn. exfalso.
      assert (Ht : trim (slash :: x ++ [c]) = trimEnd (slash :: x)).
      { unfold trim. rewrite trimStart_nonwhite by apply slash_not_white.
        rewrite Hr, trimEnd_snoc. by rewrite Hc. }
      destruct (trimEnd_cons_nonwhite slash x slash_not_white) as [s' Hs'].
      destruct (normalizeHttpPath_unfold (slash :: x ++ [c])) as (w & w' & Hw & Hor & Heq).
      { rewrite Ht, Hs'. discriminate. }
      rewrite Heq in Hn. injection Hn as Hn.
      assert (Hwt : w = trimEnd (slash :: x)).
      { destruct Hor as [Hor | [Hor Hs]]; [by rewrite Hor, Ht|].
        rewrite Ht, Hs' in Hs. discriminate. }
      pose proof (stripOneSlash_length w) as Hlen.
      pose proof (trimEnd_length (slash :: x)) as Hlen'.
      rewrite Hn, Hwt in Hlen. rewrite Hr, length_app in Hlen. simpl in *. lia.
    + intros [Heq | (y & d & Heq & _ & Hd)]; [by destruct x|].
      rewrite Hr in Heq. apply app_inj_tail in Heq as [_ <-]. congruence.
  - assert (Ht : trim (slash :: x ++ [c]) = (slash :: x) ++ [c]).
    { unfold trim. rewrite trimStart_nonwhite by apply slash_not_white.
      rewrite Hr, trimEnd_snoc. by rewrite Hc. }
    assert (Hn : normalizeHttpPath (slash :: x ++ [c])
                 = Return (stripOneSlash ((slash :: x) ++ [c]))).
    { unfold normalizeHttpPath. rewrite Ht.
      assert (jsEqb ((slash :: x) ++ [c]) [] = false) as -> by (by apply jsEqb_false).
      reflexivity. }
    rewrite Hn. unfold stripOneSlash.
    change (js "/") with [slash]. rewrite endsWith_snoc.
    assert (jsEqb ((slash :: x) ++ [c]) [slash] = false) as ->
      by (by apply jsEqb_false).
    destruct (N.eqb_spec slash c) as [<- | Hsc]; cbn [andb negb].
    + rewrite sliceInit_snoc. split.
      * intros Heq. injection Heq as Heq. apply (f_equal length) in Heq.
        rewrite length_app in Heq. simpl in Heq. lia.
      * intros [Heq | (y & d & Heq & Hd & _)]; [by destruct x|].
        change (slash :: x ++ [slash]) with ((slash :: x) ++ [slash]) in Heq.
        apply app_inj_tail in Heq as [_ <-]. congruence.
    + split; [|done]. intros _. right. exists (slash :: x), c. auto.
Qed.

(** Without two slashes at the end of the trimmed input, none is left. *)
Lemma normalizeHttpPath_trailing (v r : jsString) :
  normalizeHttpPath v = Return r →
  endsWith (js "//") (trim v) = false →
  r = js "/" ∨ endsWith (js "/") r = false.
Proof.
  intros Hn Htwo.
  destruct (decide (trim v = [])) as [Ht | Ht].
  { rewrite normalizeHttpPath_blank in Hn by done. discriminate. }
  destruct (normalizeHttpPath_unfold v Ht) as (w & w' & Hw & Hor & Heq).
  rewrite Heq in Hn. injection Hn as <-.
  unfold stripOneSlash. change (js "/") with [slash].
  destruct (snoc_cases w') as [-> | (x & c & ->)].
  { left. by subst w. }
  assert (Hwx : w = (slash :: x) ++ [c]) by (by subst w).
  rewrite Hwx, endsWith_snoc.
  assert (jsEqb ((slash :: x) ++ [c]) [slash] = false) as ->.
  { apply jsEqb_false. intros Hq. apply (f_equal length) in Hq.
    rewrite length_app in Hq. simpl in Hq. lia. }
  destruct (N.eqb_spec slash c) as [<- | Hsc]; cbn [andb negb].
  2: { right. rewrite <- (app_comm_cons x [c] slash).
       change (slash :: x ++ [c]) with ((slash :: x) ++ [c]).
       rewrite endsWith_snoc. by apply N.eqb_neq. }
  rewrite sliceInit_snoc.
  destruct (snoc_cases x) as [-> | (y & d & ->)]; [by left|].
  right. change (slash :: y ++ [d]) with ((slash :: y) ++ [d]).
  rewrite endsWith_snoc. apply N.eqb_neq. intros <-.
  assert (Htv : ∃ z, trim v = z ++ [slash; slash]).
  { destruct Hor as [Hor | [Hor _]].
    - exists (slash :: y). rewrite <- Hor, Hwx.
      simpl. by rewrite <- app_assoc.
    - exists y. rewrite Hwx in Hor. simpl in Hor. injection Hor as <-.
      by rewrite <- app_assoc. }
  destruct Htv as [z Hz]. rewrite Hz, endsWith_two_snoc in Htwo. discriminate.
Qed.

(** The server starts in the empty state, on a path that begins with a
    slash, or not at all. *)
Lemma startStreamableHttpServer_starts (path : jsString) (ttl : Z) :
  (trim path = [] ∧ startStreamableHttpServer path ttl
                    = Throw (js "HTTP path cannot be empty"))
  ∨ ∃ p, startStreamableHttpServer path ttl = Return (mkConfig p ttl, initialState)
         ∧ startsWith (js "/") p = true.
Proof.
  unfold startStreamableHttpServer.
  destruct (decide (trim path = [])) as [Ht | Ht].
  - left. by rewrite normalizeHttpPath_blank.
  - right. destruct (normalizeHttpPath_unfold path Ht) as (w & w' & -> & _ & ->).
    eexists. split; [done|]. apply stripOneSlash_leading.
Qed.

(** C9 (amended).  For every input whose trimmed form is not empty,
    [normalizeHttpPath] returns a string that starts with a slash; when the
    trimmed input does not end in two slashes, the result does not end with a
    slash unless it is the root; and when the result is the root or ends in
    a code unit that is neither a slash nor white space, normalising it
    again gives it back. *)
Theorem normalizeHttpPath_normal_form (value : jsString) :
  trim value ≠ [] →
  ∃ r, normalizeHttpPath value = Return r
     ∧ startsWith (js "/") r = true
     ∧ (endsWith (js "//") (trim value) = false →
          r = js "/" ∨ endsWith (js "/") r = false)
     ∧ (r = js "/" ∨ (∃ x c, r = x ++ [c] ∧ c ≠ slash ∧ isWhiteSpace c = false) →
        normalizeHttpPath r = Return r).
Proof.
  intros Ht.
  destruct (normalizeHttpPath_unfold value Ht) as (w & w' & Hw & Hor & Heq).
  exists (stripOneSlash w). split; [done|].
  assert (Hlead : startsWith (js "/") (stripOneSlash w) = true)
    by (subst w; apply stripOneSlash_leading).
  split; [done|]. split.
  - intros Htwo. by apply (normalizeHttpPath_trailing value).
  - apply startsWith_slash in Hlead as [r' ->].
    rewrite normalizeHttpPath_fixed.
    intros [Hroot | Hx]; [left | by right].
    change (js "/") with [slash] in Hroot. by injection Hroot.
Qed.

Lemma normalizeHttpPath_normal_form_witness :
  trim (js " api/ ") ≠ []
  ∧ ∃ r, normalizeHttpPath (js " api/ ") = Return r
     ∧ startsWith (js "/") r = true
     ∧ (endsWith (js "//") (trim (js " api/ ")) = false →
          r = js "/" ∨ endsWith (js "/") r = false)
     ∧ (r = js "/" ∨ (∃ x c, r = x ++ [c] ∧ c ≠ slash ∧ isWhiteSpace c = false) →
        normalizeHttpPath r = Return r).
Proof.
  split; [vm_compute; discriminate|].
  apply (normalizeHttpPath_normal_form (js " api/ ")). vm_compute. discriminate.
Defined.

(** C9 as it is written fails on ["mcp//"]: the result ["/mcp/"] still ends
    with a slash, and normalising it again gives ["/mcp"]. *)
Lemma normalizeHttpPath_keeps_a_slash :
  ¬ (js "mcp//" ≠ [] →
     ∃ r, normalizeHttpPath (js "mcp//") = Return r
        ∧ startsWith (js "/") r = true
        ∧ (endsWith (js "/") r = true → r = js "/")
        ∧ normalizeHttpPath r = Return r).
Proof.
  intros Hclaim. destruct Hclaim as (r & Hr & _ & Hend & _); [discriminate|].
  vm_compute in Hr. injection Hr as <-.
  specialize (Hend eq_refl). vm_compute in Hend. discriminate.
Qed.

Example normalize_default : normalizeHttpPath (js "/mcp") = Return (js "/mcp").
Proof. reflexivity. Qed.
Example normalize_bare : normalizeHttpPath (js " api/ ") = Return (js "/api").
Proof. reflexivity. Qed.
Example normalize_root : normalizeHttpPath (js "/") = Return (js "/").
Proof. reflexivity. Qed.
Example normalize_blank :
  normalizeHttpPath (js "   ") = Throw (js "HTTP path cannot be empty").
Proof. reflexivity. Qed.
Example normalize_two_slashes : normalizeHttpPath (js "mcp//") = Return (js "/mcp/").
Proof. reflexivity. Qed.
Example normalize_again : normalizeHttpPath (js "/mcp/") = Return (js "/mcp").
Proof. reflexivity. Qed.
Example normalize_inner_space : normalizeHttpPath (js "a /") = Return (js "/a ").
Proof. reflexivity. Qed.

(** ** The request callback *)

Section RequestCallback.
Context {sdk : Sdk}.
Variable cfg : Config.

Lemma startsWith_app (p x : jsString) : startsWith p (p ++ x) = true.
Proof.
  induction p as [|a p IH]; [done|].
  cbn [app startsWith]. by rewrite N.eqb_refl, IH.
Qed.

Lemma startsWith_longer (p q : jsString) : q ≠ [] → startsWith (p ++ q) p = false.
Proof.
  intros Hq. induction p as [|a p IH].
  - destruct q; done.
  - cbn [app startsWith]. by rewrite IH, andb_false_r.
Qed.

Lemma protocol_path_not_download :
  startsWith (downloadPrefix cfg) (normalizedPath cfg) = false.
Proof. unfold downloadPrefix. by apply startsWith_longer. Qed.

(** On the protocol path the callback dispatches on the method alone. *)
Lemma requestListener_protocol_path (st : State) (req : Request) (env : Env) :
  req_url req = UrlPath (normalizedPath cfg) →
  requestListener cfg st req env =
    let method := methodOf req in
    if jsEqb method (js "POST") then handlePost st req env
    else if jsEqb method (js "GET") || jsEqb method (js "DELETE")
    then handleGetDelete method st req env
    else (st, Reply 405 None (Text (js "Method Not Allowed"))).
Proof.
  intros Hurl. unfold requestListener. rewrite Hurl.
  cbn [from_option]. by rewrite protocol_path_not_download, jsEqb_refl.
Qed.

(** C1.  A POST on the protocol path whose body is not empty and is not
    JSON is answered 400 with the envelope of code -32000 and message
    "Invalid JSON body", whatever the registry and the session header are:
    the answer is given before the session is looked up, and the state is
    left as it was. *)
Theorem malformed_json_rejected (st : State) (req : Request) (env : Env)
    (rawBody : jsString) :
  req_url req = UrlPath (normalizedPath cfg) →
  methodOf req = js "POST" →
  req_body req = BodyText rawBody →
  rawBody ≠ [] →
  JSON_parse rawBody = None →
  requestListener cfg st req env =
    (st, Reply 400 (Some (js "application/json"))
           (JsonRpcError (-32000) (js "Invalid JSON body"))).
Proof.
  intros Hurl Hmethod Hbody Hne Hparse.
  rewrite requestListener_protocol_path by done.
  cbv zeta. rewrite Hmethod, jsEqb_refl.
  unfold handlePost, parseBody. rewrite Hbody, Hparse.
  by apply jsEqb_false in Hne as ->.
Qed.

(** X22.  A POST on the protocol path for which [getSession()] is
    [undefined] (the header is absent, is empty, or names neither an entry
    of the registry nor an inherited property), and whose parsed body is
    absent or is not an initialize request, is answered 400 with the
    envelope and the message "Bad Request: No valid session ID provided";
    the state, and so the registry, is unchanged. *)
Theorem post_without_session_rejected (st : State) (req : Request) (env : Env)
    (rawBody : jsString) (parsedBody : option Json) :
  req_url req = UrlPath (normalizedPath cfg) →
  methodOf req = js "POST" →
  req_body req = BodyText rawBody →
  parseBody rawBody = Some parsedBody →
  getSession st req = Undefined →
  (parsedBody = None
   ∨ ∃ j, parsedBody = Some j ∧ (truthy j = false ∨ isInitializeRequest j = false)) →
  requestListener cfg st req env =
    (st, Reply 400 (Some (js "application/json"))
           (JsonRpcError (-32000) (js "Bad Request: No valid session ID provided"))).
Proof.
  intros Hurl Hmethod Hbody Hparse Hsession Hnot.
  rewrite requestListener_protocol_path by done.
  cbv zeta. rewrite Hmethod, jsEqb_refl.
  unfold handlePost. rewrite Hbody, Hparse, Hsession.
  assert (notInitialize parsedBody = true) as ->; [|done].
  destruct Hnot as [-> | (j & -> & [Hj | Hj])]; cbn [notInitialize];
    rewrite ?Hj; [done | done | apply orb_true_r].
Qed.

(** A request under the download prefix goes to the download branch,
    whatever its method, headers and body are. *)
Lemma requestListener_download (st : State) (req : Request) (env : Env)
    (pathname : jsString) :
  req_url req = UrlPath pathname →
  startsWith (downloadPrefix cfg) pathname = true →
  requestListener cfg st req env = (st, serveDownload cfg st pathname env).
Proof.
  intros Hurl Hprefix. unfold requestListener. rewrite Hurl.
  cbn [from_option default]. by rewrite Hprefix.
Qed.

Lemma serveDownload_short (st : State) (env : Env) (pathname : jsString) :
  (length (downloadParts cfg pathname) < 2)%nat →
  serveDownload cfg st pathname env = Reply 400 None (Text (js "Invalid download path")).
Proof.
  intros Hlen. unfold serveDownload.
  by apply Nat.ltb_lt in Hlen as ->.
Qed.

(** *** [sessions[key]] *)

Lemma lookupSession_Own (st : State) (key : jsString) (session : Session) :
  lookupSession st key = Own session ↔ sessions st !! key = Some session.
Proof.
  unfold lookupSession. destruct (sessions st !! key) as [s|].
  - split; by intros [= ->].
  - by case_bool_decide.
Qed.

Lemma lookupSession_Undefined (st : State) (key : jsString) :
  lookupSession st key = Undefined
  ↔ sessions st !! key = None ∧ key ∉ objectPrototypeNames.
Proof.
  unfold lookupSession. destruct (sessions st !! key) as [s|].
  - split; [done | by intros [? _]].
  - case_bool_decide; split; try done. by intros [_ ?].
Qed.

Lemma lookupSession_not_Own (st : State) (key : jsString) :
  sessions st !! key = None →
  lookupSession st key = Inherited ∨ lookupSession st key = Undefined.
Proof.
  intros Hnone. unfold lookupSession. rewrite Hnone. case_bool_decide; auto.
Qed.

(** With two segments or more, the answer is read off the first two. *)
Lemma serveDownload_parts (st : State) (env : Env) (pathname : jsString)
    (sessionId resourceId : jsString) (rest : list jsString) :
  downloadParts cfg pathname = sessionId :: resourceId :: rest →
  serveDownload cfg st pathname env =
    match lookupSession st sessionId with
    | Own session =>
        match getFileResourceById (resourceManagerOf cfg) st (server session)
                resourceId (now env) with
        | None => Reply 404 None (Text (js "Not Found"))
        | Some fileResource => sendFile fileResource env
        end
    | _ => Reply 404 None (Text (js "Not Found"))
    end.
Proof.
  intros Hparts. unfold serveDownload. rewrite Hparts. cbn [length Nat.ltb Nat.leb nth].
  by destruct (lookupSession st sessionId).
Qed.

Lemma serveDownload_unknown (st : State) (env : Env) (pathname : jsString)
    (sessionId resourceId : jsString) (rest : list jsString) :
  downloadParts cfg pathname = sessionId :: resourceId :: rest →
  sessions st !! sessionId = None →
  serveDownload cfg st pathname env = Reply 404 None (Text (js "Not Found")).
Proof.
  intros Hparts Hnone. rewrite (serveDownload_parts _ _ _ _ _ _ Hparts).
  by destruct (lookupSession_not_Own st sessionId Hnone) as [-> | ->].
Qed.

Lemma serveDownload_known (st : State) (env : Env) (pathname : jsString)
    (sessionId resourceId : jsString) (rest : list jsString) (session : Session) :
  downloadParts cfg pathname = sessionId :: resourceId :: rest →
  sessions st !! sessionId = Some session →
  serveDownload cfg st pathname env =
    match getFileResourceById (resourceManagerOf cfg) st (server session)
            resourceId (now env) with
    | None => Reply 404 None (Text (js "Not Found"))
    | Some fileResource => sendFile fileResource env
    end.
Proof.
  intros Hparts Hsome. rewrite (serveDownload_parts _ _ _ _ _ _ Hparts).
  by apply lookupSession_Own in Hsome as ->.
Qed.

Lemma downloadParts_cases (pathname : jsString) :
  (length (downloadParts cfg pathname) < 2)%nat
  ∨ ∃ sessionId resourceId rest,
      downloadParts cfg pathname = sessionId :: resourceId :: rest.
Proof.
  destruct (downloadParts cfg pathname) as [|a [|b rest]]; simpl;
    [left; lia | left; lia | right; eauto].
Qed.

(** The segments of a path under the prefix are those of what follows the
    prefix. *)
Lemma downloadParts_prefix (remainder : jsString) :
  downloadParts cfg (downloadPrefix cfg ++ remainder) = split slash remainder.
Proof. unfold downloadParts, sliceFrom. by rewrite drop_app_length. Qed.

Lemma downloadParts_one (remainder : jsString) :
  slash ∉ remainder →
  downloadParts cfg (downloadPrefix cfg ++ remainder) = [remainder].
Proof. intros Hr. by rewrite downloadParts_prefix, split_no_separator. Qed.

Lemma downloadParts_two (sessionId resourceId tail : jsString) :
  slash ∉ sessionId → slash ∉ resourceId →
  tail = [] ∨ (∃ filename, tail = slash :: filename) →
  ∃ rest, downloadParts cfg (downloadPrefix cfg ++ sessionId ++ slash :: resourceId ++ tail)
          = sessionId :: resourceId :: rest.
Proof.
  intros Hs Hr Htail. rewrite downloadParts_prefix, split_app by done.
  destruct Htail as [-> | [filename ->]].
  - exists []. by rewrite app_nil_r, split_no_separator.
  - exists (split slash filename). by rewrite split_app.
Qed.

(** The lookup of the resource manager fails on an unknown id, on another
    owner's id, and from the expiry deadline on. *)
Lemma getFileResourceById_absent (st : State) (o : ServerRef) (id : jsString) (t : Z) :
  resources st !! id = None
  ∨ (∃ r, resources st !! id = Some r ∧ (owner r ≠ o ∨ (expiresAt r ≤ t)%Z)) →
  getFileResourceById (resourceManagerOf cfg) st o id t = None.
Proof.
  unfold getFileResourceById. cbn [resourceManagerOf enabled].
  intros [-> | (r & -> & [Ho | Ht])]; [done | |].
  - by rewrite bool_decide_eq_false_2.
  - assert ((t <? expiresAt r)%Z = false) as -> by (apply Z.ltb_ge; lia).
    by rewrite andb_false_r.
Qed.

Lemma getFileResourceById_registered (st : State) (o : ServerRef) (id fp : jsString)
    (mime : option jsString) (nm : jsString) (t0 t : Z) :
  getFileResourceById (resourceManagerOf cfg)
    (registerResource (resourceManagerOf cfg) o id fp mime nm t0 st) o id t
  = if (t <? t0 + resourceTtlSeconds cfg)%Z
    then Some (mkFileResource o fp mime nm (t0 + resourceTtlSeconds cfg))
    else None.
Proof.
  unfold getFileResourceById, registerResource.
  cbn [resourceManagerOf enabled ttlSeconds setResources resources].
  rewrite lookup_insert_eq. cbn [owner expiresAt].
  by rewrite bool_decide_eq_true_2.
Qed.

Lemma downloadPath_under_prefix (sessionId id filename : jsString) :
  startsWith (downloadPrefix cfg) (downloadPath cfg sessionId id filename) = true.
Proof. unfold downloadPath. apply startsWith_app. Qed.

(** The parts of a path made by [buildResourceUri]: the filename comes
    after the two segments that are looked up. *)
Lemma downloadParts_downloadPath (sessionId id filename : jsString) :
  slash ∉ sessionId → slash ∉ id →
  downloadParts cfg (downloadPath cfg sessionId id filename)
  = sessionId :: id :: split slash filename.
Proof.
  intros Hs Hi. unfold downloadPath. rewrite downloadParts_prefix.
  change (js "/") with [slash].
  change (sessionId ++ [slash] ++ id ++ [slash] ++ filename)
    with (sessionId ++ slash :: (id ++ slash :: filename)).
  by rewrite !split_app.
Qed.

(** The filename of a download path has no part in the answer. *)
Lemma download_filename_cosmetic (st : State) (env : Env)
    (sessionId id filename filename' : jsString) :
  slash ∉ sessionId → slash ∉ id →
  serveDownload cfg st (downloadPath cfg sessionId id filename) env
  = serveDownload cfg st (downloadPath cfg sessionId id filename') env.
Proof.
  intros Hs Hi.
  rewrite (serveDownload_parts st env _ sessionId id (split slash filename))
    by (by apply downloadParts_downloadPath).
  by rewrite (serveDownload_parts st env _ sessionId id (split slash filename'))
    by (by apply downloadParts_downloadPath).
Qed.

Lemma sendFile_status (fileResource : FileResource) (env : Env) :
  ∃ status contentType body,
    sendFile fileResource env = Reply status contentType body
    ∧ (status = 200 ∨ status = 500)%Z
    ∧ ∀ code message, body ≠ JsonRpcError code message.
Proof.
  unfold sendFile. destruct (statSize env) as [size|];
    [destruct (validDownloadHeaders fileResource)|];
    eexists _, _, _; (split; [done|]); auto.
Qed.

Lemma serveDownload_status (st : State) (env : Env) (pathname : jsString) :
  ∃ status contentType body,
    serveDownload cfg st pathname env = Reply status contentType body
    ∧ (status = 400 ∨ status = 404 ∨ status = 200 ∨ status = 500)%Z
    ∧ ∀ code message, body ≠ JsonRpcError code message.
Proof.
  destruct (downloadParts_cases pathname) as [Hlen | (a & b & rest & Hparts)].
  - rewrite serveDownload_short by done. eexists _, _, _. split; [done|]. auto.
  - rewrite (serveDownload_parts _ _ _ _ _ _ Hparts).
    destruct (lookupSession st a) as [session| |];
      [|eexists _, _, _; split; [done|]; auto..].
    destruct (getFileResourceById _ _ _ _ _) as [r|];
      [|eexists _, _, _; split; [done|]; auto].
    destruct (sendFile_status r env) as (status & ct & body & -> & [-> | ->] & Hbody);
      eexists _, _, _; (split; [done|]); auto.
Qed.

(** C10.  A request whose path is under the download prefix is answered by
    the download branch alone, for every method: the state is untouched,
    the answer does not depend on the method, the session header or the
    body, it is never 405 and never the JSON-RPC envelope, and with an
    unknown session id in the path it is 404. *)
Theorem download_prefix_any_method (st : State) (req : Request) (env : Env)
    (pathname : jsString) :
  req_url req = UrlPath pathname →
  startsWith (downloadPrefix cfg) pathname = true →
  requestListener cfg st req env = (st, serveDownload cfg st pathname env)
  ∧ (∀ method header body,
       requestListener cfg st (mkRequest (UrlPath pathname) method header body) env
       = requestListener cfg st req env)
  ∧ (∃ status contentType body,
       (requestListener cfg st req env).2 = Reply status contentType body
       ∧ status ≠ 405%Z
       ∧ ∀ code message, body ≠ JsonRpcError code message)
  ∧ (∀ sessionId resourceId rest,
       downloadParts cfg pathname = sessionId :: resourceId :: rest →
       sessions st !! sessionId = None →
       (requestListener cfg st req env).2 = Reply 404 None (Text (js "Not Found"))).
Proof.
  intros Hurl Hprefix.
  rewrite (requestListener_download st req env pathname) by done.
  split; [done|]. split; [|split].
  - intros method header body. by apply requestListener_download.
  - destruct (serveDownload_status st env pathname)
      as (status & ct & body & Heq & Hstatus & Hbody).
    exists status, ct, body. split; [done|]. split; [lia | done].
  - intros sessionId resourceId rest Hparts Hnone. cbn [snd].
    by apply (serveDownload_unknown _ _ _ sessionId resourceId rest).
Qed.

(** C3.  For a path made of the download prefix and a remainder: a
    remainder without a slash, which splits into fewer than two segments,
    gives 400; every other remainder is a session id, a slash, a resource
    id and a tail that is empty or begins with a slash, and then the answer
    does not depend on the tail; a session id that names no entry gives
    404; a resource id that is unknown, owned by another server or at its
    expiry deadline gives 404.  A resource registered for the session's
    server is answered 404 once the TTL has elapsed, and is served before
    that when [stat] succeeds and the headers are valid. *)
Theorem download_responder_steps (st : State) (req : Request) (env : Env)
    (remainder : jsString) :
  req_url req = UrlPath (downloadPrefix cfg ++ remainder) →
  (slash ∉ remainder
   ∨ ∃ sessionId resourceId tail,
       remainder = sessionId ++ slash :: resourceId ++ tail
       ∧ (slash ∉ sessionId) ∧ (slash ∉ resourceId)
       ∧ (tail = [] ∨ ∃ filename, tail = slash :: filename))
  ∧ (slash ∉ remainder →
       requestListener cfg st req env
       = (st, Reply 400 None (Text (js "Invalid download path"))))
  ∧ ∀ sessionId resourceId tail,
      remainder = sessionId ++ slash :: resourceId ++ tail →
      slash ∉ sessionId → slash ∉ resourceId →
      tail = [] ∨ (∃ filename, tail = slash :: filename) →
      (∀ req' tail',
         tail' = [] ∨ (∃ filename, tail' = slash :: filename) →
         req_url req'
         = UrlPath (downloadPrefix cfg ++ sessionId ++ slash :: resourceId ++ tail') →
         requestListener cfg st req' env = requestListener cfg st req env)
      ∧ (sessions st !! sessionId = None →
           requestListener cfg st req env = (st, Reply 404 None (Text (js "Not Found"))))
      ∧ (∀ session, sessions st !! sessionId = Some session →
           (resources st !! resourceId = None
            ∨ ∃ r, resources st !! resourceId = Some r
                   ∧ (owner r ≠ server session ∨ (expiresAt r ≤ now env)%Z)) →
           requestListener cfg st req env = (st, Reply 404 None (Text (js "Not Found"))))
      ∧ (∀ session fp mime nm t0,
           sessions st !! sessionId = Some session →
           let st' := registerResource (resourceManagerOf cfg) (server session)
                        resourceId fp mime nm t0 st in
           let r := mkFileResource (server session) fp mime nm
                      (t0 + resourceTtlSeconds cfg) in
           ((t0 + resourceTtlSeconds cfg ≤ now env)%Z →
              (requestListener cfg st' req env).2
              = Reply 404 None (Text (js "Not Found")))
           ∧ ((now env < t0 + resourceTtlSeconds cfg)%Z →
              ∀ size, statSize env = Some size → validDownloadHeaders r = true →
              (requestListener cfg st' req env).2
              = Reply 200 (Some (default (js "application/octet-stream") mime))
                  (FileStream r size))).
Proof.
  intros Hurl.
  assert (Hprefix : startsWith (downloadPrefix cfg) (downloadPrefix cfg ++ remainder) = true)
    by apply startsWith_app.
  split; [|split].
  - destruct (split_first slash remainder) as [Hr | (a & b & -> & Ha)]; [by left|].
    right. destruct (split_first slash b) as [Hb | (c & d & -> & Hc)].
    + exists a, b, []. rewrite app_nil_r. auto.
    + exists a, c, (slash :: d). repeat split; [done.. | right; by exists d].
  - intros Hr. rewrite (requestListener_download st req env _ Hurl Hprefix).
    rewrite serveDownload_short; [done|]. rewrite downloadParts_one by done. simpl. lia.
  - intros sessionId resourceId tail -> Hs Hr Htail.
    destruct (downloadParts_two sessionId resourceId tail Hs Hr Htail) as [rest Hparts].
    rewrite (requestListener_download st req env _ Hurl Hprefix).
    split; [|split; [|split]].
    + intros req' tail' Htail' Hurl'.
      destruct (downloadParts_two sessionId resourceId tail' Hs Hr Htail')
        as [rest' Hparts'].
      rewrite (requestListener_download st req' env _ Hurl') by apply startsWith_app.
      by rewrite (serveDownload_parts _ _ _ _ _ _ Hparts),
        (serveDownload_parts _ _ _ _ _ _ Hparts').
    + intros Hnone. by rewrite (serveDownload_unknown _ _ _ _ _ _ Hparts Hnone).
    + intros session Hsession Habsent.
      rewrite (serveDownload_known _ _ _ _ _ _ _ Hparts Hsession).
      by rewrite getFileResourceById_absent.
    + intros session fp mime nm t0 Hsession st' r.
      assert (Hsessions : sessions st' !! sessionId = Some session).
      { unfold st', registerResource. by destruct (enabled _). }
      rewrite !(requestListener_download st' req env _ Hurl Hprefix). cbn [snd].
      rewrite !(serveDownload_known _ _ _ _ _ _ _ Hparts Hsessions).
      unfold st'. rewrite getFileResourceById_registered. split.
      * intros Hlate.
        by assert ((now env <? t0 + resourceTtlSeconds cfg)%Z = false) as ->
          by (apply Z.ltb_ge; lia).
      * intros Hearly size Hstat Hvalid.
        assert ((now env <? t0 + resourceTtlSeconds cfg)%Z = true) as ->
          by (apply Z.ltb_lt; lia).
        unfold sendFile. fold r. by rewrite Hstat, Hvalid.
Qed.

(** What the callback does with the session header on the protocol path
    when the header names no entry of the registry. *)
Lemma getSession_namesNoSession (st : State) (req : Request) :
  namesNoSession st req → noInheritedName req → getSession st req = Undefined.
Proof.
  unfold namesNoSession, noInheritedName, getSession.
  destruct (truthyString (req_sessionHeader req)) as [sessionId|] eqn:Hheader; [|done].
  intros Hnone Hplain. apply lookupSession_Undefined. split; [done|].
  apply Hplain. destruct (req_sessionHeader req) as [[|c s]|]; simpl in Hheader;
    congruence.
Qed.

(** C4 (amended).  Every client protocol error of a request whose target
    parses leaves the state as it was and is answered with a 4xx status;
    for a missing or unknown session the header is taken not to name an
    inherited property.  The body is the JSON-RPC envelope with code
    -32000 for the errors of a POST on the protocol path, and a plain text
    sent without a content type for all the others: a GET or DELETE
    without a session, a method that is not allowed, a path that is not
    served. *)
Theorem client_errors_are_4xx (st : State) (req : Request) (env : Env)
    (e : ClientError) :
  clientProtocolError cfg st req e →
  targetParses req →
  (e = UnknownSession → noInheritedName req) →
  ∃ status contentType body,
    requestListener cfg st req env = (st, Reply status contentType body)
    ∧ (400 ≤ status < 500)%Z
    ∧ match body with
      | JsonRpcError code _ =>
          code = (-32000)%Z ∧ contentType = Some (js "application/json")
          ∧ methodOf req = js "POST" ∧ req_url req = UrlPath (normalizedPath cfg)
      | Text _ =>
          contentType = None
          ∧ ¬ (methodOf req = js "POST" ∧ req_url req = UrlPath (normalizedPath cfg))
      | FileStream _ _ => False
      end.
Proof.
  intros Herr Htarget Hplain. destruct e; cbn [clientProtocolError] in Herr.
  - destruct Herr as (Hurl & Hm & rawBody & Hbody & Hparse).
    rewrite requestListener_protocol_path by done. cbv zeta.
    rewrite Hm, jsEqb_refl. unfold handlePost. rewrite Hbody, Hparse.
    eexists _, _, _. split; [reflexivity|]. split; [lia | done].
  - destruct Herr as (Hurl & Hnone & Hm).
    apply getSession_namesNoSession in Hnone as Hsession; [|by apply Hplain].
    rewrite requestListener_protocol_path by done. cbv zeta.
    destruct Hm as [Hm | [Hm | (Hm & rawBody & parsedBody & Hbody & Hparse & Hnot)]].
    + rewrite Hm. cbn [jsEqb]. unfold handleGetDelete. rewrite Hsession.
      eexists _, _, _. split; [by vm_compute (jsEqb _ _)|]. split; [lia|].
      split; [done|]. intros [Hp _]. by rewrite Hp in Hm.
    + rewrite Hm. unfold handleGetDelete. rewrite Hsession.
      eexists _, _, _. split; [by vm_compute (jsEqb _ _)|]. split; [lia|].
      split; [done|]. intros [Hp _]. by rewrite Hp in Hm.
    + rewrite Hm, jsEqb_refl. unfold handlePost.
      rewrite Hbody, Hparse, Hsession, Hnot.
      eexists _, _, _. split; [reflexivity|]. split; [lia | done].
  - destruct Herr as (Hurl & Hpost & Hget & Hdelete).
    rewrite requestListener_protocol_path by done. cbv zeta.
    apply jsEqb_false in Hpost as Hp, Hget as Hg, Hdelete as Hd. rewrite Hp, Hg, Hd.
    eexists _, _, _. split; [reflexivity|]. split; [lia|].
    split; [done|]. by intros [? _].
  - destruct Herr as [Habsent | [Hinvalid | (p & Hurl & Hne & Hbad)]]; [|done|].
    + unfold requestListener. rewrite Habsent. cbn [from_option negb].
      eexists _, _, _. split; [reflexivity|]. split; [lia|].
      split; [done|]. intros [_ Hu]. congruence.
    + assert (Hnot : ¬ (methodOf req = js "POST"
                        ∧ req_url req = UrlPath (normalizedPath cfg))).
      { intros [_ Hu]. congruence. }
      destruct Hbad as [Hnp | (Hprefix & [Hlen | Hnone])].
      * rewrite Hurl in Hnot.
        unfold requestListener. rewrite Hurl. cbn [from_option]. rewrite Hnp.
        apply jsEqb_false in Hne as ->. cbn [negb].
        eexists _, _, _. split; [reflexivity|]. split; [lia | by split].
      * rewrite (requestListener_download st req env p) by done.
        rewrite serveDownload_short by done.
        eexists _, _, _. split; [reflexivity|]. split; [lia | by split].
      * rewrite (requestListener_download st req env p) by done.
        destruct (downloadParts_cases p) as [Hlen | (a & b & rest & Hparts)].
        -- rewrite serveDownload_short by done.
           eexists _, _, _. split; [reflexivity|]. split; [lia | by split].
        -- rewrite Hparts in Hnone. cbn [nth] in Hnone.
           rewrite (serveDownload_unknown _ _ _ _ _ _ Hparts Hnone).
           eexists _, _, _. split; [reflexivity|]. split; [lia | by split].
Qed.

End RequestCallback.

(** ** The session registry *)

Section Registry.
Context {sdk : Sdk}.
Variable cfg : Config.

Lemma truthyString_Some (o : option jsString) (s : jsString) :
  truthyString o = Some s ↔ o = Some s ∧ s ≠ [].
Proof.
  destruct o as [[|c t]|]; simpl; split; try done.
  - by intros [[= <-] ?].
  - by intros [= <-].
  - by intros [[= <-] _].
  - by intros [? _].
Qed.

Lemma getSession_Some (st : State) (req : Request) (session : Session) :
  getSession st req = Own session
  ↔ ∃ sessionId, req_sessionHeader req = Some sessionId ∧ sessionId ≠ []
                 ∧ sessions st !! sessionId = Some session.
Proof.
  unfold getSession. split.
  - destruct (truthyString _) as [sessionId|] eqn:Ht; [|done].
    apply truthyString_Some in Ht as [? ?]. intros Hs%lookupSession_Own. eauto.
  - intros (sessionId & Hh & Hne & Hs).
    rewrite (proj2 (truthyString_Some _ sessionId)) by done.
    by apply lookupSession_Own.
Qed.

(** *** What [onclose] changes *)

Ltac onclose_cases :=
  unfold onclose;
  destruct (truthyString _) as [?sessionId|];
  [destruct (sessions _ !! _) eqn:?|]; try reflexivity.

Lemma onclose_sessions (n : nat) (st : State) :
  sessions (onclose n st) =
    match truthyString (transportSessionId st !! n) with
    | Some sessionId => delete sessionId (sessions st)
    | None => sessions st
    end.
Proof. onclose_cases. simpl. by rewrite delete_id. Qed.

Lemma onclose_transportSessionId (n : nat) (st : State) :
  transportSessionId (onclose n st) = transportSessionId st.
Proof. onclose_cases. Qed.

Lemma onclose_nextInstance (n : nat) (st : State) :
  nextInstance (onclose n st) = nextInstance st.
Proof. onclose_cases. Qed.

Lemma onclose_resources (n : nat) (st : State) :
  resources (onclose n st)
  = filter (λ kv : jsString * FileResource, owner kv.2 ≠ n) (resources st).
Proof. onclose_cases. Qed.

Lemma onclose_sessionByServer (n : nat) (st : State) :
  sessionByServer (onclose n st) = delete n (sessionByServer st).
Proof. onclose_cases. Qed.

Lemma onclose_closeCalls (n : nat) (st : State) :
  closeCalls (onclose n st) = closeCalls st ++ [n].
Proof. onclose_cases. Qed.

Lemma onclose_flags (n : nat) (st : State) :
  isShuttingDown (onclose n st) = isShuttingDown st
  ∧ exited (onclose n st) = exited st
  ∧ drainErrors (onclose n st) = drainErrors st.
Proof. onclose_cases; done. Qed.

(** *** The invariant *)

Lemma wellFormed_initial : wellFormed initialState.
Proof. split; intros ??; simpl; by rewrite lookup_empty. Qed.

(** Removing entries, or creating pairs, keeps the registry well formed. *)
Lemma wellFormed_shrink (st st' : State) :
  wellFormed st →
  (∀ k s, sessions st' !! k = Some s → sessions st !! k = Some s) →
  transportSessionId st' = transportSessionId st →
  (nextInstance st ≤ nextInstance st')%nat →
  wellFormed st'.
Proof.
  intros [HA HB] Hsub Ht Hn. split.
  - intros k s Hk. rewrite Ht. by apply HA, Hsub.
  - intros n k Hk. rewrite Ht in Hk. apply HB in Hk. lia.
Qed.

Lemma lookup_delete_Some_weak (m : gmap jsString Session) (i k : jsString) (s : Session) :
  delete i m !! k = Some s → m !! k = Some s.
Proof. rewrite lookup_delete_Some. by intros [_ ?]. Qed.

Lemma wellFormed_onclose (n : nat) (st : State) :
  wellFormed st → wellFormed (onclose n st).
Proof.
  intros Hwf. apply (wellFormed_shrink st); [done | | |].
  - intros k s. rewrite onclose_sessions.
    destruct (truthyString _); [apply lookup_delete_Some_weak | done].
  - apply onclose_transportSessionId.
  - by rewrite onclose_nextInstance.
Qed.

Lemma wellFormed_onsessioninitialized (n : nat) (sessionId : jsString) (st : State) :
  wellFormed st →
  transportSessionId st !! n = None →
  (n < nextInstance st)%nat →
  wellFormed (onsessioninitialized n sessionId st).
Proof.
  intros [HA HB] Hfresh Hn. split; simpl.
  - intros k s. destruct (decide (sessionId = k)) as [<- | Hne].
    + rewrite lookup_insert_eq. intros [= <-]. simpl.
      by rewrite lookup_insert_eq.
    + rewrite lookup_insert_ne by done. intros Hk.
      destruct (HA k s Hk) as [Hts Hid]. split; [done|].
      rewrite lookup_insert_ne; [done|]. intros Heq. rewrite Heq in Hfresh. congruence.
  - intros m k. destruct (decide (n = m)) as [<- | Hne].
    + done.
    + rewrite lookup_insert_ne by done. apply HB.
Qed.

Lemma transportHandleRequest_nextInstance (n : nat) (fw : Forward) (st : State) :
  nextInstance (transportHandleRequest n fw st) = nextInstance st.
Proof.
  unfold transportHandleRequest.
  destruct (fw_initialized fw), (transportSessionId st !! n), (fw_closed fw);
    by rewrite ?onclose_nextInstance.
Qed.

Lemma wellFormed_transportHandleRequest (n : nat) (fw : Forward) (st : State) :
  wellFormed st → (n < nextInstance st)%nat →
  wellFormed (transportHandleRequest n fw st).
Proof.
  intros Hwf Hn. unfold transportHandleRequest.
  assert (Hinit : wellFormed
    match fw_initialized fw, transportSessionId st !! n with
    | Some sessionId, None => onsessioninitialized n sessionId st
    | _, _ => st
    end).
  { destruct (fw_initialized fw) as [sessionId|]; [|done].
    destruct (transportSessionId st !! n) eqn:Hfresh; [done|].
    by apply wellFormed_onsessioninitialized. }
  destruct (fw_closed fw); [by apply wellFormed_onclose | done].
Qed.

Lemma wellFormed_allocateInstance (st : State) :
  wellFormed st → wellFormed (allocateInstance st).
Proof.
  intros Hwf. apply (wellFormed_shrink st); simpl; auto with lia.
Qed.

(** A transport that has just been created has no session id. *)
Lemma fresh_transport_has_no_id (st : State) :
  wellFormed st → transportSessionId st !! nextInstance st = None.
Proof.
  intros [_ HB]. destruct (transportSessionId st !! nextInstance st) eqn:Hk; [|done].
  apply HB in Hk. lia.
Qed.

Lemma wellFormed_handlePost (st : State) (req : Request) (env : Env) :
  wellFormed st → wellFormed (handlePost st req env).1.
Proof.
  intros Hwf. unfold handlePost.
  destruct (req_body req) as [|rawBody]; [done|].
  destruct (parseBody rawBody) as [parsedBody|]; [|done].
  destruct (getSession st req) as [session| |] eqn:Hsession.
  - apply getSession_Some in Hsession as (k & _ & _ & Hk).
    assert (Hlt : (transport session < nextInstance st)%nat).
    { destruct Hwf as [HA HB]. destruct (HA k session Hk) as [_ Hid]. by apply HB in Hid. }
    pose proof (wellFormed_transportHandleRequest (transport session) (forward env) st Hwf Hlt).
    by destruct (fw_thrown (forward env)).
  - done.
  - destruct (notInitialize parsedBody); [done|].
    cbn [allocateInstance transportSessionId].
    rewrite (fresh_transport_has_no_id st Hwf). cbn [truthyString].
    pose proof (wellFormed_allocateInstance st Hwf) as Hwf'.
    destruct (connectFails env); [done|].
    assert (wellFormed (transportHandleRequest (nextInstance st) (forward env)
                          (allocateInstance st))).
    { apply wellFormed_transportHandleRequest; [done | simpl; lia]. }
    by destruct (fw_thrown (forward env)).
Qed.

Lemma wellFormed_handleGetDelete (method : jsString) (st : State) (req : Request)
    (env : Env) :
  wellFormed st → wellFormed (handleGetDelete method st req env).1.
Proof.
  intros Hwf. unfold handleGetDelete.
  destruct (getSession st req) as [session| |] eqn:Hsession; [|done..].
  apply getSession_Some in Hsession as (k & _ & _ & Hk).
  assert (Hlt : (transport session < nextInstance st)%nat).
  { destruct Hwf as [HA HB]. destruct (HA k session Hk) as [_ Hid]. by apply HB in Hid. }
  pose proof (wellFormed_transportHandleRequest (transport session) (forward env) st Hwf Hlt)
    as Hwf1.
  destruct (fw_thrown (forward env)); [done|]. cbn [fst].
  destruct (jsEqb method (js "DELETE")); [|done].
  destruct (truthyString _) as [sessionId|]; [|done].
  apply (wellFormed_shrink (transportHandleRequest (transport session) (forward env) st));
    [done | | done | done].
  intros k' s'. simpl. apply lookup_delete_Some_weak.
Qed.

Lemma wellFormed_requestListener (st : State) (req : Request) (env : Env) :
  wellFormed st → wellFormed (requestListener cfg st req env).1.
Proof.
  intros Hwf. unfold requestListener.
  destruct (req_url req) as [| |p]; cbn [from_option]; try done.
  - destruct (startsWith _ p); [done|].
    destruct (negb _); [done|].
    destruct (jsEqb (methodOf req) (js "POST")); [by apply wellFormed_handlePost|].
    destruct (_ || _); [by apply wellFormed_handleGetDelete | done].
Qed.

(** *** The drain *)

Lemma drain_cons (closeFails : ServerRef → bool) (sessionId : jsString)
    (rest : list jsString) (st : State) (session : Session) :
  sessions st !! sessionId = Some session →
  drain closeFails (sessionId :: rest) st
  = drain closeFails rest (drainOne closeFails sessionId session st).
Proof. intros Hs. cbn [drain]. by rewrite Hs. Qed.

Lemma drainOne_sessions closeFails sessionId session st :
  sessions (drainOne closeFails sessionId session st) = delete sessionId (sessions st).
Proof. unfold drainOne. by destruct (closeFails _). Qed.

Lemma drainOne_closeCalls closeFails sessionId session st :
  closeCalls (drainOne closeFails sessionId session st)
  = closeCalls st ++ [server session].
Proof. unfold drainOne. by destruct (closeFails _). Qed.

Lemma drainOne_drainErrors closeFails sessionId session st :
  drainErrors (drainOne closeFails sessionId session st)
  = if closeFails (server session) then drainErrors st ++ [sessionId] else drainErrors st.
Proof. unfold drainOne. by destruct (closeFails _). Qed.

Lemma drainOne_frame closeFails sessionId session st :
  transportSessionId (drainOne closeFails sessionId session st) = transportSessionId st
  ∧ nextInstance (drainOne closeFails sessionId session st) = nextInstance st
  ∧ sessionByServer (drainOne closeFails sessionId session st) = sessionByServer st
  ∧ resources (drainOne closeFails sessionId session st) = resources st
  ∧ isShuttingDown (drainOne closeFails sessionId session st) = isShuttingDown st
  ∧ exited (drainOne closeFails sessionId session st) = exited st.
Proof. unfold drainOne. by destruct (closeFails _). Qed.

(** The loop removes exactly the ids it is given. *)
Lemma drain_sessions (closeFails : ServerRef → bool) (ids : list jsString) (st : State) :
  ∀ k, sessions (drain closeFails ids st) !! k
       = if decide (k ∈ ids) then None else sessions st !! k.
Proof.
  revert st. induction ids as [|i ids IH]; intros st k.
  - cbn [drain]. case_decide as Hk; [|done]. by apply elem_of_nil in Hk.
  - assert (Hstep : ∃ st1, drain closeFails (i :: ids) st = drain closeFails ids st1
                           ∧ sessions st1 = delete i (sessions st)).
    { cbn [drain]. destruct (sessions st !! i) as [s|].
      - eexists. split; [done|]. apply drainOne_sessions.
      - by eexists. }
    destruct Hstep as (st1 & -> & Hst1). rewrite IH, Hst1.
    destruct (decide (k = i)) as [-> | Hne].
    + rewrite lookup_delete_eq. rewrite (decide_True (P := i ∈ i :: ids)) by left.
      by case_decide.
    + rewrite lookup_delete_ne by done.
      destruct (decide (k ∈ ids)) as [Hk | Hk].
      * by rewrite decide_True by (by right).
      * rewrite decide_False; [done|]. rewrite elem_of_cons. by intros [? | ?].
Qed.

Lemma drain_frame (closeFails : ServerRef → bool) (ids : list jsString) (st : State) :
  transportSessionId (drain closeFails ids st) = transportSessionId st
  ∧ nextInstance (drain closeFails ids st) = nextInstance st
  ∧ sessionByServer (drain closeFails ids st) = sessionByServer st
  ∧ resources (drain closeFails ids st) = resources st
  ∧ isShuttingDown (drain closeFails ids st) = isShuttingDown st
  ∧ exited (drain closeFails ids st) = exited st.
Proof.
  revert st. induction ids as [|i ids IH]; intros st; [done|].
  cbn [drain]. destruct (sessions st !! i) as [s|] eqn:Hs.
  - destruct (IH (drainOne closeFails i s st)) as (-> & -> & -> & -> & -> & ->).
    apply drainOne_frame.
  - by destruct (IH (setSessions (delete i) (logDrainError i st)))
      as (-> & -> & -> & -> & -> & ->).
Qed.

(** Every session met by the loop has [close()] called on its server, and
    is logged when that call fails. *)
Lemma drain_closes (closeFails : ServerRef → bool) (ids : list jsString) (st : State) :
  NoDup ids →
  (∀ k, k ∈ ids → is_Some (sessions st !! k)) →
  (∀ n, n ∈ closeCalls st → n ∈ closeCalls (drain closeFails ids st))
  ∧ (∀ k, k ∈ drainErrors st → k ∈ drainErrors (drain closeFails ids st))
  ∧ ∀ k s, k ∈ ids → sessions st !! k = Some s →
      server s ∈ closeCalls (drain closeFails ids st)
      ∧ (closeFails (server s) = true → k ∈ drainErrors (drain closeFails ids st)).
Proof.
  revert st. induction ids as [|i ids IH]; intros st Hnd Hin.
  - split; [done|]. split; [done|]. intros k s Hk. by apply elem_of_nil in Hk.
  - apply NoDup_cons in Hnd as [Hi Hnd].
    destruct (Hin i) as [s Hs]; [by left|].
    rewrite (drain_cons _ _ _ _ s Hs).
    destruct (IH (drainOne closeFails i s st) Hnd) as (Hcalls & Herrs & Hall).
    { intros k Hk. rewrite drainOne_sessions, lookup_delete_ne.
      - apply Hin. by right.
      - intros <-. done. }
    split; [|split].
    + intros n Hn. apply Hcalls. rewrite drainOne_closeCalls.
      apply elem_of_app. by left.
    + intros k Hk. apply Herrs. rewrite drainOne_drainErrors.
      destruct (closeFails _); [apply elem_of_app; by left | done].
    + intros k s' Hk Hs'. apply elem_of_cons in Hk as [-> | Hk].
      * assert (s' = s) as -> by congruence. split.
        -- apply Hcalls. rewrite drainOne_closeCalls.
           apply elem_of_app. right. by left.
        -- intros Hfail. apply Herrs. rewrite drainOne_drainErrors, Hfail.
           apply elem_of_app. right. by left.
      * apply Hall; [done|]. rewrite drainOne_sessions, lookup_delete_ne; [done|].
        intros <-. done.
Qed.

Lemma keys_in_registry (st : State) (k : jsString) :
  k ∈ (map_to_list (sessions st)).*1 ↔ is_Some (sessions st !! k).
Proof.
  rewrite list_elem_of_fmap. split.
  - intros ([k' s] & -> & Hin). apply elem_of_map_to_list in Hin. by exists s.
  - intros [s Hs]. exists (k, s). split; [done|]. by apply elem_of_map_to_list.
Qed.

(** [close] empties the registry whatever fails. *)
Lemma close_sessions (closeFails : ServerRef → bool) (httpCloseFails : bool) (st : State) :
  sessions (close closeFails httpCloseFails st).1 = ∅.
Proof.
  unfold close. cbn [fst].
  apply map_empty. intros k. rewrite drain_sessions. case_decide as Hk; [done|].
  rewrite keys_in_registry in Hk. by apply eq_None_not_Some.
Qed.

Lemma close_state (closeFails : ServerRef → bool) (httpCloseFails : bool) (st : State) :
  (close closeFails httpCloseFails st).1
  = drain closeFails (map_to_list (sessions st)).*1 st.
Proof. done. Qed.

(** C8.  Once the shutdown handler has started, every further signal
    leaves the state as it is.  The first signal sets the flag, drains and
    exits: whatever [close()] calls fail, the registry ends up empty,
    [close()] has been called on the server of every session that was
    live, every failure has been logged, and a repeated signal changes
    nothing. *)
Theorem shutdown_drains_every_session (closeFails : ServerRef → bool)
    (httpCloseFails : bool) (st : State) :
  (isShuttingDown st = true → shutdown closeFails httpCloseFails st = st)
  ∧ (isShuttingDown st = false →
       isShuttingDown (shutdown closeFails httpCloseFails st) = true
       ∧ exited (shutdown closeFails httpCloseFails st) = true
       ∧ sessions (shutdown closeFails httpCloseFails st) = ∅
       ∧ (∀ k s, sessions st !! k = Some s →
            server s ∈ closeCalls (shutdown closeFails httpCloseFails st)
            ∧ (closeFails (server s) = true →
                 k ∈ drainErrors (shutdown closeFails httpCloseFails st)))
       ∧ ∀ closeFails' httpCloseFails',
           shutdown closeFails' httpCloseFails' (shutdown closeFails httpCloseFails st)
           = shutdown closeFails httpCloseFails st).
Proof.
  unfold shutdown. split; [by intros -> |]. intros ->.
  set (st0 := setShuttingDown st).
  assert (Hflag : isShuttingDown (close closeFails httpCloseFails st0).1 = true).
  { rewrite close_state.
    by destruct (drain_frame closeFails (map_to_list (sessions st0)).*1 st0)
      as (_ & _ & _ & _ & -> & _). }
  split; [done|]. split; [done|]. split; [|split].
  - cbn [processExit sessions]. apply close_sessions.
  - intros k s Hs. cbn [processExit closeCalls drainErrors].
    rewrite close_state.
    destruct (drain_closes closeFails (map_to_list (sessions st0)).*1 st0)
      as (_ & _ & Hall).
    { apply NoDup_fst_map_to_list. }
    { intros k'. by rewrite keys_in_registry. }
    apply Hall; [|done]. apply keys_in_registry. by exists s.
  - intros closeFails' httpCloseFails'. cbn [processExit isShuttingDown].
    by rewrite Hflag.
Qed.

(** *** Every reachable state is well formed *)

Lemma wellFormed_shutdown (closeFails : ServerRef → bool) (httpCloseFails : bool)
    (st : State) :
  wellFormed st → wellFormed (shutdown closeFails httpCloseFails st).
Proof.
  intros Hwf. unfold shutdown. destruct (isShuttingDown st); [done|].
  apply (wellFormed_shrink st); [done | | |].
  - intros k s. cbn [processExit sessions]. by rewrite close_sessions, lookup_empty.
  - cbn [processExit transportSessionId]. rewrite close_state.
    by destruct (drain_frame closeFails (map_to_list (sessions (setShuttingDown st))).*1
                   (setShuttingDown st)) as (-> & _).
  - cbn [processExit nextInstance]. rewrite close_state.
    by destruct (drain_frame closeFails (map_to_list (sessions (setShuttingDown st))).*1
                   (setShuttingDown st)) as (_ & -> & _).
Qed.

Lemma wellFormed_registerResource rm o id fp mime nm t (st : State) :
  wellFormed st → wellFormed (registerResource rm o id fp mime nm t st).
Proof. intros Hwf. unfold registerResource. by destruct (enabled rm). Qed.

Lemma wellFormed_step (st : State) (ev : Event) :
  wellFormed st → wellFormed (step cfg st ev).
Proof.
  intros Hwf. unfold step. destruct (exited st); [done|].
  destruct ev as [req env | n | o id fp mime nm t | closeFails httpCloseFails].
  - by apply wellFormed_requestListener.
  - destruct (n <? nextInstance st)%nat; [by apply wellFormed_onclose | done].
  - by apply wellFormed_registerResource.
  - by apply wellFormed_shutdown.
Qed.

Lemma wellFormed_run (evs : list Event) (st : State) :
  wellFormed st → wellFormed (run cfg st evs).
Proof.
  revert st. induction evs as [|ev evs IH]; intros st Hwf; [done|].
  apply IH. by apply wellFormed_step.
Qed.

Lemma reachable_wellFormed (st : State) : reachable cfg st → wellFormed st.
Proof. intros [evs ->]. apply wellFormed_run, wellFormed_initial. Qed.

(** Two entries of the registry never share a server. *)
Lemma wellFormed_servers_distinct (st : State) (a b : jsString) (sa sb : Session) :
  wellFormed st →
  sessions st !! a = Some sa → sessions st !! b = Some sb →
  a ≠ b → server sa ≠ server sb.
Proof.
  intros [HA _] Ha Hb Hne Heq.
  destruct (HA a sa Ha) as [Hta Hia], (HA b sb Hb) as [Htb Hib].
  rewrite Hta, Heq, <- Htb, Hib in Hia. congruence.
Qed.

(** *** Forwarding to a transport that has its id *)

Lemma transportHandleRequest_initialised (n : nat) (fw : Forward) (st : State)
    (sessionId : jsString) :
  transportSessionId st !! n = Some sessionId →
  transportHandleRequest n fw st = if fw_closed fw then onclose n st else st.
Proof.
  intros Hid. unfold transportHandleRequest. rewrite Hid.
  by destruct (fw_initialized fw).
Qed.

Lemma onclose_keeps_forgotten (n : nat) (st : State) (sessionId : jsString) :
  sessions st !! sessionId = None → sessions (onclose n st) !! sessionId = None.
Proof.
  intros Hnone. rewrite onclose_sessions. destruct (truthyString _) as [k|]; [|done].
  rewrite lookup_delete_None. by right.
Qed.

Lemma transportHandleRequest_keeps_forgotten (n : nat) (fw : Forward) (st : State)
    (sessionId : jsString) :
  sessions st !! sessionId = None →
  fw_initialized fw ≠ Some sessionId →
  sessions (transportHandleRequest n fw st) !! sessionId = None.
Proof.
  intros Hnone Hmint. unfold transportHandleRequest.
  assert (Hinit : sessions
    match fw_initialized fw, transportSessionId st !! n with
    | Some k, None => onsessioninitialized n k st
    | _, _ => st
    end !! sessionId = None).
  { destruct (fw_initialized fw) as [k|]; [|done].
    destruct (transportSessionId st !! n); [done|].
    simpl. rewrite lookup_insert_ne; [done|]. congruence. }
  destruct (fw_closed fw); [by apply onclose_keeps_forgotten | done].
Qed.

Lemma requestListener_keeps_forgotten (st : State) (req : Request) (env : Env)
    (sessionId : jsString) :
  wellFormed st →
  sessions st !! sessionId = None →
  fw_initialized (forward env) ≠ Some sessionId →
  sessions (requestListener cfg st req env).1 !! sessionId = None.
Proof.
  intros Hwf Hnone Hmint. unfold requestListener.
  destruct (req_url req) as [| |p]; cbn [from_option]; try done.
  destruct (startsWith _ p); [done|]. destruct (negb _); [done|].
  destruct (jsEqb (methodOf req) (js "POST")).
  - unfold handlePost.
    destruct (req_body req) as [|rawBody]; [done|].
    destruct (parseBody rawBody) as [parsedBody|]; [|done].
    destruct (getSession st req) as [session| |].
    + pose proof (transportHandleRequest_keeps_forgotten (transport session)
                    (forward env) st sessionId Hnone Hmint).
      by destruct (fw_thrown (forward env)).
    + done.
    + destruct (notInitialize parsedBody); [done|].
      cbn [allocateInstance transportSessionId].
      rewrite (fresh_transport_has_no_id st Hwf). cbn [truthyString].
      destruct (connectFails env); [done|].
      pose proof (transportHandleRequest_keeps_forgotten (nextInstance st)
                    (forward env) (allocateInstance st) sessionId Hnone Hmint).
      by destruct (fw_thrown (forward env)).
  - destruct (_ || _); [|done]. unfold handleGetDelete.
    destruct (getSession st req) as [session| |]; [|done..].
    pose proof (transportHandleRequest_keeps_forgotten (transport session)
                  (forward env) st sessionId Hnone Hmint) as Hfw.
    destruct (fw_thrown (forward env)); [done|]. cbn [fst].
    destruct (jsEqb _ _); [|done].
    destruct (truthyString _) as [k|]; [|done].
    simpl. rewrite lookup_delete_None. by right.
Qed.

Lemma step_keeps_forgotten (st : State) (ev : Event) (sessionId : jsString) :
  wellFormed st →
  sessions st !! sessionId = None →
  minted ev ≠ Some sessionId →
  sessions (step cfg st ev) !! sessionId = None.
Proof.
  intros Hwf Hnone Hmint. unfold step. destruct (exited st); [done|].
  destruct ev as [req env | n | o id fp mime nm t | closeFails httpCloseFails].
  - by apply requestListener_keeps_forgotten.
  - destruct (n <? nextInstance st)%nat; [by apply onclose_keeps_forgotten | done].
  - unfold registerResource. by destruct (enabled _).
  - unfold shutdown. destruct (isShuttingDown st); [done|].
    cbn [processExit sessions]. by rewrite close_sessions.
Qed.

Lemma run_keeps_forgotten (evs : list Event) (st : State) (sessionId : jsString) :
  wellFormed st →
  sessions st !! sessionId = None →
  Forall (λ ev, minted ev ≠ Some sessionId) evs →
  sessions (run cfg st evs) !! sessionId = None.
Proof.
  revert st. induction evs as [|ev evs IH]; intros st Hwf Hnone Hall; [done|].
  apply Forall_cons in Hall as [Hev Hall].
  apply IH; [by apply wellFormed_step | by apply step_keeps_forgotten | done].
Qed.

(** *** DELETE *)

Lemma delete_is_not_post_or_get :
  jsEqb (js "DELETE") (js "POST") = false ∧ jsEqb (js "DELETE") (js "GET") = false
  ∧ jsEqb (js "GET") (js "POST") = false.
Proof. by vm_compute. Qed.

(** What a DELETE that is forwarded without an exception does. *)
Lemma requestListener_delete (st : State) (req : Request) (env : Env)
    (session : Session) (sessionId : jsString) :
  wellFormed st →
  req_url req = UrlPath (normalizedPath cfg) →
  methodOf req = js "DELETE" →
  req_sessionHeader req = Some sessionId →
  getSession st req = Own session →
  fw_thrown (forward env) = None →
  requestListener cfg st req env =
    (setSessionByServer (delete (server session))
       (setSessions (delete sessionId)
          (clearResourcesForServer (server session)
             (if fw_closed (forward env) then onclose (transport session) st else st))),
     Forwarded (transport session) None).
Proof.
  intros Hwf Hurl Hm Hheader Hsession Hthrown.
  rewrite requestListener_protocol_path by done. cbv zeta. rewrite Hm.
  destruct delete_is_not_post_or_get as (-> & -> & _). rewrite jsEqb_refl.
  cbn [orb]. unfold handleGetDelete. rewrite Hsession, Hthrown, jsEqb_refl.
  apply getSession_Some in Hsession as (k & Hk & Hne & Hlook).
  assert (k = sessionId) as -> by congruence.
  destruct Hwf as [HA _]. destruct (HA sessionId session Hlook) as [_ Hid].
  rewrite (transportHandleRequest_initialised _ _ _ sessionId Hid).
  assert (Hid' : transportSessionId
            (if fw_closed (forward env) then onclose (transport session) st else st)
            !! transport session = Some sessionId).
  { destruct (fw_closed _); [by rewrite onclose_transportSessionId | done]. }
  rewrite Hid'. by rewrite (proj2 (truthyString_Some _ sessionId)).
Qed.

(** C2 (amended).  After a DELETE on the protocol path that carries a live
    session id and is forwarded without an exception, the id is out of the
    registry; it stays out through any later events as long as no
    transport mints the same id again, and every GET on the protocol path
    carrying it is answered 400 "Invalid or missing session ID".  The id
    is one that [randomUUID()] makes, not the name of a property inherited
    from [Object.prototype]. *)
Theorem deleted_session_is_forgotten (st : State) (reqD : Request) (envD : Env)
    (session : Session) (sessionId : jsString) (evs : list Event)
    (reqG : Request) (envG : Env) :
  reachable cfg st →
  req_url reqD = UrlPath (normalizedPath cfg) →
  methodOf reqD = js "DELETE" →
  req_sessionHeader reqD = Some sessionId →
  getSession st reqD = Own session →
  sessionId ∉ objectPrototypeNames →
  fw_thrown (forward envD) = None →
  Forall (λ ev, minted ev ≠ Some sessionId) evs →
  req_url reqG = UrlPath (normalizedPath cfg) →
  methodOf reqG = js "GET" →
  req_sessionHeader reqG = Some sessionId →
  sessions (run cfg (requestListener cfg st reqD envD).1 evs) !! sessionId = None
  ∧ requestListener cfg (run cfg (requestListener cfg st reqD envD).1 evs) reqG envG
    = (run cfg (requestListener cfg st reqD envD).1 evs,
       Reply 400 None (Text (js "Invalid or missing session ID"))).
Proof.
  intros Hreach HurlD HmD HheaderD Hsession Hplain Hthrown Hfresh HurlG HmG HheaderG.
  apply reachable_wellFormed in Hreach as Hwf.
  assert (Hgone : sessions (run cfg (requestListener cfg st reqD envD).1 evs)
                    !! sessionId = None).
  { apply run_keeps_forgotten; [by apply wellFormed_requestListener | | done].
    rewrite (requestListener_delete st reqD envD session sessionId) by done.
    simpl. apply lookup_delete_eq. }
  split; [done|].
  rewrite requestListener_protocol_path by done. cbv zeta. rewrite HmG.
  destruct delete_is_not_post_or_get as (_ & _ & ->). rewrite jsEqb_refl.
  cbn [orb]. unfold handleGetDelete, getSession. rewrite HheaderG.
  destruct (truthyString (Some sessionId)) as [k|] eqn:Hk; [|done].
  apply truthyString_Some in Hk as [[= <-] _].
  by rewrite (proj2 (lookupSession_Undefined _ sessionId)).
Qed.

(** *** Teardown *)

Lemma cleared_resources_not_owned (o : ServerRef) (st : State) (id : jsString)
    (r : FileResource) :
  resources (clearResourcesForServer o st) !! id = Some r → owner r ≠ o.
Proof. simpl. rewrite map_lookup_filter_Some. by intros [_ ?]. Qed.

(** The closure callback of pair [n] removes the session of transport [n],
    calls [close()] on server [n], drops the resources of server [n] and
    unbinds it. *)
Lemma onclose_tears_down (n : nat) (st : State) (sessionId : jsString) :
  transportSessionId st !! n = Some sessionId → sessionId ≠ [] →
  sessions (onclose n st) !! sessionId = None
  ∧ (∀ id r, resources (onclose n st) !! id = Some r → owner r ≠ n)
  ∧ sessionByServer (onclose n st) !! n = None
  ∧ n ∈ closeCalls (onclose n st).
Proof.
  intros Hid Hne. split; [|split; [|split]].
  - rewrite onclose_sessions, Hid, (proj2 (truthyString_Some _ sessionId)) by done.
    apply lookup_delete_eq.
  - intros id r. rewrite onclose_resources, map_lookup_filter_Some. by intros [_ ?].
  - rewrite onclose_sessionByServer. apply lookup_delete_eq.
  - rewrite onclose_closeCalls. apply elem_of_app. right. by left.
Qed.

(** Running the callback a second time changes nothing but the number of
    [close()] calls on the same server. *)
Lemma onclose_twice (n : nat) (st : State) :
  sessions (onclose n (onclose n st)) = sessions (onclose n st)
  ∧ resources (onclose n (onclose n st)) = resources (onclose n st)
  ∧ sessionByServer (onclose n (onclose n st)) = sessionByServer (onclose n st)
  ∧ transportSessionId (onclose n (onclose n st)) = transportSessionId (onclose n st)
  ∧ ∀ m, m ∈ closeCalls (onclose n (onclose n st)) ↔ m ∈ closeCalls (onclose n st).
Proof.
  split; [|split; [|split; [|split]]].
  - rewrite (onclose_sessions n (onclose n st)), onclose_transportSessionId.
    rewrite onclose_sessions. destruct (truthyString _) as [k|]; [|done].
    apply delete_delete_eq.
  - rewrite (onclose_resources n (onclose n st)).
    apply map_filter_id. intros id r. rewrite onclose_resources.
    rewrite map_lookup_filter_Some. by intros [_ ?].
  - rewrite (onclose_sessionByServer n (onclose n st)), onclose_sessionByServer.
    apply delete_delete_eq.
  - by rewrite onclose_transportSessionId.
  - intros m. rewrite (onclose_closeCalls n (onclose n st)), onclose_closeCalls.
    rewrite !elem_of_app, !list_elem_of_singleton. tauto.
Qed.

(** C7 (amended).  A DELETE on the protocol path that resolves to a live
    session and is forwarded without an exception clears the resources of
    the session's server, removes the session from the registry and
    unbinds the server; [close()] is called on the server only if the
    transport runs its closure callback.  That callback, for its part,
    removes the session, calls [close()] on the server, clears its
    resources and unbinds it, and running it again changes none of these;
    after the teardown of a DELETE it only adds the [close()] call. *)
Theorem delete_tears_down (st : State) (req : Request) (env : Env)
    (session : Session) (sessionId : jsString) :
  reachable cfg st →
  req_url req = UrlPath (normalizedPath cfg) →
  methodOf req = js "DELETE" →
  req_sessionHeader req = Some sessionId →
  getSession st req = Own session →
  fw_thrown (forward env) = None →
  (sessions (requestListener cfg st req env).1 !! sessionId = None
   ∧ (∀ id r, resources (requestListener cfg st req env).1 !! id = Some r →
        owner r ≠ server session)
   ∧ sessionByServer (requestListener cfg st req env).1 !! server session = None
   ∧ (server session ∈ closeCalls (requestListener cfg st req env).1
      ↔ server session ∈ closeCalls st ∨ fw_closed (forward env) = true))
  ∧ (sessions (onclose (transport session) st) !! sessionId = None
     ∧ (∀ id r, resources (onclose (transport session) st) !! id = Some r →
          owner r ≠ server session)
     ∧ sessionByServer (onclose (transport session) st) !! server session = None
     ∧ server session ∈ closeCalls (onclose (transport session) st))
  ∧ (sessions (onclose (transport session) (onclose (transport session) st))
     = sessions (onclose (transport session) st)
     ∧ resources (onclose (transport session) (onclose (transport session) st))
       = resources (onclose (transport session) st)
     ∧ sessionByServer (onclose (transport session) (onclose (transport session) st))
       = sessionByServer (onclose (transport session) st)
     ∧ ∀ m, m ∈ closeCalls (onclose (transport session) (onclose (transport session) st))
            ↔ m ∈ closeCalls (onclose (transport session) st))
  ∧ (sessions (onclose (transport session) (requestListener cfg st req env).1)
     = sessions (requestListener cfg st req env).1
     ∧ resources (onclose (transport session) (requestListener cfg st req env).1)
       = resources (requestListener cfg st req env).1
     ∧ sessionByServer (onclose (transport session) (requestListener cfg st req env).1)
       = sessionByServer (requestListener cfg st req env).1).
Proof.
  intros Hreach Hurl Hm Hheader Hsession Hthrown.
  apply reachable_wellFormed in Hreach as Hwf.
  rewrite (requestListener_delete st req env session sessionId) by done.
  apply getSession_Some in Hsession as (k & Hk & Hne & Hlook).
  assert (k = sessionId) as -> by congruence.
  destruct Hwf as [HA _]. destruct (HA sessionId session Hlook) as [Hts Hid].
  cbn [fst]. split; [|split; [|split]].
  - split; [|split; [|split]].
    + simpl. apply lookup_delete_eq.
    + intros id r. simpl. rewrite map_lookup_filter_Some. by intros [_ ?].
    + simpl. apply lookup_delete_eq.
    + simpl. destruct (fw_closed (forward env)).
      * rewrite onclose_closeCalls, elem_of_app, list_elem_of_singleton.
        split; [auto | intros _; right; congruence].
      * split; [auto | by intros [? | ?]].
  - rewrite <- Hts. by apply (onclose_tears_down _ _ sessionId).
  - destruct (onclose_twice (transport session) st) as (? & ? & ? & _ & ?). auto.
  - set (st1 := if fw_closed (forward env) then onclose (transport session) st else st).
    assert (Hid1 : transportSessionId st1 !! transport session = Some sessionId).
    { unfold st1. destruct (fw_closed _); [by rewrite onclose_transportSessionId | done]. }
    split; [|split].
    + rewrite onclose_sessions. cbn [setSessionByServer setSessions
        clearResourcesForServer setResources transportSessionId sessions].
      rewrite Hid1, (proj2 (truthyString_Some _ sessionId)) by done.
      apply delete_delete_eq.
    + rewrite onclose_resources. simpl. rewrite <- Hts.
      apply map_filter_id. intros id r. rewrite map_lookup_filter_Some. by intros [_ ?].
    + rewrite onclose_sessionByServer. simpl. rewrite <- Hts. apply delete_delete_eq.
Qed.

(** *** Owners *)

(** Only the download branch streams a file. *)
Lemma file_only_from_download (st : State) (req : Request) (env : Env)
    (status : Z) (contentType : option jsString) (r : FileResource) (size : N) :
  (requestListener cfg st req env).2 = Reply status contentType (FileStream r size) →
  ∃ pathname, req_url req = UrlPath pathname
              ∧ startsWith (downloadPrefix cfg) pathname = true.
Proof.
  unfold requestListener.
  destruct (req_url req) as [| |p]; cbn [from_option]; try done.
  destruct (startsWith _ p) eqn:Hprefix; [eauto|].
  destruct (negb _); [done|].
  destruct (jsEqb (methodOf req) (js "POST")).
  - unfold handlePost.
    destruct (req_body req) as [|rawBody]; [done|].
    destruct (parseBody rawBody) as [parsedBody|]; [|done].
    destruct (getSession st req) as [session| |].
    + destruct (fw_thrown (forward env)) as [[|]|]; done.
    + done.
    + destruct (notInitialize parsedBody); [done|].
      destruct (connectFails env); [done|].
      destruct (fw_thrown (forward env)) as [[|]|]; done.
  - destruct (_ || _); [|done]. unfold handleGetDelete.
    destruct (getSession st req) as [session| |]; [|done..].
    destruct (fw_thrown (forward env)) as [[|]|]; done.
Qed.

(** C5.  With a resource registered under the server of session [a], a
    download that names any other session id [b] with that resource id is
    answered 404; and whenever a file is streamed, it is a resource owned
    by the server of the session named in the path. *)
Theorem no_download_across_owners (st : State) (a b : jsString) (sa : Session)
    (resourceId : jsString) (r : FileResource) :
  reachable cfg st →
  sessions st !! a = Some sa →
  a ≠ b →
  resources st !! resourceId = Some r →
  owner r = server sa →
  (∀ req env pathname rest,
     req_url req = UrlPath pathname →
     startsWith (downloadPrefix cfg) pathname = true →
     downloadParts cfg pathname = b :: resourceId :: rest →
     (requestListener cfg st req env).2 = Reply 404 None (Text (js "Not Found")))
  ∧ (∀ req env status contentType served size,
       (requestListener cfg st req env).2
       = Reply status contentType (FileStream served size) →
       ∃ pathname sessionId id rest session,
         req_url req = UrlPath pathname
         ∧ downloadParts cfg pathname = sessionId :: id :: rest
         ∧ sessions st !! sessionId = Some session
         ∧ resources st !! id = Some served
         ∧ owner served = server session).
Proof.
  intros Hreach Ha Hne Hr Howner.
  apply reachable_wellFormed in Hreach as Hwf. split.
  - intros req env pathname rest Hurl Hprefix Hparts.
    rewrite (requestListener_download cfg st req env pathname) by done. cbn [snd].
    destruct (sessions st !! b) as [sb|] eqn:Hb;
      [|by rewrite (serveDownload_unknown cfg _ _ _ _ _ _ Hparts Hb)].
    rewrite (serveDownload_known cfg _ _ _ _ _ _ _ Hparts Hb).
    rewrite getFileResourceById_absent; [done|].
    right. exists r. split; [done|]. left. rewrite Howner.
    by apply (wellFormed_servers_distinct st a b).
  - intros req env status contentType served size Hresp.
    destruct (file_only_from_download _ _ _ _ _ _ _ Hresp) as (pathname & Hurl & Hprefix).
    rewrite (requestListener_download cfg st req env pathname) in Hresp by done.
    cbn [snd] in Hresp.
    destruct (downloadParts_cases cfg pathname) as [Hlen | (k & id & rest & Hparts)].
    { by rewrite serveDownload_short in Hresp. }
    destruct (sessions st !! k) as [session|] eqn:Hk;
      [|by rewrite (serveDownload_unknown cfg _ _ _ _ _ _ Hparts Hk) in Hresp].
    rewrite (serveDownload_known cfg _ _ _ _ _ _ _ Hparts Hk) in Hresp.
    exists pathname, k, id, rest, session.
    unfold getFileResourceById in Hresp. cbn [resourceManagerOf enabled] in Hresp.
    destruct (resources st !! id) as [r'|] eqn:Hr'; [|done].
    destruct (bool_decide (owner r' = server session)) eqn:Ho; [|done].
    apply bool_decide_eq_true in Ho.
    destruct (now env <? expiresAt r')%Z; [|done]. cbn [andb] in Hresp.
    unfold sendFile in Hresp.
    destruct (statSize env); [|done].
    destruct (validDownloadHeaders r'); [|done]. injection Hresp as _ _ <- _.
    done.
Qed.

End Registry.

(** ** More on the request callback *)

Section Forwarding.
Context {sdk : Sdk}.
Variable cfg : Config.

Lemma requestListener_post (st : State) (req : Request) (env : Env) :
  req_url req = UrlPath (normalizedPath cfg) →
  methodOf req = js "POST" →
  requestListener cfg st req env = handlePost st req env.
Proof.
  intros Hurl Hm. rewrite requestListener_protocol_path by done.
  cbv zeta. by rewrite Hm, jsEqb_refl.
Qed.

Lemma requestListener_get (st : State) (req : Request) (env : Env) :
  req_url req = UrlPath (normalizedPath cfg) →
  methodOf req = js "GET" →
  requestListener cfg st req env = handleGetDelete (js "GET") st req env.
Proof.
  intros Hurl Hm. rewrite requestListener_protocol_path by done.
  cbv zeta. rewrite Hm. destruct delete_is_not_post_or_get as (_ & _ & ->).
  by rewrite jsEqb_refl.
Qed.

(** The transport of a live session already has its id. *)
Lemma live_transport_has_id (st : State) (req : Request) (session : Session) :
  wellFormed st → getSession st req = Own session →
  ∃ sessionId, req_sessionHeader req = Some sessionId ∧ sessionId ≠ []
               ∧ sessions st !! sessionId = Some session
               ∧ transport session = server session
               ∧ transportSessionId st !! transport session = Some sessionId.
Proof.
  intros [HA _] Hs. apply getSession_Some in Hs as (k & Hh & Hne & Hk).
  destruct (HA k session Hk) as [Ht Hid]. eauto 10.
Qed.

(** X1.  A handshake: a POST on the protocol path for which
    [getSession()] is [undefined] and whose body is an initialize request,
    with [connect] succeeding and the transport minting a non-empty id
    without running its closure callback.  The new pair is
    filed under the minted id and the server is bound to it, every other
    entry is as before, and a later GET that carries the id is forwarded to
    the new transport. *)
Theorem handshake_opens_session (st : State) (req : Request) (env : Env)
    (rawBody : jsString) (j : Json) (sessionId : jsString) :
  reachable cfg st →
  req_url req = UrlPath (normalizedPath cfg) →
  methodOf req = js "POST" →
  req_body req = BodyText rawBody →
  parseBody rawBody = Some (Some j) →
  truthy j = true →
  isInitializeRequest j = true →
  getSession st req = Undefined →
  connectFails env = false →
  fw_initialized (forward env) = Some sessionId →
  fw_closed (forward env) = false →
  sessionId ≠ [] →
  sessions (requestListener cfg st req env).1 !! sessionId
  = Some (mkSession (nextInstance st) (nextInstance st))
  ∧ sessionByServer (requestListener cfg st req env).1 !! nextInstance st = Some sessionId
  ∧ nextInstance (requestListener cfg st req env).1 = S (nextInstance st)
  ∧ (∀ k, k ≠ sessionId →
       sessions (requestListener cfg st req env).1 !! k = sessions st !! k)
  ∧ (fw_thrown (forward env) = None →
       (requestListener cfg st req env).2 = Forwarded (nextInstance st) (Some j))
  ∧ ∀ reqG envG,
      req_url reqG = UrlPath (normalizedPath cfg) →
      methodOf reqG = js "GET" →
      req_sessionHeader reqG = Some sessionId →
      fw_thrown (forward envG) = None →
      (requestListener cfg (requestListener cfg st req env).1 reqG envG).2
      = Forwarded (nextInstance st) None.
Proof.
  intros Hreach Hurl Hm Hbody Hparse Htruthy Hinit Hsession Hconnect Hmint Hclosed Hne.
  apply reachable_wellFormed in Hreach as Hwf.
  assert (Hstate : requestListener cfg st req env
    = (onsessioninitialized (nextInstance st) sessionId (allocateInstance st),
       match fw_thrown (forward env) with
       | Some headersSent => caught headersSent (nextInstance st)
       | None => Forwarded (nextInstance st) (Some j)
       end)).
  { rewrite requestListener_post by done. unfold handlePost.
    rewrite Hbody, Hparse, Hsession. cbn [notInitialize].
    rewrite Htruthy, Hinit. cbn [negb orb allocateInstance transportSessionId].
    rewrite (fresh_transport_has_no_id st Hwf). cbn [truthyString].
    rewrite Hconnect. unfold transportHandleRequest. rewrite Hmint, Hclosed.
    cbn [allocateInstance transportSessionId].
    rewrite (fresh_transport_has_no_id st Hwf).
    by destruct (fw_thrown (forward env)). }
  rewrite Hstate. cbn [fst snd].
  split; [simpl; apply lookup_insert_eq|].
  split; [simpl; apply lookup_insert_eq|].
  split; [done|]. split; [|split].
  - intros k Hk. simpl. by rewrite lookup_insert_ne.
  - by intros ->.
  - intros reqG envG HurlG HmG HheaderG HthrownG.
    rewrite requestListener_get by done. unfold handleGetDelete, getSession.
    rewrite HheaderG, (proj2 (truthyString_Some _ sessionId)) by done.
    rewrite (proj2 (lookupSession_Own _ sessionId
                      (mkSession (nextInstance st) (nextInstance st))))
      by (simpl; apply lookup_insert_eq).
    cbn [transport]. by rewrite HthrownG.
Qed.

(** X2.  A POST on the protocol path that carries the id of a live session
    is handed, with its parsed body, to the transport of that session,
    whatever the body is: no server or transport is created, and if the
    transport does not run its closure callback the state is unchanged. *)
Theorem post_with_session_forwarded (st : State) (req : Request) (env : Env)
    (rawBody : jsString) (parsedBody : option Json) (session : Session) :
  reachable cfg st →
  req_url req = UrlPath (normalizedPath cfg) →
  methodOf req = js "POST" →
  req_body req = BodyText rawBody →
  parseBody rawBody = Some parsedBody →
  getSession st req = Own session →
  (requestListener cfg st req env).2
  = match fw_thrown (forward env) with
    | Some headersSent => caught headersSent (transport session)
    | None => Forwarded (transport session) parsedBody
    end
  ∧ nextInstance (requestListener cfg st req env).1 = nextInstance st
  ∧ (fw_closed (forward env) = false → (requestListener cfg st req env).1 = st).
Proof.
  intros Hreach Hurl Hm Hbody Hparse Hsession.
  apply reachable_wellFormed in Hreach as Hwf.
  destruct (live_transport_has_id st req session Hwf Hsession)
    as (k & _ & _ & _ & _ & Hid).
  rewrite requestListener_post by done. unfold handlePost.
  rewrite Hbody, Hparse, Hsession.
  rewrite (transportHandleRequest_initialised _ _ _ k Hid).
  destruct (fw_thrown (forward env)); cbn [fst snd];
    (split; [done|]); (split; [|by intros ->]);
    destruct (fw_closed (forward env)); by rewrite ?onclose_nextInstance.
Qed.

(** X3.  A GET on the protocol path that carries the id of a live session
    is handed to its transport and never tears the session down by itself:
    unless the transport runs its closure callback, the state is
    unchanged. *)
Theorem get_with_session_forwarded (st : State) (req : Request) (env : Env)
    (session : Session) :
  reachable cfg st →
  req_url req = UrlPath (normalizedPath cfg) →
  methodOf req = js "GET" →
  getSession st req = Own session →
  (requestListener cfg st req env).2
  = match fw_thrown (forward env) with
    | Some headersSent => caught headersSent (transport session)
    | None => Forwarded (transport session) None
    end
  ∧ (requestListener cfg st req env).1
    = if fw_closed (forward env) then onclose (transport session) st else st.
Proof.
  intros Hreach Hurl Hm Hsession.
  apply reachable_wellFormed in Hreach as Hwf.
  destruct (live_transport_has_id st req session Hwf Hsession)
    as (k & _ & _ & _ & _ & Hid).
  rewrite requestListener_get by done. unfold handleGetDelete.
  rewrite Hsession, (transportHandleRequest_initialised _ _ _ k Hid).
  destruct delete_is_not_post_or_get as (_ & Hdg & _).
  assert (jsEqb (js "GET") (js "DELETE") = false) as ->.
  { apply jsEqb_false. intros Heq. symmetry in Heq. by apply jsEqb_false in Hdg. }
  by destruct (fw_thrown (forward env)).
Qed.

(** X4.  A DELETE whose forwarding throws does no teardown of its own: if
    the transport has not run its closure callback the state is unchanged
    and the session is still live; the answer is the 500 envelope when the
    response has not begun. *)
Theorem delete_that_throws_keeps_session (st : State) (req : Request) (env : Env)
    (session : Session) (headersSent : bool) :
  reachable cfg st →
  req_url req = UrlPath (normalizedPath cfg) →
  methodOf req = js "DELETE" →
  getSession st req = Own session →
  fw_thrown (forward env) = Some headersSent →
  fw_closed (forward env) = false →
  requestListener cfg st req env
  = (st, if headersSent then Interrupted (transport session)
         else Reply 500 (Some (js "application/json"))
                (JsonRpcError (-32603) (js "Internal server error"))).
Proof.
  intros Hreach Hurl Hm Hsession Hthrown Hclosed.
  apply reachable_wellFormed in Hreach as Hwf.
  destruct (live_transport_has_id st req session Hwf Hsession)
    as (k & _ & _ & _ & _ & Hid).
  rewrite requestListener_protocol_path by done. cbv zeta. rewrite Hm.
  destruct delete_is_not_post_or_get as (-> & -> & _). rewrite jsEqb_refl.
  cbn [orb]. unfold handleGetDelete.
  rewrite Hsession, (transportHandleRequest_initialised _ _ _ k Hid), Hthrown, Hclosed.
  done.
Qed.

(** *** Where sessions come from *)

Lemma onclose_sessions_origin (n : nat) (st : State) (k : jsString) (s : Session) :
  sessions (onclose n st) !! k = Some s → sessions st !! k = Some s.
Proof.
  rewrite onclose_sessions.
  destruct (truthyString _); [apply lookup_delete_Some_weak | done].
Qed.

Lemma transportHandleRequest_sessions_origin (n : nat) (fw : Forward) (st : State)
    (k : jsString) (s : Session) :
  sessions (transportHandleRequest n fw st) !! k = Some s →
  sessions st !! k = Some s
  ∨ (fw_initialized fw = Some k ∧ transportSessionId st !! n = None ∧ s = mkSession n n).
Proof.
  unfold transportHandleRequest. intros Hk.
  assert (Hinit : sessions
    match fw_initialized fw, transportSessionId st !! n with
    | Some sessionId, None => onsessioninitialized n sessionId st
    | _, _ => st
    end !! k = Some s).
  { destruct (fw_closed fw); [by apply onclose_sessions_origin in Hk | done]. }
  destruct (fw_initialized fw) as [sessionId|]; [|by left].
  destruct (transportSessionId st !! n) eqn:Hid; [by left|].
  simpl in Hinit. destruct (decide (sessionId = k)) as [-> | Hne].
  - rewrite lookup_insert_eq in Hinit. right. by injection Hinit as <-.
  - rewrite lookup_insert_ne in Hinit by done. by left.
Qed.

(** X5.  One request adds at most one entry to the registry, and only a
    handshake does: an entry found after a request was there before, or it
    is the new pair, filed under the id the transport minted during a POST
    on the protocol path that carried no live session id and whose body was
    an initialize request. *)
Theorem sessions_come_from_handshakes (st : State) (req : Request) (env : Env)
    (k : jsString) (s : Session) :
  reachable cfg st →
  sessions (requestListener cfg st req env).1 !! k = Some s →
  sessions st !! k = Some s
  ∨ (fw_initialized (forward env) = Some k
     ∧ s = mkSession (nextInstance st) (nextInstance st)
     ∧ req_url req = UrlPath (normalizedPath cfg)
     ∧ methodOf req = js "POST"
     ∧ getSession st req = Undefined
     ∧ connectFails env = false
     ∧ ∃ rawBody j, req_body req = BodyText rawBody
                    ∧ parseBody rawBody = Some (Some j)
                    ∧ truthy j = true ∧ isInitializeRequest j = true).
Proof.
  intros Hreach. apply reachable_wellFormed in Hreach as Hwf.
  unfold requestListener.
  destruct (req_url req) as [| |p] eqn:Hurl; cbn [from_option]; try by left.
  destruct (startsWith _ p); [by left|].
  destruct (jsEqb p (normalizedPath cfg)) eqn:Hp; cbn [negb]; [|by left].
  apply jsEqb_true in Hp as ->.
  destruct (jsEqb (methodOf req) (js "POST")) eqn:Hm.
  - apply jsEqb_true in Hm. unfold handlePost.
    destruct (req_body req) as [|rawBody] eqn:Hbody; [by left|].
    destruct (parseBody rawBody) as [parsedBody|] eqn:Hparse; [|by left].
    destruct (getSession st req) as [session| |] eqn:Hsession.
    + intros Hk.
      assert (Hfw : sessions (transportHandleRequest (transport session) (forward env) st)
                      !! k = Some s) by (by destruct (fw_thrown (forward env))).
      destruct (live_transport_has_id st req session Hwf Hsession)
        as (k' & _ & _ & _ & _ & Hid).
      apply transportHandleRequest_sessions_origin in Hfw as [? | (_ & Hnone & _)];
        [by left | congruence].
    + by left.
    + destruct (notInitialize parsedBody) eqn:Hnot; [by left|].
      cbn [allocateInstance transportSessionId].
      rewrite (fresh_transport_has_no_id st Hwf). cbn [truthyString].
      destruct (connectFails env) eqn:Hconnect; [by left|].
      intros Hk.
      assert (Hfw : sessions (transportHandleRequest (nextInstance st) (forward env)
                                (allocateInstance st)) !! k = Some s)
        by (by destruct (fw_thrown (forward env))).
      apply transportHandleRequest_sessions_origin in Hfw as [? | (Hmint & _ & ->)];
        [by left|].
      right. do 6 (split; [done|]).
      destruct parsedBody as [j|]; [|done]. cbn [notInitialize] in Hnot.
      apply orb_false_elim in Hnot as [Ht Hi].
      apply negb_false_iff in Ht, Hi. eauto 10.
  - destruct (_ || _); [|by left]. unfold handleGetDelete.
    destruct (getSession st req) as [session| |] eqn:Hsession; [|by left..].
    destruct (live_transport_has_id st req session Hwf Hsession)
      as (k' & _ & _ & _ & _ & Hid).
    rewrite (transportHandleRequest_initialised _ _ _ k' Hid).
    intros Hk. left.
    assert (Hfw : sessions (if fw_closed (forward env)
                            then onclose (transport session) st else st) !! k = Some s).
    { revert Hk. destruct (fw_thrown (forward env)); cbn [fst]; [done|].
      destruct (jsEqb (methodOf req) (js "DELETE")); [|done].
      destruct (truthyString _); [|done].
      simpl. apply lookup_delete_Some_weak. }
    destruct (fw_closed (forward env)); [by apply onclose_sessions_origin in Hfw | done].
Qed.

End Forwarding.

(** ** Isolation between sessions *)

Section Isolation.
Context {sdk : Sdk}.
Variable cfg : Config.

(** The state after the callbacks of a forward to a transport with an id. *)
Lemma onclose_other_session (n : nat) (st : State) (a b : jsString) :
  transportSessionId st !! n = Some a → b ≠ a →
  sessions (onclose n st) !! b = sessions st !! b.
Proof.
  intros Hid Hne. rewrite onclose_sessions, Hid.
  destruct (truthyString (Some a)) as [k|] eqn:Hk; [|done].
  apply truthyString_Some in Hk as [[= <-] _]. by rewrite lookup_delete_ne.
Qed.

(** A request that resolves to a session ends in one of three states. *)
Lemma requestListener_with_session (st : State) (req : Request) (env : Env)
    (session : Session) (a : jsString) :
  wellFormed st →
  req_sessionHeader req = Some a →
  getSession st req = Own session →
  let st1 := if fw_closed (forward env) then onclose (transport session) st else st in
  (requestListener cfg st req env).1 = st
  ∨ (requestListener cfg st req env).1 = st1
  ∨ (requestListener cfg st req env).1
    = setSessionByServer (delete (server session))
        (setSessions (delete a) (clearResourcesForServer (server session) st1)).
Proof.
  intros Hwf Hheader Hsession st1.
  destruct (live_transport_has_id st req session Hwf Hsession)
    as (k & Hk & Hne & _ & _ & Hid).
  assert (k = a) as -> by congruence.
  unfold requestListener.
  destruct (req_url req) as [| |p]; cbn [from_option]; try by left.
  destruct (startsWith _ p); [by left|]. destruct (negb _); [by left|].
  destruct (jsEqb (methodOf req) (js "POST")).
  - unfold handlePost.
    destruct (req_body req) as [|rawBody]; [by left|].
    destruct (parseBody rawBody) as [parsedBody|]; [|by left].
    rewrite Hsession, (transportHandleRequest_initialised _ _ _ a Hid).
    right. left. by destruct (fw_thrown (forward env)).
  - destruct (_ || _); [|by left]. unfold handleGetDelete.
    rewrite Hsession, (transportHandleRequest_initialised _ _ _ a Hid).
    fold st1.
    destruct (fw_thrown (forward env)); cbn [fst]; [by right; left|].
    destruct (jsEqb (methodOf req) (js "DELETE")); [|by right; left].
    assert (transportSessionId st1 !! transport session = Some a) as ->.
    { unfold st1. destruct (fw_closed _); [by rewrite onclose_transportSessionId | done]. }
    rewrite (proj2 (truthyString_Some _ a)) by done. by right; right.
Qed.

(** X6.  A request that resolves to session [a] leaves every other session
    alone, whatever its method, its body and the transport's callbacks: the
    other entries of the registry and the bindings of other servers are as
    before, and [close()] is called on no server but that of [a]. *)
Theorem other_sessions_untouched (st : State) (req : Request) (env : Env)
    (session : Session) (a : jsString) :
  reachable cfg st →
  req_sessionHeader req = Some a →
  getSession st req = Own session →
  (∀ b, b ≠ a → sessions (requestListener cfg st req env).1 !! b = sessions st !! b)
  ∧ (∀ n, n ≠ server session →
       sessionByServer (requestListener cfg st req env).1 !! n = sessionByServer st !! n)
  ∧ (∀ n, n ∈ closeCalls (requestListener cfg st req env).1 →
       n ∈ closeCalls st ∨ n = server session).
Proof.
  intros Hreach Hheader Hsession.
  apply reachable_wellFormed in Hreach as Hwf.
  destruct (live_transport_has_id st req session Hwf Hsession)
    as (k & Hk & Hne & _ & Hts & Hid).
  assert (k = a) as -> by congruence.
  set (st1 := if fw_closed (forward env) then onclose (transport session) st else st).
  assert (H1 : (∀ b, b ≠ a → sessions st1 !! b = sessions st !! b)
    ∧ (∀ n, n ≠ server session → sessionByServer st1 !! n = sessionByServer st !! n)
    ∧ (∀ n, n ∈ closeCalls st1 → n ∈ closeCalls st ∨ n = server session)).
  { unfold st1. destruct (fw_closed (forward env)); [|by auto].
    split; [|split].
    - intros b Hb. by apply (onclose_other_session _ _ a).
    - intros n Hn. rewrite onclose_sessionByServer, Hts. by rewrite lookup_delete_ne.
    - intros n. rewrite onclose_closeCalls, elem_of_app, list_elem_of_singleton, Hts.
      tauto. }
  destruct H1 as (Hs1 & Hb1 & Hc1).
  destruct (requestListener_with_session st req env session a Hwf Hheader Hsession)
    as [-> | [-> | ->]]; fold st1.
  - by auto.
  - by auto.
  - split; [|split]; simpl.
    + intros b Hb. rewrite lookup_delete_ne by done. by apply Hs1.
    + intros n Hn. rewrite lookup_delete_ne by done. by apply Hb1.
    + done.
Qed.

(** X8.  No two live sessions share a server or a transport: every
    handshake creates its own pair, and the registry never files one pair
    under two ids. *)
Theorem sessions_have_distinct_servers (st : State) (a b : jsString)
    (s1 s2 : Session) :
  reachable cfg st →
  sessions st !! a = Some s1 →
  sessions st !! b = Some s2 →
  a ≠ b →
  server s1 ≠ server s2 ∧ transport s1 ≠ transport s2.
Proof.
  intros Hreach Ha Hb Hne.
  apply reachable_wellFormed in Hreach as [Hwf _].
  destruct (Hwf a s1 Ha) as [Hpair1 Hid1], (Hwf b s2 Hb) as [Hpair2 Hid2].
  assert (Hts : transport s1 ≠ transport s2).
  { intros Heq. rewrite Heq in Hid1. congruence. }
  split; [|exact Hts]. by rewrite <- Hpair1, <- Hpair2.
Qed.

(** X7.  The responses the gateway writes itself are of seven kinds: the
    file with status 200, the two 400 envelopes of code -32000, the two
    plain 400, the plain 404, the plain 405, the 500 envelope of code
    -32603 and the plain 500 of a download whose [stat] or [writeHead]
    failed. *)
Theorem gateway_replies (st : State) (req : Request) (env : Env)
    (status : Z) (contentType : option jsString) (body : Body) :
  (requestListener cfg st req env).2 = Reply status contentType body →
  (status = 200%Z ∧ ∃ r size, body = FileStream r size
       ∧ contentType = Some (default (js "application/octet-stream") (mimeType r)))
  ∨ (status = 400%Z ∧ contentType = Some (js "application/json")
     ∧ (body = JsonRpcError (-32000) (js "Invalid JSON body")
        ∨ body = JsonRpcError (-32000) (js "Bad Request: No valid session ID provided")))
  ∨ (status = 400%Z ∧ contentType = None
     ∧ (body = Text (js "Invalid or missing session ID")
        ∨ body = Text (js "Invalid download path")))
  ∨ (status = 404%Z ∧ contentType = None ∧ body = Text (js "Not Found"))
  ∨ (status = 405%Z ∧ contentType = None ∧ body = Text (js "Method Not Allowed"))
  ∨ (status = 500%Z ∧ contentType = Some (js "application/json")
     ∧ body = JsonRpcError (-32603) (js "Internal server error"))
  ∨ (status = 500%Z ∧ contentType = None ∧ body = Text (js "Failed to serve file")).
Proof.
  assert (H500 : ∀ s c b, internalServerError = Reply s c b →
            s = 500%Z ∧ c = Some (js "application/json")
            ∧ b = JsonRpcError (-32603) (js "Internal server error")).
  { intros s c b [= <- <- <-]. done. }
  assert (Hcaught : ∀ hs t s c b, caught hs t = Reply s c b →
            s = 500%Z ∧ c = Some (js "application/json")
            ∧ b = JsonRpcError (-32603) (js "Internal server error")).
  { intros [|] t s c b; [done | apply H500]. }
  unfold requestListener.
  destruct (req_url req) as [| |p]; cbn [from_option snd].
  - intros [= <- <- <-]. do 3 right. by left.
  - intros Heq. apply H500 in Heq. do 5 right. by left.
  - destruct (startsWith _ p).
    { cbn [snd default]. unfold serveDownload.
      destruct (_ <? _)%nat.
      { intros [= <- <- <-]. do 2 right. left. auto. }
      destruct (lookupSession st _) as [session| |];
        [|intros [= <- <- <-]; do 3 right; by left..].
      destruct (getFileResourceById _ _ _ _ _) as [r|];
        [|intros [= <- <- <-]; do 3 right; by left].
      unfold sendFile. destruct (statSize env) as [size|];
        [destruct (validDownloadHeaders r)|].
      - intros [= <- <- <-]. left. eauto.
      - intros [= <- <- <-]. do 6 right. done.
      - intros [= <- <- <-]. do 6 right. done. }
    destruct (negb _); cbn [snd].
    { intros [= <- <- <-]. do 3 right. by left. }
    destruct (jsEqb (methodOf req) (js "POST")).
    + unfold handlePost.
      destruct (req_body req) as [|rawBody]; cbn [snd].
      { intros Heq. apply H500 in Heq. do 5 right. by left. }
      destruct (parseBody rawBody) as [parsedBody|]; cbn [snd];
        [|intros [= <- <- <-]; right; left; auto].
      destruct (getSession st req) as [session| |].
      * destruct (fw_thrown (forward env)) as [hs|]; cbn [snd]; [|done].
        intros Heq. apply Hcaught in Heq. do 5 right. by left.
      * cbn [snd]. intros Heq. apply H500 in Heq. do 5 right. by left.
      * destruct (notInitialize parsedBody); cbn [snd];
          [intros [= <- <- <-]; right; left; auto|].
        destruct (connectFails env); cbn [snd].
        { intros Heq. apply H500 in Heq. do 5 right. by left. }
        destruct (fw_thrown (forward env)) as [hs|]; cbn [snd]; [|done].
        intros Heq. apply Hcaught in Heq. do 5 right. by left.
    + destruct (_ || _); cbn [snd];
        [|intros [= <- <- <-]; do 4 right; by left].
      unfold handleGetDelete.
      destruct (getSession st req) as [session| |]; cbn [snd];
        [|intros Heq; apply H500 in Heq; do 5 right; by left
         |intros [= <- <- <-]; do 2 right; left; auto].
      destruct (fw_thrown (forward env)) as [hs|]; cbn [snd]; [|done].
      intros Heq. apply Hcaught in Heq. do 5 right. by left.
Qed.

End Isolation.

(** ** Resource URIs *)

Section ResourceUris.
Context {sdk : Sdk}.
Variable cfg : Config.

Lemma hexDigit_not_slash (n : N) : hexDigit n ≠ slash.
Proof. unfold hexDigit, slash. destruct (N.ltb_spec n 10); lia. Qed.

Lemma percentEncode_no_slash (octets : list N) :
  slash ∉ concat (List.map percentEncode octets).
Proof.
  induction octets as [|o octets IH]; [by apply not_elem_of_nil|].
  cbn [List.map concat percentEncode app].
  rewrite !not_elem_of_cons. repeat split; try done.
  - apply not_eq_sym, hexDigit_not_slash.
  - apply not_eq_sym, hexDigit_not_slash.
Qed.

Lemma encodeURIComponent_no_slash_aux (n : nat) (s out : jsString) :
  (length s ≤ n)%nat → encodeURIComponent s = Return out → slash ∉ out.
Proof.
  revert s out. induction n as [|n IH]; intros s out Hlen.
  { destruct s; [|simpl in Hlen; lia]. intros [= <-]. apply not_elem_of_nil. }
  destruct s as [|c rest]; [intros [= <-]; apply not_elem_of_nil|].
  simpl in Hlen. cbn [encodeURIComponent].
  destruct (isUnreserved c) eqn:Hc.
  { destruct (encodeURIComponent rest) as [out'|] eqn:Hrest; [|done].
    intros [= <-]. apply not_elem_of_cons. split.
    - intros <-. done.
    - apply (IH rest); [lia | done]. }
  destruct (isLeadSurrogate c).
  { destruct rest as [|d rest']; [done|].
    destruct (isTrailSurrogate d); [|done].
    destruct (encodeURIComponent rest') as [out'|] eqn:Hrest; [|done].
    intros [= <-]. apply not_elem_of_app. split; [apply percentEncode_no_slash|].
    apply (IH rest'); [simpl in Hlen; lia | done]. }
  destruct (isTrailSurrogate c); [done|].
  destruct (encodeURIComponent rest) as [out'|] eqn:Hrest; [|done].
  intros [= <-]. apply not_elem_of_app. split; [apply percentEncode_no_slash|].
  apply (IH rest); [lia | done].
Qed.

(** An encoded file name holds no slash. *)
Lemma encodeURIComponent_no_slash (s out : jsString) :
  encodeURIComponent s = Return out → slash ∉ out.
Proof. by apply (encodeURIComponent_no_slash_aux (length s)). Qed.

(** *** Servers stay bound to their sessions *)

Lemma serversBound_onclose (n : nat) (st : State) :
  wellFormed st → serversBound st → serversBound (onclose n st).
Proof.
  intros [HA _] Hb k s Hk Hne.
  assert (Hold : sessions st !! k = Some s) by (by apply onclose_sessions_origin in Hk).
  rewrite onclose_sessionByServer.
  destruct (decide (server s = n)) as [<- | Hn].
  - destruct (HA k s Hold) as [Hts Hid]. exfalso.
    rewrite onclose_sessions, <- Hts, Hid in Hk.
    rewrite (proj2 (truthyString_Some _ k)) in Hk by done.
    by rewrite lookup_delete_eq in Hk.
  - rewrite lookup_delete_ne by done. by apply Hb.
Qed.

Lemma serversBound_onsessioninitialized (n : nat) (sessionId : jsString) (st : State) :
  wellFormed st → transportSessionId st !! n = None →
  serversBound st → serversBound (onsessioninitialized n sessionId st).
Proof.
  intros [HA _] Hfresh Hb k s. simpl.
  destruct (decide (sessionId = k)) as [<- | Hne].
  - rewrite lookup_insert_eq. intros [= <-] _. simpl. apply lookup_insert_eq.
  - rewrite lookup_insert_ne by done. intros Hk Hk'.
    rewrite lookup_insert_ne; [by apply Hb|].
    intros Heq. destruct (HA k s Hk) as [Hts Hid].
    rewrite Hts, <- Heq in Hid. congruence.
Qed.

Lemma serversBound_transportHandleRequest (n : nat) (fw : Forward) (st : State) :
  wellFormed st → (n < nextInstance st)%nat →
  serversBound st → serversBound (transportHandleRequest n fw st).
Proof.
  intros Hwf Hn Hb. unfold transportHandleRequest.
  assert (Hinit : wellFormed
      match fw_initialized fw, transportSessionId st !! n with
      | Some sessionId, None => onsessioninitialized n sessionId st
      | _, _ => st
      end ∧ serversBound
      match fw_initialized fw, transportSessionId st !! n with
      | Some sessionId, None => onsessioninitialized n sessionId st
      | _, _ => st
      end).
  { destruct (fw_initialized fw) as [sessionId|]; [|done].
    destruct (transportSessionId st !! n) eqn:Hfresh; [done|].
    split; [by apply wellFormed_onsessioninitialized
           | by apply serversBound_onsessioninitialized]. }
  destruct Hinit as [Hwf1 Hb1].
  destruct (fw_closed fw); [by apply serversBound_onclose | done].
Qed.

Lemma serversBound_requestListener (st : State) (req : Request) (env : Env) :
  wellFormed st → serversBound st → serversBound (requestListener cfg st req env).1.
Proof.
  intros Hwf Hb.
  destruct (getSession st req) as [session| |] eqn:Hsession.
  - destruct (live_transport_has_id st req session Hwf Hsession)
      as (a & Hheader & Hne & Hlook & Hts & Hid).
    set (st1 := if fw_closed (forward env) then onclose (transport session) st else st).
    assert (Hwf1 : wellFormed st1)
      by (unfold st1; destruct (fw_closed _); [by apply wellFormed_onclose | done]).
    assert (Hb1 : serversBound st1)
      by (unfold st1; destruct (fw_closed _); [by apply serversBound_onclose | done]).
    assert (Hid1 : transportSessionId st1 !! transport session = Some a).
    { unfold st1. destruct (fw_closed _); [by rewrite onclose_transportSessionId | done]. }
    destruct (requestListener_with_session cfg st req env session a Hwf Hheader Hsession)
      as [-> | [-> | ->]]; fold st1; [done | done |].
    intros k s. simpl. rewrite lookup_delete_Some. intros [Hka Hk] Hk'.
    rewrite lookup_delete_ne; [by apply Hb1|].
    intros Heq. destruct Hwf1 as [HA1 _]. destruct (HA1 k s Hk) as [Hts' Hid'].
    rewrite Hts', <- Heq, <- Hts, Hid1 in Hid'. congruence.
  - unfold requestListener.
    destruct (req_url req) as [| |p]; cbn [from_option]; try done.
    destruct (startsWith _ p); [done|]. destruct (negb _); [done|].
    destruct (jsEqb (methodOf req) (js "POST")).
    + unfold handlePost.
      destruct (req_body req) as [|rawBody]; [done|].
      destruct (parseBody rawBody) as [parsedBody|]; [|done].
      by rewrite Hsession.
    + destruct (_ || _); [|done]. unfold handleGetDelete. by rewrite Hsession.
  - unfold requestListener.
    destruct (req_url req) as [| |p]; cbn [from_option]; try done.
    destruct (startsWith _ p); [done|]. destruct (negb _); [done|].
    destruct (jsEqb (methodOf req) (js "POST")).
    + unfold handlePost.
      destruct (req_body req) as [|rawBody]; [done|].
      destruct (parseBody rawBody) as [parsedBody|]; [|done].
      rewrite Hsession.
      destruct (notInitialize parsedBody); [done|].
      cbn [allocateInstance transportSessionId].
      rewrite (fresh_transport_has_no_id st Hwf). cbn [truthyString].
      assert (Hb' : serversBound (allocateInstance st)) by done.
      destruct (connectFails env); [done|].
      assert (serversBound (transportHandleRequest (nextInstance st) (forward env)
                              (allocateInstance st))).
      { apply serversBound_transportHandleRequest;
          [by apply wellFormed_allocateInstance | simpl; lia | done]. }
      by destruct (fw_thrown (forward env)).
    + destruct (_ || _); [|done]. unfold handleGetDelete. by rewrite Hsession.
Qed.

Lemma serversBound_step (st : State) (ev : Event) :
  wellFormed st → serversBound st → serversBound (step cfg st ev).
Proof.
  intros Hwf Hb. unfold step. destruct (exited st); [done|].
  destruct ev as [req env | n | o id fp mime nm t | closeFails httpCloseFails].
  - by apply serversBound_requestListener.
  - destruct (n <? nextInstance st)%nat; [by apply serversBound_onclose | done].
  - unfold registerResource. by destruct (enabled _).
  - unfold shutdown. destruct (isShuttingDown st); [done|].
    intros k s. cbn [processExit sessions]. by rewrite close_sessions, lookup_empty.
Qed.

Lemma serversBound_run (evs : list Event) (st : State) :
  wellFormed st → serversBound st → serversBound (run cfg st evs).
Proof.
  revert st. induction evs as [|ev evs IH]; intros st Hwf Hb; [done|].
  apply IH; [by apply wellFormed_step | by apply serversBound_step].
Qed.

Lemma reachable_serversBound (st : State) : reachable cfg st → serversBound st.
Proof.
  intros [evs ->]. apply serversBound_run; [apply wellFormed_initial|].
  intros k s'. simpl. by rewrite lookup_empty.
Qed.

(** X9.  In every reachable state the server of a session with a
    non-empty id is bound to that id, so that [getSessionId] finds the
    session of a server that is in the registry. *)
Theorem live_servers_are_bound (st : State) (sessionId : jsString) (s : Session) :
  reachable cfg st →
  sessions st !! sessionId = Some s →
  sessionId ≠ [] →
  getSessionId st (server s) = Some sessionId.
Proof. intros Hreach. by apply reachable_serversBound. Qed.

(** X10.  For the server of a live session [buildResourceUri] returns the
    origin followed by a path under the download prefix, and the split of
    the download branch takes that path apart into exactly the session id,
    the resource id and the encoded file name: [encodeURIComponent] leaves
    no slash in the name, so the name is one segment.  The ids are taken
    without a slash, as [randomUUID()] makes them.  The statement is about
    the text of the path; what [new URL] makes of a request target is the
    [UrlParse] given to the callback. *)
Theorem resource_uri_splits_back (ucfg : UriConfig) (st : State)
    (sessionId : jsString) (session : Session) (id filename f : jsString) :
  reachable cfg st →
  sessions st !! sessionId = Some session →
  sessionId ≠ [] →
  slash ∉ sessionId →
  slash ∉ id →
  encodeURIComponent filename = Return f →
  buildResourceUri cfg ucfg st (server session) id filename
  = Return (Some (uriOrigin ucfg ++ downloadPath cfg sessionId id f))
  ∧ startsWith (downloadPrefix cfg) (downloadPath cfg sessionId id f) = true
  ∧ downloadParts cfg (downloadPath cfg sessionId id f) = [sessionId; id; f].
Proof.
  intros Hreach Hs Hne Hsid Hid Henc.
  pose proof (encodeURIComponent_no_slash _ _ Henc) as Hf.
  split; [|split].
  - unfold buildResourceUri.
    rewrite (reachable_serversBound st Hreach sessionId session Hs Hne).
    rewrite (proj2 (truthyString_Some _ sessionId)) by done.
    rewrite Henc. unfold downloadPath, downloadPrefix.
    by rewrite <- !app_assoc.
  - apply downloadPath_under_prefix.
  - rewrite downloadParts_downloadPath by done. by rewrite split_no_separator.
Qed.

(** X11.  Once a DELETE has been forwarded without an exception, no URI is
    built any more for the server of the session it named: the builder
    returns [undefined], whatever the file name. *)
Theorem no_uri_after_teardown (ucfg : UriConfig) (st : State) (req : Request)
    (env : Env) (session : Session) (sessionId id filename : jsString) :
  reachable cfg st →
  req_url req = UrlPath (normalizedPath cfg) →
  methodOf req = js "DELETE" →
  req_sessionHeader req = Some sessionId →
  getSession st req = Own session →
  fw_thrown (forward env) = None →
  buildResourceUri cfg ucfg (requestListener cfg st req env).1 (server session) id filename
  = Return None.
Proof.
  intros Hreach Hurl Hm Hheader Hsession Hthrown.
  apply reachable_wellFormed in Hreach as Hwf.
  rewrite (requestListener_delete cfg st req env session sessionId) by done.
  unfold buildResourceUri. simpl. by rewrite lookup_delete_eq.
Qed.

End ResourceUris.

(** ** More on [trim] and [normalizeHttpPath] *)

Lemma trimStart_nil_iff (s : jsString) :
  trimStart s = [] ↔ Forall (λ c, isWhiteSpace c = true) s.
Proof.
  induction s as [|c s IH]; [done|]. cbn [trimStart].
  destruct (isWhiteSpace c) eqn:Hc.
  - rewrite IH. split; [by constructor | by inversion 1].
  - split; [done|]. inversion 1; congruence.
Qed.

Lemma trimStart_head (s t : jsString) (c : codeUnit) :
  trimStart s = c :: t → isWhiteSpace c = false.
Proof.
  induction s as [|d s IH]; [done|]. cbn [trimStart].
  destruct (isWhiteSpace d) eqn:Hd; [done|]. by intros [= <- _].
Qed.

Lemma trimStart_white_app (l s : jsString) :
  Forall (λ c, isWhiteSpace c = true) l → trimStart (l ++ s) = trimStart s.
Proof.
  induction 1 as [|c l Hc _ IH]; [done|]. cbn [app trimStart]. by rewrite Hc.
Qed.

Lemma trimStart_app (s r : jsString) :
  trimStart s ≠ [] → trimStart (s ++ r) = trimStart s ++ r.
Proof.
  induction s as [|c s IH]; [done|]. cbn [app trimStart].
  destruct (isWhiteSpace c); [done | by intros _].
Qed.

Lemma trimEnd_white_app (s r : jsString) :
  Forall (λ c, isWhiteSpace c = true) r → trimEnd (s ++ r) = trimEnd s.
Proof.
  intros Hr. unfold trimEnd. rewrite rev_app_distr.
  rewrite trimStart_white_app; [done|]. by apply Forall_rev.
Qed.

Lemma trim_nil_iff (s : jsString) :
  trim s = [] ↔ Forall (λ c, isWhiteSpace c = true) s.
Proof.
  unfold trim. split.
  - intros Ht. apply trimStart_nil_iff.
    destruct (trimStart s) as [|c t] eqn:Hs; [done|].
    apply trimStart_head in Hs.
    destruct (trimEnd_cons_nonwhite c t Hs) as [u Hu]. congruence.
  - intros Hs. by apply trimStart_nil_iff in Hs as ->.
Qed.

(** White space around a string does not change its trimmed form. *)
Lemma trim_padding (l s r : jsString) :
  Forall (λ c, isWhiteSpace c = true) l →
  Forall (λ c, isWhiteSpace c = true) r →
  trim (l ++ s ++ r) = trim s.
Proof.
  intros Hl Hr. unfold trim. rewrite trimStart_white_app by done.
  destruct (trimStart s) as [|c t] eqn:Hs.
  - apply trimStart_nil_iff in Hs.
    assert (trimStart (s ++ r) = []) as ->; [|done].
    apply trimStart_nil_iff, Forall_app. done.
  - rewrite trimStart_app by (by rewrite Hs). rewrite Hs. by apply trimEnd_white_app.
Qed.

Lemma trimEnd_cons (c : codeUnit) (s : jsString) :
  trimEnd s ≠ [] → trimEnd (c :: s) = c :: trimEnd s.
Proof.
  induction s as [|d s IH] using rev_ind; [done|].
  change (c :: s ++ [d]) with ((c :: s) ++ [d]). rewrite !trimEnd_snoc.
  destruct (isWhiteSpace d); [apply IH | done].
Qed.

Lemma trim_idempotent (s : jsString) : trim (trim s) = trim s.
Proof.
  unfold trim at 2 3.
  destruct (trimStart s) as [|c t] eqn:Hs; [done|].
  apply trimStart_head in Hs as Hc.
  destruct (trimEnd_cons_nonwhite c t Hc) as [u Hu].
  unfold trim. rewrite Hu, trimStart_nonwhite by done. rewrite <- Hu.
  unfold trimEnd. rewrite rev_involutive.
  assert (Hidem : ∀ x : jsString, trimStart (trimStart x) = trimStart x).
  { induction x as [|d x IHx]; [done|]. cbn [trimStart].
    destruct (isWhiteSpace d) eqn:Hd; [done|]. cbn [trimStart]. by rewrite Hd. }
  by rewrite Hidem.
Qed.

(** X12.  [normalizeHttpPath] throws exactly on the inputs made of white
    space only, the empty string among them, and returns a path on every
    other input. *)
Theorem normalizeHttpPath_throws_on_blank (value : jsString) :
  (Forall (λ c, isWhiteSpace c = true) value
   ↔ normalizeHttpPath value = Throw (js "HTTP path cannot be empty"))
  ∧ (¬ Forall (λ c, isWhiteSpace c = true) value
     ↔ ∃ r, normalizeHttpPath value = Return r).
Proof.
  rewrite <- trim_nil_iff.
  destruct (decide (trim value = [])) as [Ht | Ht].
  - rewrite normalizeHttpPath_blank by done. split; [done|].
    split; [done | by intros [r Hr]].
  - destruct (normalizeHttpPath_unfold value Ht) as (w & w' & _ & _ & ->).
    split; [done|]. split; [eauto | done].
Qed.

(** X13.  White space before and after the path is ignored. *)
Theorem normalizeHttpPath_ignores_padding (l value r : jsString) :
  Forall (λ c, isWhiteSpace c = true) l →
  Forall (λ c, isWhiteSpace c = true) r →
  normalizeHttpPath (l ++ value ++ r) = normalizeHttpPath value.
Proof.
  intros Hl Hr. unfold normalizeHttpPath. by rewrite trim_padding.
Qed.

(** X14.  The leading slash is optional: a path whose first code unit is
    neither white space nor a slash is normalised as the same path with a
    slash in front. *)
Theorem normalizeHttpPath_leading_slash_optional (c : codeUnit) (value : jsString) :
  isWhiteSpace c = false →
  c ≠ slash →
  normalizeHttpPath (slash :: c :: value) = normalizeHttpPath (c :: value).
Proof.
  intros Hc Hslash.
  destruct (trimEnd_cons_nonwhite c value Hc) as [u Hu].
  assert (Ht : trim (c :: value) = c :: u).
  { unfold trim. by rewrite trimStart_nonwhite. }
  assert (Ht' : trim (slash :: c :: value) = slash :: c :: u).
  { unfold trim. rewrite trimStart_nonwhite by apply slash_not_white.
    rewrite trimEnd_cons by (by rewrite Hu). by rewrite Hu. }
  unfold normalizeHttpPath. rewrite Ht, Ht'.
  assert (jsEqb (c :: u) [] = false) as -> by (by apply jsEqb_false).
  assert (jsEqb (slash :: c :: u) [] = false) as -> by (by apply jsEqb_false).
  assert (startsWith (js "/") (c :: u) = false) as ->.
  { change (js "/") with [slash]. cbn [startsWith].
    apply not_eq_sym, N.eqb_neq in Hslash. by rewrite Hslash. }
  assert (startsWith (js "/") (slash :: c :: u) = true) as ->
    by (apply startsWith_slash; eauto).
  done.
Qed.

(** ** The command line *)

Lemma bind_Return {A B : Type} (x : Except A) (f : A → Except B) (b : B) :
  x ≫= f = Return b ↔ ∃ a, x = Return a ∧ f a = Return b.
Proof.
  destruct x as [a|m]; cbn; split.
  - eauto.
  - by intros (a' & [= <-] & ?).
  - done.
  - by intros (a' & ? & _).
Qed.

(** The loop is its body, then the loop on what the body left. *)
Lemma parseArgs_cons (o : CliOptions) (arg : jsString) (rest : list jsString) :
  parseArgs o (arg :: rest)
  = next ← parseArg o arg rest; parseArgs next.1 next.2.
Proof.
  cbn [parseArgs]. unfold parseArg, nextValue.
  repeat (match goal with
          | |- context [if ?b then _ else _] => destruct b
          | |- context [match ?l with [] => _ | _ :: _ => _ end] => destruct l
          | |- context [parsePort ?v] => destruct (parsePort v)
          | |- context [parseTtl ?v] => destruct (parseTtl v)
          | |- context [parseHost ?v] => destruct (parseHost v)
          | |- context [normalizeHttpPath ?v] => destruct (normalizeHttpPath v)
          end; cbn; try reflexivity).
Qed.

(** The body takes nothing, or the one value that follows the flag. *)
Lemma parseArg_rest (o o' : CliOptions) (arg : jsString) (rest rest' : list jsString) :
  parseArg o arg rest = Return (o', rest') →
  rest' = rest ∨ ∃ value, rest = value :: rest'.
Proof.
  unfold parseArg, nextValue.
  repeat (match goal with
          | |- context [if ?b then _ else _] => destruct b
          | |- context [match ?l with [] => _ | _ :: _ => _ end] => destruct l
          | |- context [parsePort ?v] => destruct (parsePort v)
          | |- context [parseTtl ?v] => destruct (parseTtl v)
          | |- context [parseHost ?v] => destruct (parseHost v)
          | |- context [normalizeHttpPath ?v] => destruct (normalizeHttpPath v)
          end; cbn; try discriminate);
    intros [= <- <-]; eauto.
Qed.

(** What follows the arguments that the body reads does not matter to it. *)
Lemma parseArg_app (o o' : CliOptions) (arg : jsString)
    (rest rest' more : list jsString) :
  parseArg o arg rest = Return (o', rest') →
  parseArg o arg (rest ++ more) = Return (o', rest' ++ more).
Proof.
  unfold parseArg, nextValue.
  repeat (match goal with
          | |- context [if ?b then _ else _] => destruct b eqn:?
          | |- context [match ?l with [] => _ | _ :: _ => _ end] => destruct l
          | |- context [parsePort ?v] => destruct (parsePort v) eqn:?
          | |- context [parseTtl ?v] => destruct (parseTtl v) eqn:?
          | |- context [parseHost ?v] => destruct (parseHost v) eqn:?
          | |- context [normalizeHttpPath ?v] => destruct (normalizeHttpPath v) eqn:?
          end; cbn [app mbind Except_bind fst snd]; try discriminate);
    try (intros [= <- <-]; reflexivity).
Qed.

Lemma parseArgs_app_aux (n : nat) (o o1 : CliOptions) (pre more : list jsString) :
  (length pre ≤ n)%nat →
  parseArgs o pre = Return o1 →
  parseArgs o (pre ++ more) = parseArgs o1 more.
Proof.
  revert o pre. induction n as [|n IH]; intros o pre Hlen.
  { destruct pre; [|simpl in Hlen; lia]. by intros [= <-]. }
  destruct pre as [|arg rest]; [by intros [= <-]|].
  rewrite parseArgs_cons. intros Hpre.
  apply bind_Return in Hpre as ([o' rest'] & Harg & Hrest). cbn [fst snd] in Hrest.
  change ((arg :: rest) ++ more) with (arg :: (rest ++ more)).
  rewrite parseArgs_cons, (parseArg_app _ _ _ _ _ more Harg). cbn.
  apply IH; [|done].
  apply parseArg_rest in Harg as [-> | [value ->]]; simpl in *; lia.
Qed.

(** X15.  Parsing composes: once a list of arguments has been read
    without an error, what comes after it is read from the options it
    gave, so that a flag met later overrides or adds to the earlier ones. *)
Theorem parseArgs_app (o o1 : CliOptions) (pre more : list jsString) :
  parseArgs o pre = Return o1 →
  parseArgs o (pre ++ more) = parseArgs o1 more.
Proof. by apply (parseArgs_app_aux (length pre)). Qed.

Lemma recognised_false (arg : jsString) :
  recognised arg = false →
  ∀ (o : CliOptions) (rest : list jsString), parseArgs o (arg :: rest) = parseArgs o rest.
Proof.
  unfold recognised. intros Hr o rest. cbn [parseArgs].
  repeat (apply orb_false_elim in Hr as [Hr ?]).
  by repeat (match goal with H : _ = false |- _ => rewrite H; clear H end).
Qed.

(** X16.  Arguments that are none of the flags are skipped without an
    error: a command line made only of such arguments leaves the options
    as they were. *)
Theorem unknown_arguments_ignored (o : CliOptions) (args : list jsString) :
  Forall (λ arg, recognised arg = false) args →
  parseArgs o args = Return o.
Proof.
  induction 1 as [|arg args Harg _ IH]; [done|].
  by rewrite recognised_false.
Qed.

Lemma parsePort_range (value : jsString) (p : Z) :
  parsePort value = Return p → (0 ≤ p ≤ 65535)%Z.
Proof.
  unfold parsePort. destruct (parseInt10 value) as [| |z]; try done.
  destruct (_ || _) eqn:Hb; [done|]. intros [= <-].
  apply orb_false_elim in Hb as [H1 H2]. lia.
Qed.

Lemma parseTtl_positive (value : jsString) (t : Z) :
  parseTtl value = Return t → (0 < t)%Z.
Proof.
  unfold parseTtl. destruct (parseInt10 value) as [| |z]; try done.
  destruct (z <=? 0)%Z eqn:Hb; [done|]. intros [= <-]. lia.
Qed.

Lemma parseHost_trimmed (value h : jsString) :
  parseHost value = Return h → h ≠ [] ∧ trim h = h.
Proof.
  unfold parseHost. destruct (jsEqb (trim value) []) eqn:Hb; [done|].
  intros [= <-]. apply jsEqb_false in Hb. split; [done | apply trim_idempotent].
Qed.

Lemma normalizeHttpPath_leading (value p : jsString) :
  normalizeHttpPath value = Return p → startsWith (js "/") p = true.
Proof.
  intros Hn. destruct (decide (trim value = [])) as [Ht | Ht].
  { by rewrite normalizeHttpPath_blank in Hn. }
  destruct (normalizeHttpPath_unfold value Ht) as (w & w' & -> & _ & Heq).
  rewrite Heq in Hn. injection Hn as <-. apply stripOneSlash_leading.
Qed.

Lemma parseArg_valid (h : jsString) (o o' : CliOptions) (arg : jsString)
    (rest rest' : list jsString) :
  validOptions h o → parseArg o arg rest = Return (o', rest') → validOptions h o'.
Proof.
  intros (Hport & Httl & Hpath & Hhost). unfold parseArg, nextValue.
  repeat (match goal with
          | |- context [if ?b then _ else _] => destruct b
          | |- context [match ?l with [] => _ | _ :: _ => _ end] => destruct l
          | |- context [parsePort ?v] =>
              let H := fresh "Hv" in
              destruct (parsePort v) eqn:H; [apply parsePort_range in H|]
          | |- context [parseTtl ?v] =>
              let H := fresh "Hv" in
              destruct (parseTtl v) eqn:H; [apply parseTtl_positive in H|]
          | |- context [parseHost ?v] =>
              let H := fresh "Hv" in
              destruct (parseHost v) eqn:H; [apply parseHost_trimmed in H|]
          | |- context [normalizeHttpPath ?v] =>
              let H := fresh "Hv" in
              destruct (normalizeHttpPath v) eqn:H; [apply normalizeHttpPath_leading in H|]
          end; cbn [mbind Except_bind fst snd]; try discriminate);
    intros [= <- <-]; unfold validOptions; cbn; auto.
Qed.

Lemma parseArgs_valid_aux (n : nat) (h : jsString) (o o1 : CliOptions)
    (args : list jsString) :
  (length args ≤ n)%nat →
  validOptions h o → parseArgs o args = Return o1 → validOptions h o1.
Proof.
  revert o args. induction n as [|n IH]; intros o args Hlen Hvalid.
  { destruct args; [|simpl in Hlen; lia]. by intros [= <-]. }
  destruct args as [|arg rest]; [by intros [= <-]|].
  rewrite parseArgs_cons. intros Hargs.
  apply bind_Return in Hargs as ([o' rest'] & Harg & Hrest). cbn [fst snd] in Hrest.
  apply (IH o' rest'); [| by apply (parseArg_valid h o o' arg rest rest') | done].
  apply parseArg_rest in Harg as [-> | [value ->]]; simpl in *; lia.
Qed.

(** X17.  The options that [parseCliOptions] returns have been checked:
    the port is an integer from 0 to 65535, the resource TTL is positive,
    the path starts with a slash, and the host name is the default one or
    is not empty and has no white space around it. *)
Theorem parseCliOptions_valid (defaultHostName : jsString) (args : list jsString)
    (o : CliOptions) :
  parseCliOptions defaultHostName args = Return o →
  (0 ≤ cli_port o ≤ 65535)%Z
  ∧ (0 < cli_resourceTtlSeconds o)%Z
  ∧ startsWith (js "/") (cli_path o) = true
  ∧ (cli_hostName o = defaultHostName
     ∨ (cli_hostName o ≠ [] ∧ trim (cli_hostName o) = cli_hostName o)).
Proof.
  intros Hparse.
  apply (parseArgs_valid_aux (length args) defaultHostName
           (defaultOptions defaultHostName) o args); [done | | done].
  unfold validOptions. cbn. repeat split; try done. by left.
Qed.

(** Conditions of the loop on texts that are known are computed. *)
Ltac decide_flags :=
  repeat match goal with
         | |- context [jsEqb ?a ?b] =>
             let r := eval vm_compute in (jsEqb a b) in
             match r with true => idtac | false => idtac end;
             replace (jsEqb a b) with r by (vm_compute; reflexivity)
         | |- context [startsWith ?a ?b] =>
             let r := eval vm_compute in (startsWith a b) in
             match r with true => idtac | false => idtac end;
             replace (startsWith a b) with r by (vm_compute; reflexivity)
         end;
  cbv iota.

(** X18.  A flag that takes a value and comes last, or is followed by an
    empty argument, whatever comes after that, is reported with "Missing
    value for" and the flag. *)
Theorem missing_value_reported (o o1 : CliOptions) (pre : list jsString)
    (flag : string) :
  parseArgs o pre = Return o1 →
  flag ∈ ["--port"; "--path"; "--resource-ttl"; "--host-name"]%string →
  parseArgs o (pre ++ [js flag]) = Throw (js "Missing value for " ++ js flag)
  ∧ ∀ more, parseArgs o (pre ++ js flag :: [] :: more)
            = Throw (js "Missing value for " ++ js flag).
Proof.
  intros Hpre Hflag.
  rewrite (parseArgs_app_aux (length pre) o o1 pre _ (le_n _) Hpre).
  assert (Hmore : ∀ more, parseArgs o (pre ++ js flag :: [] :: more)
                          = parseArgs o1 (js flag :: [] :: more)).
  { intros more. by apply (parseArgs_app_aux (length pre)). }
  repeat (apply elem_of_cons in Hflag as [-> | Hflag]);
    [split; [reflexivity | intros more; rewrite Hmore; reflexivity] ..
    | by apply elem_of_nil in Hflag].
Qed.

Lemma afterEquals_value (flag v tail : jsString) :
  61 ∉ flag → 61 ∉ v →
  tail = [] ∨ (∃ t, tail = 61 :: t) →
  afterEquals (flag ++ 61 :: v ++ tail) = v.
Proof.
  intros Hflag Hv Htail. unfold afterEquals. rewrite split_app by done.
  destruct Htail as [-> | [t ->]].
  - by rewrite app_nil_r, split_no_separator.
  - by rewrite split_app.
Qed.

Lemma no_equals_in_flag (flag : string) :
  flag ∈ ["--port"; "--path"; "--resource-ttl"; "--host-name"]%string →
  61 ∉ js flag.
Proof.
  intros Hflag.
  repeat (apply elem_of_cons in Hflag as [-> | Hflag]);
    [vm_compute; intros Hin;
     repeat (apply elem_of_cons in Hin as [Hin | Hin]; [discriminate Hin|]);
     by apply elem_of_nil in Hin .. | by apply elem_of_nil in Hflag].
Qed.

(** X19.  The form [--flag=value] reads the text between the first and the
    second equals sign, and is then the same as the two arguments [--flag]
    [value]; this holds for the four flags that take a value. *)
Theorem equals_form (o : CliOptions) (rest : list jsString) (flag : string)
    (v tail : jsString) :
  flag ∈ ["--port"; "--path"; "--resource-ttl"; "--host-name"]%string →
  v ≠ [] →
  61 ∉ v →
  tail = [] ∨ (∃ t, tail = 61 :: t) →
  parseArgs o ((js flag ++ js "=" ++ v ++ tail) :: rest)
  = parseArgs o (js flag :: v :: rest).
Proof.
  intros Hflag Hne Hv Htail.
  pose proof (afterEquals_value (js flag) v tail (no_equals_in_flag flag Hflag) Hv Htail)
    as Hafter.
  apply jsEqb_false in Hne.
  repeat (apply elem_of_cons in Hflag as [-> | Hflag]);
    [.. | by apply elem_of_nil in Hflag];
    change (js "=" ++ v ++ tail) with (61 :: v ++ tail);
    cbn [parseArgs]; decide_flags; rewrite Hne;
    match goal with
    | |- context [afterEquals ?x] =>
        replace (afterEquals x) with v by (symmetry; exact Hafter)
    end; reflexivity.
Qed.

(** *** Decimal numbers *)

Lemma digitsValue_from (digits : jsString) (a : N) :
  fold_left (λ acc c, 10 * acc + (c - 48)) digits a
  = a * 10 ^ N.of_nat (length digits) + digitsValue digits.
Proof.
  unfold digitsValue. revert a. induction digits as [|d digits IH]; intros a.
  - simpl. lia.
  - cbn [fold_left length]. rewrite IH, (IH (10 * 0 + (d - 48))).
    rewrite Nat2N.inj_succ, N.pow_succ_r'. ring.
Qed.

Lemma digitsOf_digits (fuel : nat) (n : N) (acc : jsString) :
  Forall (λ c, isDigit c = true) acc →
  Forall (λ c, isDigit c = true) (digitsOf fuel n acc).
Proof.
  revert n acc. induction fuel as [|fuel IH]; intros n acc Hacc; [done|].
  cbn [digitsOf].
  assert (Hd : isDigit (48 + n mod 10) = true).
  { unfold isDigit. pose proof (N.mod_upper_bound n 10 ltac:(lia)) as Hlt.
    revert Hlt. generalize (n mod 10). intros r Hlt.
    apply andb_true_intro. split; apply N.leb_le; lia. }
  destruct (n / 10 =? 0); [by constructor | apply IH; by constructor].
Qed.

Lemma digitsOf_nonempty (fuel : nat) (n : N) (acc : jsString) :
  digitsOf (S fuel) n acc ≠ [].
Proof.
  revert n acc. induction fuel as [|fuel IH]; intros n acc.
  - cbn [digitsOf]. by destruct (n / 10 =? 0).
  - change (digitsOf (S (S fuel)) n acc)
      with (let acc' := (48 + n mod 10) :: acc in
            if n / 10 =? 0 then acc' else digitsOf (S fuel) (n / 10) acc').
    cbv zeta. destruct (n / 10 =? 0); [done | apply IH].
Qed.

Lemma digitsOf_value (fuel : nat) (n : N) (acc : jsString) :
  n < 2 ^ N.of_nat fuel →
  digitsValue (digitsOf fuel n acc) = n * 10 ^ N.of_nat (length acc) + digitsValue acc.
Proof.
  revert n acc. induction fuel as [|fuel IH]; intros n acc Hn.
  - simpl in Hn. assert (n = 0) as -> by lia. simpl. lia.
  - cbn [digitsOf].
    assert (Hacc : digitsValue ((48 + n mod 10) :: acc)
                   = n mod 10 * 10 ^ N.of_nat (length acc) + digitsValue acc).
    { unfold digitsValue at 1. cbn [fold_left]. rewrite digitsValue_from.
      replace (10 * 0 + (48 + n mod 10 - 48)) with (n mod 10); [done|].
      generalize (n mod 10). intros r. lia. }
    pose proof (N.div_mod n 10 ltac:(lia)) as Hdm.
    destruct (N.eqb_spec (n / 10) 0) as [Hz | Hz].
    + rewrite Hacc. rewrite Hz, N.mul_0_r, N.add_0_l in Hdm. by rewrite <- Hdm.
    + rewrite IH.
      * rewrite Hacc. cbn [length]. rewrite Nat2N.inj_succ, N.pow_succ_r' by lia.
        rewrite Hdm at 3. ring.
      * rewrite Nat2N.inj_succ, N.pow_succ_r' in Hn by lia.
        apply N.Div0.div_lt_upper_bound.
        eapply N.lt_le_trans; [exact Hn|]. apply N.mul_le_mono_r. lia.
Qed.

Lemma digit_is_plain (c : codeUnit) :
  isDigit c = true → isWhiteSpace c = false ∧ (c =? 45) = false ∧ (c =? 43) = false.
Proof.
  unfold isDigit. intros Hc. apply andb_prop in Hc as [H1 H2].
  apply N.leb_le in H1, H2. unfold isWhiteSpace.
  repeat split;
    repeat (apply orb_false_intro);
    try (apply N.eqb_neq; lia);
    apply andb_false_intro1, N.leb_gt; lia.
Qed.

Lemma takeDigits_app (digits tail : jsString) :
  Forall (λ c, isDigit c = true) digits →
  match tail with c :: _ => isDigit c = false | [] => True end →
  takeDigits (digits ++ tail) = digits.
Proof.
  intros Hd Htail. induction Hd as [|d digits Hd _ IH].
  - destruct tail as [|c tail]; [done|]. cbn [app takeDigits]. by rewrite Htail.
  - cbn [app takeDigits]. by rewrite Hd, IH.
Qed.

(** The text of a natural number up to 2^53, followed by anything that is
    not a digit, is read back as that number. *)
Lemma parseInt10_numberToString (z : Z) (tail : jsString) :
  (0 ≤ z ≤ 2 ^ 53)%Z →
  match tail with c :: _ => isDigit c = false | [] => True end →
  parseInt10 (numberToString z ++ tail) = Finite z.
Proof.
  intros Hz Htail. unfold numberToString.
  assert ((z <? 0)%Z = false) as -> by (apply Z.ltb_ge; lia).
  set (n := Z.abs_N z). set (fuel := N.to_nat (N.log2 n)).
  assert (Hdigits : Forall (λ c, isDigit c = true) (digitsOf (S fuel) n []))
    by (by apply digitsOf_digits).
  assert (Hvalue : digitsValue (digitsOf (S fuel) n []) = n).
  { rewrite digitsOf_value; [change (n * 1 + 0 = n); lia|].
    unfold fuel. rewrite Nat2N.inj_succ, N2Nat.id.
    destruct (N.eq_dec n 0) as [-> | Hn]; [done|].
    apply N.log2_spec. lia. }
  pose proof (digitsOf_nonempty fuel n []) as Hne.
  destruct (digitsOf (S fuel) n []) as [|d ds] eqn:Hds; [done|].
  apply Forall_cons in Hdigits as Hd. destruct Hd as [Hd _].
  destruct (digit_is_plain d Hd) as (Hw & H45 & H43).
  unfold parseInt10. cbn [app]. rewrite trimStart_nonwhite by done.
  rewrite H45, H43. cbn [orb].
  change (d :: ds ++ tail) with ((d :: ds) ++ tail).
  rewrite takeDigits_app by done.
  assert (jsEqb (d :: ds) [] = false) as -> by (by apply jsEqb_false).
  rewrite Hvalue. unfold roundToDouble.
  assert ((n <=? 2 ^ 53) = true) as ->.
  { apply N.leb_le. unfold n.
    change (2 ^ 53) with (Z.to_N (2 ^ 53)). lia. }
  f_equal. unfold n. lia.
Qed.

(** X20.  Ports and TTLs are read leniently and exactly: the decimal text
    of a port from 0 to 65535, as [buildResourceUri] prints it, parses back
    to the same port, also when it is followed by text that does not begin
    with a digit; the same holds for a TTL from 1 to 2^53. *)
Theorem decimal_round_trip (z : Z) (tail : jsString) :
  match tail with c :: _ => isDigit c = false | [] => True end →
  ((0 ≤ z ≤ 65535)%Z → parsePort (numberToString z ++ tail) = Return z)
  ∧ ((0 < z ≤ 2 ^ 53)%Z → parseTtl (numberToString z ++ tail) = Return z).
Proof.
  intros Htail. split; intros Hz.
  - unfold parsePort. rewrite parseInt10_numberToString by (done || lia).
    assert ((z <? 0)%Z || (65535 <? z)%Z = false) as ->; [|done].
    apply orb_false_intro; [apply Z.ltb_ge | apply Z.ltb_ge]; lia.
  - unfold parseTtl. rewrite parseInt10_numberToString by (done || lia).
    by assert ((z <=? 0)%Z = false) as -> by (apply Z.leb_gt; lia).
Qed.

Lemma leading_slash_not_blank (p : jsString) :
  startsWith (js "/") p = true → trim p ≠ [].
Proof.
  intros Hp. apply startsWith_slash in Hp as [p' ->].
  unfold trim. rewrite trimStart_nonwhite by apply slash_not_white.
  destruct (trimEnd_cons_nonwhite slash p' slash_not_white) as [u ->]. done.
Qed.

(** X21.  Once the command line has been parsed, starting cannot fail on
    the path: without [--http] the stdio server runs; with it, the HTTP
    server starts in the empty state on the path normalised a second time,
    which begins with a slash, with the TTL, port, host name and scheme
    flag of the options. *)
Theorem runServer_starts (defaultHostName : jsString) (argv : list jsString)
    (o : CliOptions) :
  parseCliOptions defaultHostName argv = Return o →
  (cli_http o = false → runServer defaultHostName argv = Return StdioServer)
  ∧ (cli_http o = true →
       ∃ p, normalizeHttpPath (cli_path o) = Return p
            ∧ startsWith (js "/") p = true
            ∧ runServer defaultHostName argv
              = Return (HttpServer (mkConfig p (cli_resourceTtlSeconds o))
                          (mkUriConfig (cli_port o) (cli_hostName o) (cli_insecure o))
                          initialState)).
Proof.
  intros Hparse. unfold runServer. rewrite Hparse. cbn [mbind Except_bind].
  split; intros ->; [done|].
  pose proof (parseArgs_valid_aux (length argv) defaultHostName
                (defaultOptions defaultHostName) o argv (le_n _)) as Hvalid.
  destruct Hvalid as (_ & _ & Hpath & _); [| exact Hparse |].
  { unfold validOptions. cbn. repeat split; try done. by left. }
  apply leading_slash_not_blank in Hpath.
  destruct (normalizeHttpPath_unfold (cli_path o) Hpath) as (w & w' & -> & _ & Heq).
  exists (stripOneSlash (slash :: w')).
  split; [done|]. split; [apply stripOneSlash_leading|].
  unfold startStreamableHttpServer. by rewrite Heq.
Qed.

(** ** The model at work *)

#[local] Existing Instance sampleSdk.

Ltac not_in_list :=
  let Hin := fresh "Hin" in
  intros Hin;
  repeat (apply elem_of_cons in Hin as [Hin | Hin]; [discriminate Hin|]);
  by apply elem_of_nil in Hin.

Lemma malformed_json_rejected_witness :
  req_url (post (Some (js "A")) (js "{oops")) = UrlPath (normalizedPath sampleConfig)
  ∧ methodOf (post (Some (js "A")) (js "{oops")) = js "POST"
  ∧ req_body (post (Some (js "A")) (js "{oops")) = BodyText (js "{oops")
  ∧ js "{oops" ≠ []
  ∧ JSON_parse (js "{oops") = None
  ∧ requestListener sampleConfig oneSession (post (Some (js "A")) (js "{oops"))
      (sampleEnv 0 quiet)
    = (oneSession, Reply 400 (Some (js "application/json"))
                     (JsonRpcError (-32000) (js "Invalid JSON body"))).
Proof.
  split; [reflexivity|]. split; [reflexivity|]. split; [reflexivity|].
  split; [discriminate|]. split; [reflexivity|].
  apply (malformed_json_rejected sampleConfig oneSession
           (post (Some (js "A")) (js "{oops")) (sampleEnv 0 quiet) (js "{oops"));
    [reflexivity | reflexivity | reflexivity | discriminate | reflexivity].
Defined.

Lemma post_without_session_rejected_witness :
  req_url (post None toolCallBody) = UrlPath (normalizedPath sampleConfig)
  ∧ methodOf (post None toolCallBody) = js "POST"
  ∧ req_body (post None toolCallBody) = BodyText toolCallBody
  ∧ parseBody (sdk := sampleSdk) toolCallBody = Some (Some SampleToolCall)
  ∧ getSession oneSession (post None toolCallBody) = Undefined
  ∧ requestListener sampleConfig oneSession (post None toolCallBody) (sampleEnv 0 quiet)
    = (oneSession, Reply 400 (Some (js "application/json"))
                     (JsonRpcError (-32000)
                        (js "Bad Request: No valid session ID provided"))).
Proof.
  split; [reflexivity|]. split; [reflexivity|]. split; [reflexivity|].
  split; [reflexivity|]. split; [reflexivity|].
  apply (post_without_session_rejected (sdk := sampleSdk) sampleConfig oneSession
           (post None toolCallBody) (sampleEnv 0 quiet) toolCallBody (Some SampleToolCall));
    [reflexivity | reflexivity | reflexivity | reflexivity | reflexivity |].
  right. exists SampleToolCall. split; [reflexivity | right; reflexivity].
Defined.

Lemma download_prefix_any_method_witness :
  req_url (download "PUT" (js "nope") (js "r1") (js "shot.png"))
  = UrlPath (downloadPath sampleConfig (js "nope") (js "r1") (js "shot.png"))
  ∧ startsWith (downloadPrefix sampleConfig)
      (downloadPath sampleConfig (js "nope") (js "r1") (js "shot.png")) = true
  ∧ requestListener sampleConfig twoSessionsOneShot
      (download "PUT" (js "nope") (js "r1") (js "shot.png")) (sampleEnv 100 quiet)
    = (twoSessionsOneShot, Reply 404 None (Text (js "Not Found"))).
Proof.
  split; [reflexivity|]. split; [reflexivity|].
  destruct (download_prefix_any_method sampleConfig twoSessionsOneShot
              (download "PUT" (js "nope") (js "r1") (js "shot.png"))
              (sampleEnv 100 quiet)
              (downloadPath sampleConfig (js "nope") (js "r1") (js "shot.png"))
              eq_refl eq_refl) as (Hstate & _ & _ & Hunknown).
  specialize (Hunknown (js "nope") (js "r1") [js "shot.png"] eq_refl eq_refl).
  rewrite Hstate in Hunknown |- *. cbn [snd] in Hunknown. by rewrite Hunknown.
Defined.

(** A remainder of one segment is answered 400; the resource registered
    at time 0 with a TTL of 1 is served at time 0 and is gone at time 2. *)
Lemma download_responder_steps_witness :
  req_url (download "GET" (js "A") (js "r1") (js "shot.png"))
  = UrlPath (downloadPrefix shortLived
             ++ js "A" ++ slash :: js "r1" ++ slash :: js "shot.png")
  ∧ (slash ∉ js "A")
  ∧ (slash ∉ js "r1")
  ∧ sessions oneSession !! js "A" = Some (mkSession 0 0)
  ∧ requestListener shortLived oneSession
      (mkRequest (UrlPath (downloadPrefix shortLived ++ js "A")) None None (BodyText []))
      (sampleEnv 0 quiet)
    = (oneSession, Reply 400 None (Text (js "Invalid download path")))
  ∧ (requestListener shortLived
       (registerResource (resourceManagerOf shortLived) 0%nat (js "r1")
          (js "/data/shot.png") (Some (js "image/png")) (js "shot.png") 0 oneSession)
       (download "GET" (js "A") (js "r1") (js "shot.png")) (sampleEnv 2 quiet)).2
    = Reply 404 None (Text (js "Not Found"))
  ∧ (requestListener shortLived
       (registerResource (resourceManagerOf shortLived) 0%nat (js "r1")
          (js "/data/shot.png") (Some (js "image/png")) (js "shot.png") 0 oneSession)
       (download "GET" (js "A") (js "r1") (js "shot.png")) (sampleEnv 0 quiet)).2
    = Reply 200 (Some (js "image/png"))
        (FileStream (mkFileResource 0 (js "/data/shot.png") (Some (js "image/png"))
                       (js "shot.png") 1) 10).
Proof.
  assert (HA : slash ∉ js "A") by not_in_list.
  assert (Hr1 : slash ∉ js "r1") by not_in_list.
  split; [reflexivity|]. split; [exact HA|]. split; [exact Hr1|].
  split; [reflexivity|]. split; [|split].
  - exact (proj1 (proj2 (download_responder_steps shortLived oneSession
                           (mkRequest (UrlPath (downloadPrefix shortLived ++ js "A"))
                              None None (BodyText []))
                           (sampleEnv 0 quiet) (js "A") eq_refl)) HA).
  - destruct (proj2 (proj2 (download_responder_steps shortLived oneSession
                              (download "GET" (js "A") (js "r1") (js "shot.png"))
                              (sampleEnv 2 quiet)
                              (js "A" ++ slash :: js "r1" ++ slash :: js "shot.png")
                              eq_refl))
                (js "A") (js "r1") (slash :: js "shot.png") eq_refl HA Hr1
                (or_intror (ex_intro _ (js "shot.png") eq_refl)))
      as (_ & _ & _ & Httl).
    destruct (Httl (mkSession 0 0) (js "/data/shot.png") (Some (js "image/png"))
                (js "shot.png") 0%Z eq_refl) as [Hlate _].
    apply Hlate. vm_compute. discriminate.
  - destruct (proj2 (proj2 (download_responder_steps shortLived oneSession
                              (download "GET" (js "A") (js "r1") (js "shot.png"))
                              (sampleEnv 0 quiet)
                              (js "A" ++ slash :: js "r1" ++ slash :: js "shot.png")
                              eq_refl))
                (js "A") (js "r1") (slash :: js "shot.png") eq_refl HA Hr1
                (or_intror (ex_intro _ (js "shot.png") eq_refl)))
      as (_ & _ & _ & Httl).
    destruct (Httl (mkSession 0 0) (js "/data/shot.png") (Some (js "image/png"))
                (js "shot.png") 0%Z eq_refl) as [_ Hearly].
    apply (Hearly eq_refl 10 eq_refl eq_refl).
Defined.

Lemma client_errors_are_4xx_witness :
  clientProtocolError sampleConfig oneSession (get (Some (js "unknown"))) UnknownSession
  ∧ targetParses (get (Some (js "unknown")))
  ∧ noInheritedName (get (Some (js "unknown")))
  ∧ ∃ status contentType body,
      requestListener sampleConfig oneSession (get (Some (js "unknown")))
        (sampleEnv 0 quiet)
      = (oneSession, Reply status contentType body)
      ∧ (400 ≤ status < 500)%Z.
Proof.
  assert (Herr : clientProtocolError sampleConfig oneSession (get (Some (js "unknown")))
                   UnknownSession).
  { split; [reflexivity|]. split; [reflexivity | left; reflexivity]. }
  assert (Htarget : targetParses (get (Some (js "unknown")))) by discriminate.
  assert (Hplain : noInheritedName (get (Some (js "unknown")))).
  { intros sessionId [= <-]. not_in_list. }
  split; [exact Herr|]. split; [exact Htarget|]. split; [exact Hplain|].
  destruct (client_errors_are_4xx sampleConfig oneSession (get (Some (js "unknown")))
              (sampleEnv 0 quiet) UnknownSession Herr Htarget (λ _, Hplain))
    as (status & contentType & body & Heq & Hstatus & _).
  exists status, contentType, body. split; [exact Heq | exact Hstatus].
Defined.

(** C4 as it is written fails: the 400 given to a GET with an unknown
    session id has a plain-text body, not the JSON-RPC envelope. *)
Lemma get_without_session_is_plain_text :
  (requestListener sampleConfig oneSession (get (Some (js "unknown")))
     (sampleEnv 0 quiet)).2
  = Reply 400 None (Text (js "Invalid or missing session ID"))
  ∧ ¬ ∃ status contentType code message,
        (requestListener sampleConfig oneSession (get (Some (js "unknown")))
           (sampleEnv 0 quiet)).2
        = Reply status contentType (JsonRpcError code message).
Proof.
  split; [reflexivity|]. intros (status & contentType & code & message & Heq).
  vm_compute in Heq. discriminate Heq.
Qed.

Lemma no_download_across_owners_witness :
  reachable sampleConfig twoSessionsOneShot
  ∧ sessions twoSessionsOneShot !! js "A" = Some (mkSession 0 0)
  ∧ sessions twoSessionsOneShot !! js "B" = Some (mkSession 1 1)
  ∧ js "A" ≠ js "B"
  ∧ resources twoSessionsOneShot !! js "r1"
    = Some (mkFileResource 0 (js "/data/shot.png") (Some (js "image/png"))
              (js "shot.png") 280)
  ∧ (requestListener sampleConfig twoSessionsOneShot
       (download "GET" (js "B") (js "r1") (js "shot.png")) (sampleEnv 100 quiet)).2
    = Reply 404 None (Text (js "Not Found")).
Proof.
  assert (Hreach : reachable sampleConfig twoSessionsOneShot).
  { exists [handshake (js "A"); handshake (js "B"); registerShot]. reflexivity. }
  assert (Hne : js "A" ≠ js "B") by (intros Heq; vm_compute in Heq; discriminate Heq).
  split; [exact Hreach|]. split; [reflexivity|]. split; [reflexivity|].
  split; [exact Hne|]. split; [reflexivity|].
  destruct (no_download_across_owners sampleConfig twoSessionsOneShot (js "A") (js "B")
              (mkSession 0 0) (js "r1")
              (mkFileResource 0 (js "/data/shot.png") (Some (js "image/png"))
                 (js "shot.png") 280)
              Hreach eq_refl Hne eq_refl eq_refl) as [Hcross _].
  apply (Hcross _ _ (downloadPath sampleConfig (js "B") (js "r1") (js "shot.png"))
           [js "shot.png"]); reflexivity.
Defined.

Lemma deleted_session_is_forgotten_witness :
  reachable sampleConfig oneSession
  ∧ getSession oneSession (delete_ (Some (js "A"))) = Own (mkSession 0 0)
  ∧ (js "A" ∉ objectPrototypeNames)
  ∧ fw_thrown (forward (sampleEnv 0 quiet)) = None
  ∧ Forall (λ ev, minted ev ≠ Some (js "A")) [handshake (js "B")]
  ∧ requestListener sampleConfig
      (run sampleConfig
         (requestListener sampleConfig oneSession (delete_ (Some (js "A")))
            (sampleEnv 0 quiet)).1
         [handshake (js "B")])
      (get (Some (js "A"))) (sampleEnv 1 quiet)
    = (run sampleConfig
         (requestListener sampleConfig oneSession (delete_ (Some (js "A")))
            (sampleEnv 0 quiet)).1
         [handshake (js "B")],
       Reply 400 None (Text (js "Invalid or missing session ID"))).
Proof.
  assert (Hreach : reachable sampleConfig oneSession).
  { exists [handshake (js "A")]. reflexivity. }
  assert (Hplain : js "A" ∉ objectPrototypeNames) by not_in_list.
  assert (Hfresh : Forall (λ ev, minted ev ≠ Some (js "A")) [handshake (js "B")]).
  { constructor; [|constructor].
    intros Heq. vm_compute in Heq. discriminate Heq. }
  split; [exact Hreach|]. split; [reflexivity|]. split; [exact Hplain|].
  split; [reflexivity|]. split; [exact Hfresh|].
  exact (proj2 (deleted_session_is_forgotten sampleConfig oneSession
                  (delete_ (Some (js "A"))) (sampleEnv 0 quiet) (mkSession 0 0)
                  (js "A") [handshake (js "B")] (get (Some (js "A"))) (sampleEnv 1 quiet)
                  Hreach eq_refl eq_refl eq_refl eq_refl Hplain eq_refl Hfresh
                  eq_refl eq_refl eq_refl)).
Defined.

(** C2 as it is written fails.  When the forwarding of the DELETE throws,
    the session stays in the registry and a following GET with its id is
    forwarded to its transport; and after a DELETE that went through, a
    handshake on which the transport mints the same id again makes the id
    name a session again. *)
Lemma delete_that_throws_is_not_forgotten :
  getSession oneSession (delete_ (Some (js "A"))) = Own (mkSession 0 0)
  ∧ requestListener sampleConfig oneSession (delete_ (Some (js "A")))
      (sampleEnv 0 throwing)
    = (oneSession, Reply 500 (Some (js "application/json"))
                     (JsonRpcError (-32603) (js "Internal server error")))
  ∧ (requestListener sampleConfig
       (requestListener sampleConfig oneSession (delete_ (Some (js "A")))
          (sampleEnv 0 throwing)).1
       (get (Some (js "A"))) (sampleEnv 1 quiet)).2
    = Forwarded 0%nat None
  ∧ (requestListener sampleConfig
       (run sampleConfig
          (requestListener sampleConfig oneSession (delete_ (Some (js "A")))
             (sampleEnv 0 quiet)).1
          [handshake (js "A")])
       (get (Some (js "A"))) (sampleEnv 2 quiet)).2
    = Forwarded 1%nat None.
Proof. repeat split; reflexivity. Qed.

(** C6 (failing input).  A POST on the protocol path whose session header
    is [constructor], the name of a property that [sessions] inherits,
    with a body that is not an initialize request: the header names no
    session, yet the answer is the 500 envelope of code -32603, not the
    400 envelope "Bad Request: No valid session ID provided", because the
    inherited value is taken for a session. *)
Theorem inherited_name_is_answered_500 :
  sessions oneSession !! js "constructor" = None
  ∧ parseBody (sdk := sampleSdk) toolCallBody = Some (Some SampleToolCall)
  ∧ getSession oneSession (post (Some (js "constructor")) toolCallBody) = Inherited
  ∧ requestListener sampleConfig oneSession (post (Some (js "constructor")) toolCallBody)
      (sampleEnv 0 quiet)
    = (oneSession, Reply 500 (Some (js "application/json"))
                     (JsonRpcError (-32603) (js "Internal server error"))).
Proof. repeat split; reflexivity. Qed.

Lemma delete_tears_down_witness :
  reachable sampleConfig twoSessionsOneShot
  ∧ getSession twoSessionsOneShot (delete_ (Some (js "A"))) = Own (mkSession 0 0)
  ∧ fw_thrown (forward (sampleEnv 100 closing)) = None
  ∧ sessions (requestListener sampleConfig twoSessionsOneShot (delete_ (Some (js "A")))
                (sampleEnv 100 closing)).1 !! js "A" = None
  ∧ (∀ id r,
       resources (requestListener sampleConfig twoSessionsOneShot
                    (delete_ (Some (js "A"))) (sampleEnv 100 closing)).1 !! id = Some r →
       owner r ≠ 0%nat)
  ∧ sessionByServer (requestListener sampleConfig twoSessionsOneShot
                       (delete_ (Some (js "A"))) (sampleEnv 100 closing)).1 !! 0%nat
    = None.
Proof.
  assert (Hreach : reachable sampleConfig twoSessionsOneShot).
  { exists [handshake (js "A"); handshake (js "B"); registerShot]. reflexivity. }
  split; [exact Hreach|]. split; [reflexivity|]. split; [reflexivity|].
  destruct (delete_tears_down sampleConfig twoSessionsOneShot (delete_ (Some (js "A")))
              (sampleEnv 100 closing) (mkSession 0 0) (js "A")
              Hreach eq_refl eq_refl eq_refl eq_refl eq_refl)
    as ((Hgone & Hcleared & Hunbound & _) & _).
  split; [exact Hgone|]. split; [exact Hcleared | exact Hunbound].
Defined.

(** C7 as it is written fails: when the transport answers a DELETE without
    running its closure callback, the session is removed and [close()] is
    called on no server. *)
Lemma delete_leaves_server_open :
  getSession oneSession (delete_ (Some (js "A"))) = Own (mkSession 0 0)
  ∧ (requestListener sampleConfig oneSession (delete_ (Some (js "A")))
       (sampleEnv 0 quiet)).2 = Forwarded 0%nat None
  ∧ sessions (requestListener sampleConfig oneSession (delete_ (Some (js "A")))
                (sampleEnv 0 quiet)).1 !! js "A" = None
  ∧ closeCalls (requestListener sampleConfig oneSession (delete_ (Some (js "A")))
                  (sampleEnv 0 quiet)).1 = [].
Proof. repeat split; reflexivity. Qed.

(** *** Runs of the model *)

(** The end-to-end run of section 8: the handshake creates a session, a
    tool call carrying its id is forwarded to the same transport, a DELETE
    removes it, and a later GET with the id is refused. *)
Example end_to_end :
  sessions oneSession !! js "A" = Some (mkSession 0 0)
  ∧ requestListener sampleConfig oneSession (post (Some (js "A")) toolCallBody)
      (sampleEnv 1 quiet)
    = (oneSession, Forwarded 0%nat (Some SampleToolCall))
  ∧ (requestListener sampleConfig
       (requestListener sampleConfig oneSession (delete_ (Some (js "A")))
          (sampleEnv 2 closing)).1
       (get (Some (js "A"))) (sampleEnv 3 quiet)).2
    = Reply 400 None (Text (js "Invalid or missing session ID")).
Proof. repeat split; reflexivity. Qed.

(** A session header that names an inherited property ends in the
    [catch], for a GET as for a POST; in a download path it names no
    session. *)
Example get_with_inherited_name :
  requestListener sampleConfig oneSession (get (Some (js "__proto__"))) (sampleEnv 0 quiet)
  = (oneSession, Reply 500 (Some (js "application/json"))
                   (JsonRpcError (-32603) (js "Internal server error"))).
Proof. reflexivity. Qed.

Example download_with_inherited_name :
  (requestListener sampleConfig twoSessionsOneShot
     (download "GET" (js "toString") (js "r1") (js "shot.png")) (sampleEnv 100 quiet)).2
  = Reply 404 None (Text (js "Not Found")).
Proof. reflexivity. Qed.

(** A resource is served to its own session before the deadline. *)
Example download_in_time :
  (requestListener sampleConfig twoSessionsOneShot
     (download "GET" (js "A") (js "r1") (js "shot.png")) (sampleEnv 279 quiet)).2
  = Reply 200 (Some (js "image/png"))
      (FileStream (mkFileResource 0 (js "/data/shot.png") (Some (js "image/png"))
                     (js "shot.png") 280) 10).
Proof. reflexivity. Qed.

Example download_at_deadline :
  (requestListener sampleConfig twoSessionsOneShot
     (download "GET" (js "A") (js "r1") (js "shot.png")) (sampleEnv 280 quiet)).2
  = Reply 404 None (Text (js "Not Found")).
Proof. reflexivity. Qed.

(** A line feed in the name of the resource makes [writeHead] throw. *)
Example download_with_bad_header :
  basename (js "/tmp/shots/a.png/") = js "a.png"
  ∧ (requestListener sampleConfig
       (registerResource (resourceManagerOf sampleConfig) 0%nat (js "r2")
          (js "/data/shot.png") None (js "shot" ++ [10] ++ js ".png") 0 oneSession)
       (download "GET" (js "A") (js "r2") (js "shot.png")) (sampleEnv 1 quiet)).2
    = Reply 500 None (Text (js "Failed to serve file")).
Proof. split; reflexivity. Qed.

Example download_short_path :
  (requestListener sampleConfig twoSessionsOneShot
     (mkRequest (UrlPath (js "/mcp/resources/A")) (Some (js "GET")) None (BodyText []))
     (sampleEnv 100 quiet)).2
  = Reply 400 None (Text (js "Invalid download path")).
Proof. reflexivity. Qed.

Example method_not_allowed :
  (requestListener sampleConfig oneSession
     (mkRequest (UrlPath (js "/mcp")) (Some (js "PUT")) None (BodyText []))
     (sampleEnv 0 quiet)).2
  = Reply 405 None (Text (js "Method Not Allowed")).
Proof. reflexivity. Qed.

(** The drain with a failing [close()] on server 0 still closes server 1. *)
Example shutdown_with_a_failure :
  sessions (shutdown (λ n, bool_decide (n = 0%nat)) false twoSessions) = ∅
  ∧ 0%nat ∈ closeCalls (shutdown (λ n, bool_decide (n = 0%nat)) false twoSessions)
  ∧ 1%nat ∈ closeCalls (shutdown (λ n, bool_decide (n = 0%nat)) false twoSessions)
  ∧ drainErrors (shutdown (λ n, bool_decide (n = 0%nat)) false twoSessions) = [js "A"]
  ∧ exited (shutdown (λ n, bool_decide (n = 0%nat)) false twoSessions) = true.
Proof.
  split; [by vm_compute|]. split; [vm_compute; set_solver|].
  split; [vm_compute; set_solver|]. split; by vm_compute.
Qed.

(** *** The gateway on sample requests *)

Lemma oneSession_reachable : reachable sampleConfig oneSession.
Proof. exists [handshake (js "A")]. reflexivity. Defined.

Lemma twoSessions_reachable : reachable sampleConfig twoSessions.
Proof. exists [handshake (js "A"); handshake (js "B")]. reflexivity. Defined.

Lemma twoSessionsOneShot_reachable : reachable sampleConfig twoSessionsOneShot.
Proof. exists [handshake (js "A"); handshake (js "B"); registerShot]. reflexivity. Defined.

Lemma handshake_opens_session_witness :
  reachable sampleConfig oneSession
  ∧ parseBody (sdk := sampleSdk) initializeBody = Some (Some SampleInitialize)
  ∧ getSession oneSession (post None initializeBody) = Undefined
  ∧ js "B" ≠ []
  ∧ sessions (requestListener sampleConfig oneSession (post None initializeBody)
                (sampleEnv 0 (minting (js "B")))).1 !! js "B"
    = Some (mkSession 1 1).
Proof.
  assert (Hne : js "B" ≠ []) by discriminate.
  split; [exact oneSession_reachable|]. split; [reflexivity|]. split; [reflexivity|].
  split; [exact Hne|].
  exact (proj1 (handshake_opens_session (sdk := sampleSdk) sampleConfig oneSession
                  (post None initializeBody) (sampleEnv 0 (minting (js "B")))
                  initializeBody SampleInitialize (js "B")
                  oneSession_reachable eq_refl eq_refl eq_refl eq_refl eq_refl eq_refl
                  eq_refl eq_refl eq_refl eq_refl Hne)).
Defined.

Lemma post_with_session_forwarded_witness :
  reachable sampleConfig oneSession
  ∧ parseBody (sdk := sampleSdk) toolCallBody = Some (Some SampleToolCall)
  ∧ getSession oneSession (post (Some (js "A")) toolCallBody) = Own (mkSession 0 0)
  ∧ (requestListener sampleConfig oneSession (post (Some (js "A")) toolCallBody)
       (sampleEnv 1 quiet)).2
    = Forwarded 0%nat (Some SampleToolCall).
Proof.
  split; [exact oneSession_reachable|]. split; [reflexivity|]. split; [reflexivity|].
  exact (proj1 (post_with_session_forwarded (sdk := sampleSdk) sampleConfig oneSession
                  (post (Some (js "A")) toolCallBody) (sampleEnv 1 quiet)
                  toolCallBody (Some SampleToolCall) (mkSession 0 0)
                  oneSession_reachable eq_refl eq_refl eq_refl eq_refl eq_refl)).
Defined.

Lemma get_with_session_forwarded_witness :
  reachable sampleConfig oneSession
  ∧ getSession oneSession (get (Some (js "A"))) = Own (mkSession 0 0)
  ∧ (requestListener sampleConfig oneSession (get (Some (js "A"))) (sampleEnv 1 quiet)).1
    = oneSession.
Proof.
  split; [exact oneSession_reachable|]. split; [reflexivity|].
  exact (proj2 (get_with_session_forwarded (sdk := sampleSdk) sampleConfig oneSession
                  (get (Some (js "A"))) (sampleEnv 1 quiet) (mkSession 0 0)
                  oneSession_reachable eq_refl eq_refl eq_refl)).
Defined.

Lemma delete_that_throws_keeps_session_witness :
  reachable sampleConfig oneSession
  ∧ getSession oneSession (delete_ (Some (js "A"))) = Own (mkSession 0 0)
  ∧ fw_thrown (forward (sampleEnv 1 throwing)) = Some false
  ∧ fw_closed (forward (sampleEnv 1 throwing)) = false
  ∧ requestListener sampleConfig oneSession (delete_ (Some (js "A")))
      (sampleEnv 1 throwing)
    = (oneSession, Reply 500 (Some (js "application/json"))
                     (JsonRpcError (-32603) (js "Internal server error"))).
Proof.
  split; [exact oneSession_reachable|]. split; [reflexivity|]. split; [reflexivity|].
  split; [reflexivity|].
  exact (delete_that_throws_keeps_session (sdk := sampleSdk) sampleConfig oneSession
           (delete_ (Some (js "A"))) (sampleEnv 1 throwing) (mkSession 0 0) false
           oneSession_reachable eq_refl eq_refl eq_refl eq_refl eq_refl).
Defined.

Lemma sessions_come_from_handshakes_witness :
  reachable sampleConfig oneSession
  ∧ sessions (requestListener sampleConfig oneSession (post None initializeBody)
                (sampleEnv 0 (minting (js "B")))).1 !! js "B"
    = Some (mkSession 1 1)
  ∧ (sessions oneSession !! js "B" = Some (mkSession 1 1)
     ∨ fw_initialized (forward (sampleEnv 0 (minting (js "B")))) = Some (js "B")).
Proof.
  split; [exact oneSession_reachable|]. split; [reflexivity|].
  destruct (sessions_come_from_handshakes (sdk := sampleSdk) sampleConfig oneSession
              (post None initializeBody) (sampleEnv 0 (minting (js "B")))
              (js "B") (mkSession 1 1) oneSession_reachable eq_refl)
    as [Hold | (Hminted & _)]; [left; exact Hold | right; exact Hminted].
Defined.

Lemma other_sessions_untouched_witness :
  reachable sampleConfig twoSessions
  ∧ req_sessionHeader (delete_ (Some (js "A"))) = Some (js "A")
  ∧ getSession twoSessions (delete_ (Some (js "A"))) = Own (mkSession 0 0)
  ∧ js "B" ≠ js "A"
  ∧ sessions (requestListener sampleConfig twoSessions (delete_ (Some (js "A")))
                (sampleEnv 0 closing)).1 !! js "B"
    = sessions twoSessions !! js "B".
Proof.
  assert (Hne : js "B" ≠ js "A") by (intros Heq; vm_compute in Heq; discriminate Heq).
  split; [exact twoSessions_reachable|]. split; [reflexivity|]. split; [reflexivity|].
  split; [exact Hne|].
  exact (proj1 (other_sessions_untouched (sdk := sampleSdk) sampleConfig twoSessions
                  (delete_ (Some (js "A"))) (sampleEnv 0 closing) (mkSession 0 0)
                  (js "A") twoSessions_reachable eq_refl eq_refl) (js "B") Hne).
Defined.

Lemma sessions_have_distinct_servers_witness :
  reachable sampleConfig twoSessions
  ∧ sessions twoSessions !! js "A" = Some (mkSession 0 0)
  ∧ sessions twoSessions !! js "B" = Some (mkSession 1 1)
  ∧ js "A" ≠ js "B"
  ∧ server (mkSession 0 0) ≠ server (mkSession 1 1).
Proof.
  assert (Hne : js "A" ≠ js "B") by (intros Heq; vm_compute in Heq; discriminate Heq).
  split; [exact twoSessions_reachable|]. split; [reflexivity|]. split; [reflexivity|].
  split; [exact Hne|].
  exact (proj1 (sessions_have_distinct_servers (sdk := sampleSdk) sampleConfig
                  twoSessions (js "A") (js "B") (mkSession 0 0) (mkSession 1 1)
                  twoSessions_reachable eq_refl eq_refl Hne)).
Defined.

Lemma gateway_replies_witness :
  (requestListener sampleConfig oneSession (get (Some (js "unknown")))
     (sampleEnv 0 quiet)).2
  = Reply 400 None (Text (js "Invalid or missing session ID"))
  ∧ (400 = 404 ∨ 400 = 400)%Z.
Proof.
  split; [reflexivity|].
  destruct (gateway_replies (sdk := sampleSdk) sampleConfig oneSession
              (get (Some (js "unknown"))) (sampleEnv 0 quiet) 400 None
              (Text (js "Invalid or missing session ID")) eq_refl)
    as [(H & _) | [(H & _) | [(H & _) | [(H & _) | [(H & _) | [(H & _) | (H & _)]]]]]];
    first [right; exact H | left; exact H | discriminate H].
Defined.

Lemma live_servers_are_bound_witness :
  reachable sampleConfig twoSessions
  ∧ sessions twoSessions !! js "B" = Some (mkSession 1 1)
  ∧ js "B" ≠ []
  ∧ getSessionId twoSessions 1%nat = Some (js "B").
Proof.
  assert (Hne : js "B" ≠ []) by discriminate.
  split; [exact twoSessions_reachable|]. split; [reflexivity|]. split; [exact Hne|].
  exact (live_servers_are_bound (sdk := sampleSdk) sampleConfig twoSessions (js "B")
           (mkSession 1 1) twoSessions_reachable eq_refl Hne).
Defined.

Lemma resource_uri_splits_back_witness :
  reachable sampleConfig twoSessionsOneShot
  ∧ sessions twoSessionsOneShot !! js "A" = Some (mkSession 0 0)
  ∧ js "A" ≠ []
  ∧ (slash ∉ js "A")
  ∧ (slash ∉ js "r1")
  ∧ encodeURIComponent (js "shot 1.png") = Return (js "shot%201.png")
  ∧ buildResourceUri sampleConfig sampleUriConfig twoSessionsOneShot 0%nat (js "r1")
      (js "shot 1.png")
    = Return (Some (js "https://localhost:8000/mcp/resources/A/r1/shot%201.png")).
Proof.
  assert (Hne : js "A" ≠ []) by discriminate.
  assert (HA : slash ∉ js "A") by not_in_list.
  assert (Hid : slash ∉ js "r1") by not_in_list.
  split; [exact twoSessionsOneShot_reachable|]. split; [reflexivity|].
  split; [exact Hne|]. split; [exact HA|]. split; [exact Hid|]. split; [reflexivity|].
  exact (proj1 (resource_uri_splits_back (sdk := sampleSdk) sampleConfig sampleUriConfig
                  twoSessionsOneShot (js "A") (mkSession 0 0) (js "r1")
                  (js "shot 1.png") (js "shot%201.png")
                  twoSessionsOneShot_reachable eq_refl Hne HA Hid eq_refl)).
Defined.

Lemma no_uri_after_teardown_witness :
  reachable sampleConfig twoSessionsOneShot
  ∧ getSession twoSessionsOneShot (delete_ (Some (js "A"))) = Own (mkSession 0 0)
  ∧ fw_thrown (forward (sampleEnv 100 quiet)) = None
  ∧ buildResourceUri sampleConfig sampleUriConfig
      (requestListener sampleConfig twoSessionsOneShot (delete_ (Some (js "A")))
         (sampleEnv 100 quiet)).1 0%nat (js "r1") (js "shot.png")
    = Return None.
Proof.
  split; [exact twoSessionsOneShot_reachable|]. split; [reflexivity|].
  split; [reflexivity|].
  exact (no_uri_after_teardown (sdk := sampleSdk) sampleConfig sampleUriConfig
           twoSessionsOneShot (delete_ (Some (js "A"))) (sampleEnv 100 quiet)
           (mkSession 0 0) (js "A") (js "r1") (js "shot.png")
           twoSessionsOneShot_reachable eq_refl eq_refl eq_refl eq_refl eq_refl).
Defined.

(** *** Paths and the command line on sample inputs *)

Lemma normalizeHttpPath_ignores_padding_witness :
  Forall (λ c, isWhiteSpace c = true) (js "  ")
  ∧ Forall (λ c, isWhiteSpace c = true) [10]
  ∧ normalizeHttpPath (js "  " ++ js "mcp/" ++ [10]) = normalizeHttpPath (js "mcp/").
Proof.
  assert (Hl : Forall (λ c, isWhiteSpace c = true) (js "  "))
    by (repeat constructor).
  assert (Hr : Forall (λ c, isWhiteSpace c = true) [10]) by (repeat constructor).
  split; [exact Hl|]. split; [exact Hr|].
  exact (normalizeHttpPath_ignores_padding (js "  ") (js "mcp/") [10] Hl Hr).
Defined.

Lemma normalizeHttpPath_leading_slash_optional_witness :
  isWhiteSpace 109 = false
  ∧ 109 ≠ slash
  ∧ normalizeHttpPath (slash :: 109 :: js "cp") = normalizeHttpPath (109 :: js "cp").
Proof.
  assert (Hne : (109 : codeUnit) ≠ slash) by discriminate.
  split; [reflexivity|]. split; [exact Hne|].
  exact (normalizeHttpPath_leading_slash_optional 109 (js "cp") eq_refl Hne).
Defined.

Lemma parseArgs_app_witness :
  parseArgs sampleOptions [js "--port"; js "9000"] = Return (setPort 9000 sampleOptions)
  ∧ parseArgs sampleOptions ([js "--port"; js "9000"] ++ [js "--insecure"])
    = parseArgs (setPort 9000 sampleOptions) [js "--insecure"].
Proof.
  split; [reflexivity|].
  exact (parseArgs_app sampleOptions (setPort 9000 sampleOptions)
           [js "--port"; js "9000"] [js "--insecure"] eq_refl).
Defined.

Lemma unknown_arguments_ignored_witness :
  Forall (λ arg, recognised arg = false) [js "--verbose"; js "port=1"]
  ∧ parseArgs sampleOptions [js "--verbose"; js "port=1"] = Return sampleOptions.
Proof.
  assert (Hargs : Forall (λ arg, recognised arg = false) [js "--verbose"; js "port=1"])
    by (repeat constructor).
  split; [exact Hargs|].
  exact (unknown_arguments_ignored sampleOptions [js "--verbose"; js "port=1"] Hargs).
Defined.

Lemma parseCliOptions_valid_witness :
  parseCliOptions (js "host") [js "--http"; js "--port=9000"; js "--path"; js "gateway/"]
  = Return (mkCliOptions true 9000 (js "/gateway") 180 (js "host") false)
  ∧ (0 ≤ 9000 ≤ 65535)%Z.
Proof.
  split; [reflexivity|].
  exact (proj1 (parseCliOptions_valid (js "host")
                  [js "--http"; js "--port=9000"; js "--path"; js "gateway/"]
                  (mkCliOptions true 9000 (js "/gateway") 180 (js "host") false)
                  eq_refl)).
Defined.

Lemma missing_value_reported_witness :
  parseArgs sampleOptions [js "--http"] = Return (setHttp sampleOptions)
  ∧ "--port"%string ∈ ["--port"; "--path"; "--resource-ttl"; "--host-name"]%string
  ∧ parseArgs sampleOptions ([js "--http"] ++ [js "--port"])
    = Throw (js "Missing value for " ++ js "--port").
Proof.
  assert (Hflag : "--port"%string
                  ∈ ["--port"; "--path"; "--resource-ttl"; "--host-name"]%string)
    by constructor.
  split; [reflexivity|]. split; [exact Hflag|].
  exact (proj1 (missing_value_reported sampleOptions (setHttp sampleOptions)
                  [js "--http"] "--port" eq_refl Hflag)).
Defined.

Lemma equals_form_witness :
  "--path"%string ∈ ["--port"; "--path"; "--resource-ttl"; "--host-name"]%string
  ∧ js "a" ≠ []
  ∧ (61 ∉ js "a")
  ∧ parseArgs sampleOptions [js "--path" ++ js "=" ++ js "a" ++ js "=b"]
    = parseArgs sampleOptions [js "--path"; js "a"].
Proof.
  assert (Hflag : "--path"%string
                  ∈ ["--port"; "--path"; "--resource-ttl"; "--host-name"]%string)
    by (constructor; constructor).
  assert (Hne : js "a" ≠ []) by discriminate.
  assert (Heq : 61 ∉ js "a") by not_in_list.
  split; [exact Hflag|]. split; [exact Hne|]. split; [exact Heq|].
  exact (equals_form sampleOptions [] "--path" (js "a") (js "=b") Hflag Hne Heq
           (or_intror (ex_intro _ (js "b") eq_refl))).
Defined.

Lemma decimal_round_trip_witness :
  isDigit 47 = false
  ∧ (0 ≤ 8000 ≤ 65535)%Z
  ∧ parsePort (js "8000/tcp") = Return 8000%Z.
Proof.
  assert (Hz : (0 ≤ 8000 ≤ 65535)%Z) by lia.
  split; [reflexivity|]. split; [exact Hz|].
  exact (proj1 (decimal_round_trip 8000 (js "/tcp") eq_refl) Hz).
Defined.

Lemma runServer_starts_witness :
  parseCliOptions (js "host") [js "--http"; js "--path=gateway/"]
  = Return (mkCliOptions true 8000 (js "/gateway") 180 (js "host") false)
  ∧ ∃ p, runServer (js "host") [js "--http"; js "--path=gateway/"]
         = Return (HttpServer (mkConfig p 180) (mkUriConfig 8000 (js "host") false)
                     initialState).
Proof.
  split; [reflexivity|].
  destruct (proj2 (runServer_starts (js "host") [js "--http"; js "--path=gateway/"]
                     (mkCliOptions true 8000 (js "/gateway") 180 (js "host") false)
                     eq_refl) eq_refl) as (p & _ & _ & Hrun).
  exists p. exact Hrun.
Defined.
